(** * Versioned Translator: a shallow embedding of [versioned_translator/logic.py]

    The development follows the Python module function by function.

    - Python [str] is a Rocq [string] read as a sequence of code points
      below 256.  [upper], [lower] and [strip] follow Python on the ASCII
      range, which covers language codes; code points from 128 on are left
      alone by the case mappings.
    - Document attribute values are [pyval]; values decoded from a provider
      response are [json].  Floating point numbers are not modelled.
    - The host framework (Frappe) is a record of read-only site data and
      oracles, [Env], and a mutable [World]: the Translation Store table,
      the error log, the job queue, the trace of HTTP requests and the
      number of clock readings.  A store row is identified by its position
      in the table: the host gives every row a unique, non-empty name, and
      nothing here deletes a row.
    - Host primitives ([frappe.log_error], [insert], [save], [commit],
      [rollback]) are total in this model; the exceptions that are modelled
      come from [requests.post], from decoding and indexing the response,
      and from [frappe.get_doc] on a missing document.
    - [hashlib.md5] is RFC 1321, [json.dumps] is Python's default encoder
      ([ensure_ascii], separators [", "] and [": "]). *)

From Stdlib Require Import ZArith Lia Ascii String List DecimalString.
From stdpp Require Import base option list strings.

Local Open Scope Z_scope.

#[local] Set Warnings "-register-all".

(* ===================================================================== *)
(** ** Python strings *)
(* ===================================================================== *)

Module PyStr.

Definition code (c : ascii) : Z := Z.of_N (N_of_ascii c).
Definition chr (n : Z) : ascii := ascii_of_N (Z.to_N n).

(** [str.isspace] on the code points below 256. *)
Definition is_space (c : ascii) : bool :=
  let n := code c in
  ((9 <=? n) && (n <=? 13)) || ((28 <=? n) && (n <=? 32))
  || (n =? 133) || (n =? 160).

Definition upper_char (c : ascii) : ascii :=
  let n := code c in
  if (97 <=? n) && (n <=? 122) then chr (n - 32) else c.

Definition lower_char (c : ascii) : ascii :=
  let n := code c in
  if (65 <=? n) && (n <=? 90) then chr (n + 32) else c.

Fixpoint map_chars (f : ascii -> ascii) (s : string) : string :=
  match s with
  | EmptyString => EmptyString
  | String c r => String (f c) (map_chars f r)
  end.

Definition upper : string -> string := map_chars upper_char.
Definition lower : string -> string := map_chars lower_char.

Definition is_empty (s : string) : bool :=
  match s with EmptyString => true | _ => false end.

Fixpoint lstrip (s : string) : string :=
  match s with
  | String c r => if is_space c then lstrip r else s
  | EmptyString => EmptyString
  end.

Fixpoint rstrip (s : string) : string :=
  match s with
  | EmptyString => EmptyString
  | String c r =>
      let r' := rstrip r in
      if is_empty r' && is_space c then EmptyString else String c r'
  end.

Definition strip (s : string) : string := rstrip (lstrip s).

(** [s.split(sep)] for a one-character separator. *)
Fixpoint split (sep : ascii) (s : string) : list string :=
  match s with
  | EmptyString => [EmptyString]
  | String c r =>
      if Ascii.eqb c sep then EmptyString :: split sep r
      else match split sep r with
           | h :: t => String c h :: t
           | [] => [String c EmptyString]
           end
  end.

Fixpoint is_prefix (p s : string) : bool :=
  match p, s with
  | EmptyString, _ => true
  | String a p', String b s' => Ascii.eqb a b && is_prefix p' s'
  | String _ _, EmptyString => false
  end.

(** [p in s] on two strings. *)
Fixpoint contains (p s : string) : bool :=
  is_prefix p s ||
  match s with
  | EmptyString => false
  | String _ s' => contains p s'
  end.

(** [s[:n]] *)
Definition take (n : nat) (s : string) : string := String.substring 0 n s.

Definition digit (d : Z) : ascii := chr (48 + d mod 10).

Definition pad2 (n : Z) : string :=
  String (digit (n / 10)) (String (digit n) EmptyString).

Definition pad4 (n : Z) : string :=
  String (digit (n / 1000)) (String (digit (n / 100)) (pad2 n)).

Definition pad6 (n : Z) : string :=
  String (digit (n / 100000)) (String (digit (n / 10000)) (pad4 n)).

(** [str(n)] for an integer. *)
Definition of_int (n : Z) : string := NilZero.string_of_int (Z.to_int n).

Definition hex_digit (d : Z) : ascii :=
  let k := d mod 16 in
  if k <? 10 then chr (48 + k) else chr (87 + k).

Definition hex_byte (b : Z) : string :=
  String (hex_digit (b / 16)) (String (hex_digit b) EmptyString).

Definition is_hex_char (c : ascii) : bool :=
  let n := code c in
  ((48 <=? n) && (n <=? 57)) || ((97 <=? n) && (n <=? 102)).

Fixpoint all_chars (p : ascii -> bool) (s : string) : bool :=
  match s with
  | EmptyString => true
  | String c r => p c && all_chars p r
  end.

(** [s.encode()]: UTF-8 of code points below 256. *)
Fixpoint encode (s : string) : list Z :=
  match s with
  | EmptyString => []
  | String c r =>
      let n := code c in
      if n <? 128 then n :: encode r
      else Z.lor 192 (Z.shiftr n 6) :: Z.lor 128 (Z.land n 63) :: encode r
  end.

End PyStr.

(* ===================================================================== *)
(** ** hashlib.md5 (RFC 1321) on 32-bit words held in [Z] *)
(* ===================================================================== *)

Module MD5.

Definition w32 (x : Z) : Z := Z.land x 4294967295.
Definition add32 (x y : Z) : Z := w32 (x + y).
Definition not32 (x : Z) : Z := Z.lxor x 4294967295.
Definition rotl32 (x c : Z) : Z :=
  w32 (Z.lor (Z.shiftl x c) (Z.shiftr x (32 - c))).

Definition K : list Z :=
  [3614090360; 3905402710; 606105819; 3250441966; 4118548399; 1200080426;
   2821735955; 4249261313; 1770035416; 2336552879; 4294925233; 2304563134;
   1804603682; 4254626195; 2792965006; 1236535329; 4129170786; 3225465664;
   643717713; 3921069994; 3593408605; 38016083; 3634488961; 3889429448;
   568446438; 3275163606; 4107603335; 1163531501; 2850285829; 4243563512;
   1735328473; 2368359562; 4294588738; 2272392833; 1839030562; 4259657740;
   2763975236; 1272893353; 4139469664; 3200236656; 681279174; 3936430074;
   3572445317; 76029189; 3654602809; 3873151461; 530742520; 3299628645;
   4096336452; 1126891415; 2878612391; 4237533241; 1700485571; 2399980690;
   4293915773; 2240044497; 1873313359; 4264355552; 2734768916; 1309151649;
   4149444226; 3174756917; 718787259; 3951481745].

Definition S : list Z :=
  [7; 12; 17; 22; 7; 12; 17; 22; 7; 12; 17; 22; 7; 12; 17; 22;
   5; 9; 14; 20; 5; 9; 14; 20; 5; 9; 14; 20; 5; 9; 14; 20;
   4; 11; 16; 23; 4; 11; 16; 23; 4; 11; 16; 23; 4; 11; 16; 23;
   6; 10; 15; 21; 6; 10; 15; 21; 6; 10; 15; 21; 6; 10; 15; 21].

Record state := State { sA : Z; sB : Z; sC : Z; sD : Z }.

Definition init : state :=
  State 1732584193 4023233417 2562383102 271733878.

(** One of the 64 operations of a block; [M] holds its sixteen words. *)
Definition step (M : list Z) (st : state) (i : nat) : state :=
  let '(State a b c d) := st in
  let iz := Z.of_nat i in
  let '(f, g) :=
    if iz <? 16 then (Z.lor (Z.land b c) (Z.land (not32 b) d), iz)
    else if iz <? 32 then
      (Z.lor (Z.land d b) (Z.land (not32 d) c), (5 * iz + 1) mod 16)
    else if iz <? 48 then (Z.lxor b (Z.lxor c d), (3 * iz + 5) mod 16)
    else (Z.lxor c (Z.lor b (not32 d)), (7 * iz) mod 16) in
  let f' := add32 (add32 (add32 f a) (nth i K 0)) (nth (Z.to_nat g) M 0) in
  State d (add32 b (rotl32 f' (nth i S 0))) b c.

Fixpoint word_le (bs : list Z) (n : nat) : Z :=
  match n, bs with
  | O, _ => 0
  | Datatypes.S n', b :: r => b + 256 * word_le r n'
  | Datatypes.S n', [] => 0
  end.

Fixpoint words (bs : list Z) (n : nat) : list Z :=
  match n with
  | O => []
  | Datatypes.S n' => word_le bs 4 :: words (skipn 4 bs) n'
  end.

Definition block (st : state) (bs : list Z) : state :=
  let M := words bs 16 in
  let '(State a b c d) := fold_left (step M) (seq 0 64) st in
  State (add32 (sA st) a) (add32 (sB st) b) (add32 (sC st) c) (add32 (sD st) d).

Fixpoint blocks (n : nat) (st : state) (bs : list Z) : state :=
  match n with
  | O => st
  | Datatypes.S n' => blocks n' (block st (firstn 64 bs)) (skipn 64 bs)
  end.

Fixpoint bytes_le (n : nat) (x : Z) : list Z :=
  match n with
  | O => []
  | Datatypes.S n' => x mod 256 :: bytes_le n' (x / 256)
  end.

Definition pad (msg : list Z) : list Z :=
  let len := Z.of_nat (length msg) in
  let zeros := Z.to_nat ((55 - len) mod 64) in
  msg ++ 128 :: repeat 0 zeros ++ bytes_le 8 ((8 * len) mod 2 ^ 64).

Definition digest (msg : list Z) : state :=
  let p := pad msg in
  blocks (length p / 64)%nat init p.

Fixpoint hex_bytes (bs : list Z) : string :=
  match bs with
  | [] => EmptyString
  | b :: r => PyStr.hex_byte b +:+ hex_bytes r
  end.

Definition hex_word (w : Z) : string := hex_bytes (bytes_le 4 w).

Definition hexdigest (msg : list Z) : string :=
  let '(State a b c d) := digest msg in
  hex_word a +:+ hex_word b +:+ hex_word c +:+ hex_word d.

End MD5.

(* ===================================================================== *)
(** ** Python values *)
(* ===================================================================== *)

Record datetime := Datetime {
  year : Z; month : Z; day : Z;
  hour : Z; minute : Z; second : Z; microsecond : Z
}.

(** The ranges [datetime] enforces on construction. *)
Definition datetime_ok (t : datetime) : Prop :=
  1 <= year t <= 9999 /\ 1 <= month t <= 12 /\ 1 <= day t <= 31 /\
  0 <= hour t < 24 /\ 0 <= minute t < 60 /\ 0 <= second t < 60 /\
  0 <= microsecond t < 1000000.

(** [t.strftime("%Y%m%d%H%M%S")], with the four-digit year of the
    documented format. *)
Definition strftime_compact (t : datetime) : string :=
  PyStr.pad4 (year t) +:+ PyStr.pad2 (month t) +:+ PyStr.pad2 (day t) +:+
  PyStr.pad2 (hour t) +:+ PyStr.pad2 (minute t) +:+ PyStr.pad2 (second t).

(** [str(t)]: ISO format with a space, microseconds only when non-zero. *)
Definition datetime_str (t : datetime) : string :=
  PyStr.pad4 (year t) +:+ "-" +:+ PyStr.pad2 (month t) +:+ "-" +:+
  PyStr.pad2 (day t) +:+ " " +:+ PyStr.pad2 (hour t) +:+ ":" +:+
  PyStr.pad2 (minute t) +:+ ":" +:+ PyStr.pad2 (second t) +:+
  (if microsecond t =? 0 then EmptyString
   else "." +:+ PyStr.pad6 (microsecond t)).

(** Values held by document attributes. *)
Inductive pyval :=
| PNone
| PBool (b : bool)
| PInt (n : Z)
| PStr (s : string)
| PDatetime (t : datetime).

(** [bool(v)] *)
Definition truthy (v : pyval) : bool :=
  match v with
  | PNone => false
  | PBool b => b
  | PInt n => negb (n =? 0)
  | PStr s => negb (PyStr.is_empty s)
  | PDatetime _ => true
  end.

(** [str(v)] *)
Definition py_str (v : pyval) : string :=
  match v with
  | PNone => "None"
  | PBool true => "True"
  | PBool false => "False"
  | PInt n => PyStr.of_int n
  | PStr s => s
  | PDatetime t => datetime_str t
  end.

(** Values decoded from JSON; [JNull] is Python's [None]. *)
Inductive json :=
| JNull
| JBool (b : bool)
| JNum (n : Z)
| JStr (s : string)
| JArr (items : list json)
| JObj (members : list (string * json)).

Definition json_truthy (j : json) : bool :=
  match j with
  | JNull => false
  | JBool b => b
  | JNum n => negb (n =? 0)
  | JStr s => negb (PyStr.is_empty s)
  | JArr l => match l with [] => false | _ => true end
  | JObj d => match d with [] => false | _ => true end
  end.

(** ** Insertion-ordered dictionaries with string keys *)

Module Dict.

Section Ops.
Context {V : Type}.

Fixpoint get (k : string) (d : list (string * V)) : option V :=
  match d with
  | [] => None
  | (k', v) :: r => if String.eqb k k' then Some v else get k r
  end.

(** [d[k] = v]: an existing key keeps its place. *)
Fixpoint set (k : string) (v : V) (d : list (string * V))
  : list (string * V) :=
  match d with
  | [] => [(k, v)]
  | (k', v') :: r =>
      if String.eqb k k' then (k, v) :: r else (k', v') :: set k v r
  end.

Definition keys (d : list (string * V)) : list string := map fst d.

Definition mem (k : string) (d : list (string * V)) : bool :=
  match get k d with Some _ => true | None => false end.
End Ops.

End Dict.

(** ** json.dumps *)

Module Json.

Definition dquote : string := String (PyStr.chr 34) EmptyString.

Definition hex4 (n : Z) : string :=
  PyStr.hex_byte (n / 256) +:+ PyStr.hex_byte n.

(** The replacement of one character inside a string literal. *)
Definition escape_char (c : ascii) : string :=
  let n := PyStr.code c in
  if n =? 34 then "\" +:+ dquote
  else if n =? 92 then "\\"
  else if n =? 8 then "\b"
  else if n =? 12 then "\f"
  else if n =? 10 then "\n"
  else if n =? 13 then "\r"
  else if n =? 9 then "\t"
  else if (32 <=? n) && (n <=? 126) then String c EmptyString
  else "\u" +:+ hex4 n.

Fixpoint escape (s : string) : string :=
  match s with
  | EmptyString => EmptyString
  | String c r => escape_char c +:+ escape r
  end.

Definition quote (s : string) : string := dquote +:+ escape s +:+ dquote.

Fixpoint dumps (j : json) : string :=
  match j with
  | JNull => "null"
  | JBool true => "true"
  | JBool false => "false"
  | JNum n => PyStr.of_int n
  | JStr s => quote s
  | JArr l =>
      "[" +:+
      (fix items (l : list json) : string :=
         match l with
         | [] => EmptyString
         | x :: r =>
             dumps x +:+
             match r with [] => EmptyString | _ => ", " +:+ items r end
         end) l +:+ "]"
  | JObj d =>
      "{" +:+
      (fix members (d : list (string * json)) : string :=
         match d with
         | [] => EmptyString
         | (k, v) :: r =>
             quote k +:+ ": " +:+ dumps v +:+
             match r with [] => EmptyString | _ => ", " +:+ members r end
         end) d +:+ "}"
  end.

End Json.

(* ===================================================================== *)
(** ** The host framework *)
(* ===================================================================== *)

(** A document: its identity, its data attributes, and the change-tracking
    list [_changed] when the attribute is present. *)
Record Document := {
  doctype : string;
  name : string;
  attrs : list (string * pyval);
  changed : option (list string)
}.

Definition py_getattr (doc : Document) (f : string) : option pyval :=
  if String.eqb f "doctype" then Some (PStr (doctype doc))
  else if String.eqb f "name" then Some (PStr (name doc))
  else Dict.get f (attrs doc).

Definition py_hasattr (doc : Document) (f : string) : bool :=
  match py_getattr doc f with Some _ => true | None => false end.

Record FieldMapping := { field_name : string; translate : bool }.

Record TranslationMap := {
  doctype_name : string;
  is_active : bool;
  field_mappings : list FieldMapping
}.

Record Settings := {
  api_key : option string;
  enable_auto_translation : bool;
  auto_translate_on_update : bool;
  default_source_language : option string;
  default_target_languages : option string
}.

(** A row of the Translation Store table. *)
Record Row := {
  parent_doctype : string;
  parent_name : string;
  version_id : string;
  language : string;
  translated_content : string;
  translation_status : string;
  edit_mode : bool;
  last_translated : option datetime
}.

Record Job := {
  job_method : string;
  job_doctype : string;
  job_docname : string;
  job_queue : string;
  job_timeout : Z
}.

Record Request := {
  url : string;
  data_text : string;
  data_source_lang : string;
  data_target_lang : string;
  header_authorization : string;
  header_content_type : string;
  timeout : Z
}.

(** A provider response; [json_body] is what [response.json()] decodes,
    [None] when decoding raises. *)
Record Response := {
  status_code : Z;
  response_text : string;
  json_body : option json
}.

Inductive exn_class :=
| RequestException | TypeError | KeyError | IndexError | AttributeError
| JSONDecodeError | DoesNotExistError | OtherError.

Record exn := Exn { exn_cls : exn_class; exn_msg : string }.

Inductive HttpOutcome :=
| HttpRaise (e : exn)
| HttpReply (r : Response).

(** What the code reads from its surroundings.  [http_post n rq] is the
    outcome of the [n]-th call of [requests.post], [clock n] the [n]-th
    reading of [datetime.now()]. *)
Record Env := {
  site_documents : list Document;
  site_settings : Settings + exn;
  site_maps : list TranslationMap;
  http_post : nat -> Request -> HttpOutcome;
  clock : nat -> datetime
}.

(** What the code writes. *)
Record World := {
  store : list Row;
  error_log : list string;
  queue : list Job;
  requests : list Request;
  clock_reads : nat
}.

Definition set_store (s : list Row) (w : World) : World :=
  {| store := s; error_log := error_log w; queue := queue w;
     requests := requests w; clock_reads := clock_reads w |}.

(** ** Computations: state and exceptions *)

Inductive result (A : Type) :=
| Ok (a : A)
| Raise (e : exn).
Arguments Ok {A} a.
Arguments Raise {A} e.

Definition M (A : Type) : Type := World -> result A * World.

Definition ret {A} (a : A) : M A := fun w => (Ok a, w).
Definition raise {A} (e : exn) : M A := fun w => (Raise e, w).

Definition bind {A B} (m : M A) (k : A -> M B) : M B :=
  fun w => match m w with
           | (Ok a, w') => k a w'
           | (Raise e, w') => (Raise e, w')
           end.

(** [try: m except Exception as e: h e] *)
Definition try_except {A} (m : M A) (h : exn -> M A) : M A :=
  fun w => match m w with
           | (Ok a, w') => (Ok a, w')
           | (Raise e, w') => h e w'
           end.

Declare Scope py_scope.
Delimit Scope py_scope with py.
Notation "x <- m ;; k" := (bind m (fun x => k))
  (at level 100, m at next level, right associativity, only parsing) : py_scope.
Notation "m ;; k" := (bind m (fun _ => k))
  (at level 100, right associativity, only parsing) : py_scope.
Local Open Scope py_scope.

Fixpoint for_each {A} (l : list A) (body : A -> M unit) : M unit :=
  match l with
  | [] => ret tt
  | x :: r => body x ;; for_each r body
  end.

Definition exec {A} (m : M A) (w : World) : World := snd (m w).
Definition eval {A} (m : M A) (w : World) : result A := fst (m w).

(** ** Host primitives *)

(** [frappe.log_error(message, "Versioned Translator")] *)
Definition log_error (msg : string) : M unit :=
  fun w => (Ok tt,
            {| store := store w; error_log := error_log w ++ [msg];
               queue := queue w; requests := requests w;
               clock_reads := clock_reads w |}).

Definition frappe_enqueue (j : Job) : M unit :=
  fun w => (Ok tt,
            {| store := store w; error_log := error_log w;
               queue := queue w ++ [j]; requests := requests w;
               clock_reads := clock_reads w |}).

Definition does_not_exist (what : string) : exn :=
  Exn DoesNotExistError (what +:+ " not found").

(** The composite identity of a store row. *)
Definition row_has_key (dt dn vid lang : string) (r : Row) : Prop :=
  parent_doctype r = dt /\ parent_name r = dn /\
  version_id r = vid /\ language r = lang.

Global Instance row_has_key_dec dt dn vid lang r :
  Decision (row_has_key dt dn vid lang r).
Proof. unfold row_has_key. apply _. Defined.

Definition map_is_for (dt : string) (m : TranslationMap) : Prop :=
  doctype_name m = dt /\ is_active m = true.

Global Instance map_is_for_dec dt m : Decision (map_is_for dt m).
Proof. unfold map_is_for. apply _. Defined.

Definition doc_is (dt dn : string) (d : Document) : Prop :=
  doctype d = dt /\ name d = dn.

Global Instance doc_is_dec dt dn d : Decision (doc_is dt dn d).
Proof. unfold doc_is. apply _. Defined.

Section Host.
Variable E : Env.

(** [datetime.now()] *)
Definition datetime_now : M datetime :=
  fun w => (Ok (clock E (clock_reads w)),
            {| store := store w; error_log := error_log w;
               queue := queue w; requests := requests w;
               clock_reads := Datatypes.S (clock_reads w) |}).

(** [requests.post(api_url, data=..., headers=..., timeout=30)] *)
Definition requests_post (rq : Request) : M Response :=
  fun w =>
    let w' := {| store := store w; error_log := error_log w;
                 queue := queue w; requests := requests w ++ [rq];
                 clock_reads := clock_reads w |} in
    match http_post E (length (requests w)) rq with
    | HttpRaise e => (Raise e, w')
    | HttpReply r => (Ok r, w')
    end.

(** [frappe.get_doc(doctype, docname)] *)
Definition frappe_get_doc (dt dn : string) : M Document :=
  match list_find (doc_is dt dn) (site_documents E) with
  | Some (_, d) => ret d
  | None => raise (does_not_exist (dt +:+ " " +:+ dn))
  end.

(** [frappe.db.get_value("Translation Map",
      {"doctype_name": dt, "is_active": 1}, "name")] *)
Definition db_get_value_map (dt : string) : M (option nat) :=
  ret (fst <$> list_find (map_is_for dt) (site_maps E)).

(** [frappe.get_doc("Translation Map", name, ignore_permissions=True)] *)
Definition frappe_get_map (nm : nat) : M TranslationMap :=
  match site_maps E !! nm with
  | Some m => ret m
  | None => raise (does_not_exist "Translation Map")
  end.
End Host.

(** [frappe.db.get_value("Translation Store", {...}, "name")] *)
Definition db_get_value_store (dt dn vid lang : string) : M (option nat) :=
  fun w => (Ok (fst <$> list_find (row_has_key dt dn vid lang) (store w)), w).

(** [frappe.get_doc("Translation Store", name)] *)
Definition frappe_get_store_doc (nm : nat) : M Row :=
  fun w => match store w !! nm with
           | Some r => (Ok r, w)
           | None => (Raise (does_not_exist "Translation Store"), w)
           end.

(** [store_doc.save(ignore_permissions=True)] on the row named [nm]. *)
Definition store_doc_save (nm : nat) (r : Row) : M unit :=
  fun w => (Ok tt, set_store (<[nm := r]> (store w)) w).

(** [store_doc.insert(ignore_permissions=True)] *)
Definition store_doc_insert (r : Row) : M unit :=
  fun w => (Ok tt, set_store (store w ++ [r]) w).

(** [frappe.db.commit()] and [frappe.db.rollback()]: [store] is the
    committed table and every write above is a single step, so neither
    changes it. *)
Definition db_commit : M unit := ret tt.
Definition db_rollback : M unit := ret tt.

(* ===================================================================== *)
(** ** Operations on decoded responses *)
(* ===================================================================== *)

Definition type_name (j : json) : string :=
  match j with
  | JNull => "NoneType" | JBool _ => "bool" | JNum _ => "int"
  | JStr _ => "str" | JArr _ => "list" | JObj _ => "dict"
  end.

Definition is_str (k : string) (j : json) : bool :=
  match j with JStr s => String.eqb s k | _ => false end.

(** [k in j] *)
Definition py_in (k : string) (j : json) : M bool :=
  match j with
  | JObj d => ret (Dict.mem k d)
  | JArr l => ret (existsb (is_str k) l)
  | JStr s => ret (PyStr.contains k s)
  | _ => raise (Exn TypeError
                  ("argument of type '" +:+ type_name j +:+ "' is not iterable"))
  end.

(** [j[k]] with a string subscript *)
Definition py_getitem (j : json) (k : string) : M json :=
  match j with
  | JObj d => match Dict.get k d with
              | Some v => ret v
              | None => raise (Exn KeyError ("'" +:+ k +:+ "'"))
              end
  | JArr _ => raise (Exn TypeError
                       "list indices must be integers or slices, not str")
  | JStr _ => raise (Exn TypeError "string indices must be integers, not 'str'")
  | _ => raise (Exn TypeError
                  ("'" +:+ type_name j +:+ "' object is not subscriptable"))
  end.

(** [len(j)] *)
Definition py_len (j : json) : M Z :=
  match j with
  | JObj d => ret (Z.of_nat (length d))
  | JArr l => ret (Z.of_nat (length l))
  | JStr s => ret (Z.of_nat (String.length s))
  | _ => raise (Exn TypeError
                  ("object of type '" +:+ type_name j +:+ "' has no len()"))
  end.

(** [j[0]] *)
Definition py_first (j : json) : M json :=
  match j with
  | JArr (x :: _) => ret x
  | JArr [] => raise (Exn IndexError "list index out of range")
  | JStr (String c _) => ret (JStr (String c EmptyString))
  | JStr EmptyString => raise (Exn IndexError "string index out of range")
  | JObj _ => raise (Exn KeyError "0")
  | _ => raise (Exn TypeError
                  ("'" +:+ type_name j +:+ "' object is not subscriptable"))
  end.

(** [j.get(k)] *)
Definition py_get (j : json) (k : string) : M json :=
  match j with
  | JObj d => ret (default JNull (Dict.get k d))
  | _ => raise (Exn AttributeError
                  ("'" +:+ type_name j +:+ "' object has no attribute 'get'"))
  end.

(** [response.json()]: what it raises on a body that is no JSON is
    [requests.exceptions.JSONDecodeError], a [RequestException]. *)
Definition response_json (r : Response) : M json :=
  match json_body r with
  | Some j => ret j
  | None => raise (Exn RequestException
                     "Expecting value: line 1 column 1 (char 0)")
  end.

(* ===================================================================== *)
(** ** logic.py *)
(* ===================================================================== *)

Definition api_url : string := "https://api-free.deepl.com/v2/translate".

Section Logic.
Variable E : Env.

(** *** translate_text *)

Definition translate_text_request (api_key text source_lang target_lang : string)
  : Request :=
  {| url := api_url;
     data_text := text;
     data_source_lang := PyStr.upper source_lang;
     data_target_lang := PyStr.upper target_lang;
     header_authorization := "DeepL-Auth-Key " +:+ api_key;
     header_content_type := "application/x-www-form-urlencoded";
     timeout := 30 |}.

(** The [try] block; [JNull] stands for reaching [return None]. *)
Definition translate_text_try (api_key text source_lang target_lang : string)
  : M json :=
  response <- requests_post E
    (translate_text_request api_key text source_lang target_lang) ;;
  if status_code response =? 200 then
    result <- response_json response ;;
    has <- py_in "translations" result ;;
    if (has : bool) then
      translations <- py_getitem result "translations" ;;
      n <- py_len translations ;;
      if n >? 0 then
        translations <- py_getitem result "translations" ;;
        first <- py_first translations ;;
        py_get first "text"
      else ret JNull
    else ret JNull
  else
    log_error ("DeepL API Error: " +:+ PyStr.of_int (status_code response)
               +:+ " - " +:+ response_text response) ;;
    ret JNull.

Definition translate_text_except (e : exn) : M json :=
  match exn_cls e with
  | RequestException =>
      log_error ("DeepL API Request Error: " +:+ exn_msg e)
  | _ => log_error ("Error in translate_text: " +:+ exn_msg e)
  end ;;
  ret JNull.

Definition translate_text (api_key text source_lang target_lang : string)
  : M json :=
  try_except (translate_text_try api_key text source_lang target_lang)
             translate_text_except.

(** *** get_version_id *)

Definition modified_str (v : pyval) : string :=
  match v with
  | PDatetime t => strftime_compact t
  | _ => py_str v
  end.

Definition version_string (doc : Document) (v : pyval) : string :=
  doctype doc +:+ "_" +:+ name doc +:+ "_" +:+ modified_str v.

Definition version_hash (doc : Document) (v : pyval) : string :=
  PyStr.take 12 (MD5.hexdigest (PyStr.encode (version_string doc v))).

Definition get_version_id (doc : Document) : M string :=
  match py_getattr doc "modified" with
  | Some v =>
      if truthy v then ret (name doc +:+ "_" +:+ version_hash doc v)
      else
        now <- datetime_now E ;;
        ret (name doc +:+ "_" +:+ strftime_compact now)
  | None =>
      now <- datetime_now E ;;
      ret (name doc +:+ "_" +:+ strftime_compact now)
  end.

(** *** save_translation_to_store *)

Definition save_translation_to_store_try
    (dt dn vid lang : string) (content : list (string * json)) : M unit :=
  existing <- db_get_value_store dt dn vid lang ;;
  match existing with
  | Some nm =>
      store_doc <- frappe_get_store_doc nm ;;
      now <- datetime_now E ;;
      store_doc_save nm
        {| parent_doctype := parent_doctype store_doc;
           parent_name := parent_name store_doc;
           version_id := version_id store_doc;
           language := language store_doc;
           translated_content := Json.dumps (JObj content);
           translation_status := "Completed";
           edit_mode := edit_mode store_doc;
           last_translated := Some now |}
  | None =>
      now <- datetime_now E ;;
      store_doc_insert
        {| parent_doctype := dt;
           parent_name := dn;
           version_id := vid;
           language := lang;
           translated_content := Json.dumps (JObj content);
           translation_status := "Completed";
           edit_mode := false;
           last_translated := Some now |}
  end ;;
  db_commit.

Definition save_translation_to_store
    (dt dn vid lang : string) (content : list (string * json)) : M unit :=
  try_except (save_translation_to_store_try dt dn vid lang content)
    (fun e =>
       log_error ("Error saving to Translation Store: " +:+ exn_msg e) ;;
       db_rollback).

(** *** update_translation_status *)

Definition update_translation_status_try
    (dt dn vid lang status : string) : M unit :=
  existing <- db_get_value_store dt dn vid lang ;;
  match existing with
  | Some nm =>
      store_doc <- frappe_get_store_doc nm ;;
      store_doc_save nm
        {| parent_doctype := parent_doctype store_doc;
           parent_name := parent_name store_doc;
           version_id := version_id store_doc;
           language := language store_doc;
           translated_content := translated_content store_doc;
           translation_status := status;
           edit_mode := edit_mode store_doc;
           last_translated := last_translated store_doc |} ;;
      db_commit
  | None =>
      store_doc_insert
        {| parent_doctype := dt;
           parent_name := dn;
           version_id := vid;
           language := lang;
           translated_content := "{}";
           translation_status := status;
           edit_mode := false;
           last_translated := None |} ;;
      db_commit
  end.

Definition update_translation_status
    (dt dn vid lang status : string) : M unit :=
  try_except (update_translation_status_try dt dn vid lang status)
    (fun e =>
       log_error ("Error updating translation status: " +:+ exn_msg e) ;;
       db_rollback).

(** *** get_translation_settings *)

Definition get_translation_settings : M (option Settings) :=
  match site_settings E with
  | inl s => ret (Some s)
  | inr e =>
      log_error ("Error getting Translation Settings: " +:+ exn_msg e) ;;
      ret None
  end.

(** [s or d] on an optional string *)
Definition str_or (s : option string) (d : string) : string :=
  match s with
  | Some x => if PyStr.is_empty x then d else x
  | None => d
  end.

(** *** on_doc_update *)

(** The loop over the field mappings, with its [break]. *)
Fixpoint relevant_fields_changed
    (fms : list FieldMapping) (changed_fields : list string) : bool :=
  match fms with
  | [] => false
  | fm :: r =>
      if translate fm && bool_decide (field_name fm ∈ changed_fields)
      then true
      else relevant_fields_changed r changed_fields
  end.

Definition translation_job (doc : Document) : Job :=
  {| job_method := "versioned_translator.logic.translate_to_all_languages";
     job_doctype := doctype doc;
     job_docname := name doc;
     job_queue := "long";
     job_timeout := 600 |}.

Definition on_doc_update_try (doc : Document) : M unit :=
  settings <- get_translation_settings ;;
  match settings with
  | None => ret tt
  | Some st =>
      if negb (enable_auto_translation st)
         || negb (auto_translate_on_update st) then ret tt
      else
        translation_map_name <- db_get_value_map E (doctype doc) ;;
        match translation_map_name with
        | None => ret tt
        | Some nm =>
            translation_map <- frappe_get_map E nm ;;
            match field_mappings translation_map with
            | [] => ret tt
            | fms =>
                let changed_fields := default [] (changed doc) in
                if relevant_fields_changed fms changed_fields
                then frappe_enqueue (translation_job doc)
                else ret tt
            end
        end
  end.

Definition on_doc_update (doc : Document) : M unit :=
  try_except (on_doc_update_try doc)
    (fun e =>
       match exn_cls e with
       | DoesNotExistError => ret tt
       | _ => log_error ("Error in on_doc_update for " +:+ doctype doc +:+ " "
                         +:+ name doc +:+ ": " +:+ exn_msg e)
       end).

(** *** translate_to_all_languages *)

(** [[lang.strip().upper() for lang in s.split(",") if lang.strip()]] *)
Definition target_languages_of (s : string) : list string :=
  map (fun lang => PyStr.upper (PyStr.strip lang))
      (filter (fun lang => negb (PyStr.is_empty (PyStr.strip lang)) = true)
              (PyStr.split "," s)).

(** One turn of the loop that collects the fields to translate. *)
Definition collect_field (doc : Document)
    (acc : list (string * string)) (fm : FieldMapping)
  : list (string * string) :=
  if translate fm && py_hasattr doc (field_name fm) then
    match py_getattr doc (field_name fm) with
    | Some field_value =>
        if truthy field_value
        then Dict.set (field_name fm) (py_str field_value) acc
        else acc
    | None => acc
    end
  else acc.

Definition fields_to_translate (doc : Document) (fms : list FieldMapping)
  : list (string * string) :=
  fold_left (collect_field doc) fms [].

(** The [except] block of one target language. *)
Definition translate_language_except
    (dt dn vid target_lang : string) (e : exn) : M unit :=
  log_error ("Error translating " +:+ dt +:+ " " +:+ dn +:+ " to "
             +:+ target_lang +:+ ": " +:+ exn_msg e) ;;
  update_translation_status dt dn vid target_lang "Failed".

(** The job reaches the translation client through the module-level name
    [translate_text].  Its loops are written here over [client], the
    function that name is bound to, so that they can also be run against a
    stand-in for it; the functions of the module are the instances at
    [translate_text] below. *)
Section Job.
Variable client : string -> string -> string -> string -> M json.

(** The loop over the fields for one target language. *)
Fixpoint translate_fields_with (api_key source_language target_lang : string)
    (fields : list (string * string)) (acc : list (string * json))
  : M (list (string * json)) :=
  match fields with
  | [] => ret acc
  | (field_name, field_value) :: r =>
      translated_text <-
        client api_key field_value source_language target_lang ;;
      translate_fields_with api_key source_language target_lang r
        (if json_truthy translated_text
         then Dict.set field_name translated_text acc
         else acc)
  end.

(** The [try] block of one target language. *)
Definition translate_language_try_with
    (dt dn api_key source_language vid : string)
    (fields : list (string * string)) (target_lang : string) : M unit :=
  translated_fields <-
    translate_fields_with api_key source_language target_lang fields [] ;;
  match translated_fields with
  | [] => ret tt
  | _ => save_translation_to_store dt dn vid (PyStr.lower target_lang)
           translated_fields
  end.

(** One turn of the loop over the target languages. *)
Definition translate_language_with
    (dt dn api_key source_language vid : string)
    (fields : list (string * string)) (target_lang : string) : M unit :=
  try_except
    (translate_language_try_with dt dn api_key source_language vid fields
       target_lang)
    (translate_language_except dt dn vid target_lang).

Definition translate_to_all_languages_try_with (dt dn : string) : M unit :=
  doc <- frappe_get_doc E dt dn ;;
  settings <- get_translation_settings ;;
  match settings with
  | None =>
      log_error "DeepL API Key not configured in Translation Settings"
  | Some st =>
      match api_key st with
      | None =>
          log_error "DeepL API Key not configured in Translation Settings"
      | Some EmptyString =>
          log_error "DeepL API Key not configured in Translation Settings"
      | Some key =>
          let source_language := str_or (default_source_language st) "de" in
          let target_languages_str :=
            str_or (default_target_languages st) EmptyString in
          if PyStr.is_empty target_languages_str then
            log_error "No target languages configured in Translation Settings"
          else
            let target_languages := target_languages_of target_languages_str in
            translation_map_name <- db_get_value_map E dt ;;
            match translation_map_name with
            | None =>
                log_error ("No active Translation Map found for " +:+ dt)
            | Some nm =>
                translation_map <- frappe_get_map E nm ;;
                match field_mappings translation_map with
                | [] =>
                    log_error ("No active Translation Map found for " +:+ dt)
                | fms =>
                    match fields_to_translate doc fms with
                    | [] =>
                        log_error ("No fields to translate for " +:+ dt
                                   +:+ " " +:+ dn)
                    | fields =>
                        vid <- get_version_id doc ;;
                        for_each target_languages
                          (translate_language_with dt dn key source_language
                             vid fields)
                    end
                end
            end
      end
  end.

Definition translate_to_all_languages_with (dt dn : string) : M unit :=
  try_except (translate_to_all_languages_try_with dt dn)
    (fun e =>
       log_error ("Error in translate_to_all_languages for " +:+ dt +:+ " "
                  +:+ dn +:+ ": " +:+ exn_msg e)).

End Job.

(** The functions of the module: the loops above with [translate_text]
    itself as the client. *)
Definition translate_fields := translate_fields_with translate_text.
Definition translate_language_try := translate_language_try_with translate_text.
Definition translate_language := translate_language_with translate_text.
Definition translate_to_all_languages_try :=
  translate_to_all_languages_try_with translate_text.
Definition translate_to_all_languages :=
  translate_to_all_languages_with translate_text.

End Logic.

(* ===================================================================== *)
(** ** Vocabulary of the statements *)
(* ===================================================================== *)

(** What the translation client owes its caller for each outcome of the
    provider call, in the words of the specification: the first
    translation's text for a 200 response carrying a non-empty
    [translations] array of objects, the sentinel [None] otherwise. *)
Definition expected_translation (out : HttpOutcome) : json :=
  match out with
  | HttpRaise _ => JNull
  | HttpReply r =>
      if status_code r =? 200 then
        match json_body r with
        | Some (JObj d) =>
            match Dict.get "translations" d with
            | Some (JArr (JObj first :: _)) =>
                default JNull (Dict.get "text" first)
            | _ => JNull
            end
        | _ => JNull
        end
      else JNull
  end.

(** The row written by [save_translation_to_store] over an existing row. *)
Definition completed (r : Row) (content : list (string * json))
    (now : datetime) : Row :=
  {| parent_doctype := parent_doctype r; parent_name := parent_name r;
     version_id := version_id r; language := language r;
     translated_content := Json.dumps (JObj content);
     translation_status := "Completed";
     edit_mode := edit_mode r;
     last_translated := Some now |}.

(** The row it inserts. *)
Definition completed_row (dt dn vid lang : string)
    (content : list (string * json)) (now : datetime) : Row :=
  {| parent_doctype := dt; parent_name := dn; version_id := vid;
     language := lang;
     translated_content := Json.dumps (JObj content);
     translation_status := "Completed";
     edit_mode := false;
     last_translated := Some now |}.

(** A row with only its status replaced. *)
Definition with_status (status : string) (r : Row) : Row :=
  {| parent_doctype := parent_doctype r; parent_name := parent_name r;
     version_id := version_id r; language := language r;
     translated_content := translated_content r;
     translation_status := status;
     edit_mode := edit_mode r;
     last_translated := last_translated r |}.

(** The row inserted by [update_translation_status]. *)
Definition status_row (dt dn vid lang status : string) : Row :=
  {| parent_doctype := dt; parent_name := dn; version_id := vid;
     language := lang;
     translated_content := "{}";
     translation_status := status;
     edit_mode := false;
     last_translated := None |}.

(** A row without its time stamp. *)
Definition forget_time (r : Row) : Row :=
  {| parent_doctype := parent_doctype r; parent_name := parent_name r;
     version_id := version_id r; language := language r;
     translated_content := translated_content r;
     translation_status := translation_status r;
     edit_mode := edit_mode r;
     last_translated := None |}.

(** Two time stamps that agree to the second. *)
Definition same_second (t t' : datetime) : Prop :=
  year t = year t' /\ month t = month t' /\ day t = day t' /\
  hour t = hour t' /\ minute t = minute t' /\ second t = second t'.

(** Two different strings whose MD5 digests begin with the same twelve
    hexadecimal digits. *)
Definition md5_prefix_collision (s s' : string) : Prop :=
  s <> s' /\
  PyStr.take 12 (MD5.hexdigest (PyStr.encode s))
  = PyStr.take 12 (MD5.hexdigest (PyStr.encode s')).

(** The extracted fields in the words of the specification: mapped with
    [translate] on, present on the document, and non-empty once coerced to
    a string. *)
Definition extracted_as_specified (doc : Document) (fms : list FieldMapping)
    (f : string) : Prop :=
  exists fm v,
    fm ∈ fms /\ field_name fm = f /\ translate fm = true /\
    py_getattr doc f = Some v /\ py_str v <> EmptyString.

(** When one field mapping contributes to the collection. *)
Definition contributes (doc : Document) (fm : FieldMapping) : Prop :=
  translate fm = true /\
  exists v, py_getattr doc (field_name fm) = Some v /\ truthy v = true.

(** Every collected value is the string form of the attribute. *)
Definition values_from (doc : Document) (acc : list (string * string)) : Prop :=
  forall f s, Dict.get f acc = Some s ->
    exists v, py_getattr doc f = Some v /\ truthy v = true /\ s = py_str v.

(** The map that the lookup by doctype returns. *)
Definition active_map (E : Env) (dt : string) : option TranslationMap :=
  snd <$> list_find (map_is_for dt) (site_maps E).

(** The conditions under which [on_doc_update] is to enqueue the job. *)
Definition update_gate (E : Env) (doc : Document) : Prop :=
  exists st m,
    site_settings E = inl st /\
    enable_auto_translation st = true /\
    auto_translate_on_update st = true /\
    active_map E (doctype doc) = Some m /\
    (exists fm, fm ∈ field_mappings m /\ translate fm = true) /\
    (exists fm, fm ∈ field_mappings m /\ translate fm = true /\
                field_name fm ∈ default [] (changed doc)).

(** A step that sends the requests [rqs], may log, and does nothing else. *)
Definition only_sends (rqs : list Request) (w w' : World) : Prop :=
  store w' = store w /\ queue w' = queue w /\
  clock_reads w' = clock_reads w /\ requests w' = requests w ++ rqs.

(** Every request sent between [w] and [w'] satisfies [P]. *)
Definition sends_only (P : Request -> Prop) (w w' : World) : Prop :=
  exists new, requests w' = requests w ++ new /\ Forall P new.

(** Every row of [w'] is the row [w] has at that place, or satisfies [Q]. *)
Definition writes_only (Q : Row -> Prop) (w w' : World) : Prop :=
  forall i r', store w' !! i = Some r' -> store w !! i = Some r' \/ Q r'.

(** The requests of one language, in order. *)
Definition requests_for (api_key source_language target_lang : string)
    (fields : list (string * string)) : list Request :=
  (fun fv => translate_text_request api_key fv.2 source_language target_lang)
    <$> fields.

(** What a run of the job may do for the target languages [langs]: send
    requests for their upper-cased codes, and write Completed rows keyed by
    their lower-cased codes. *)
Definition job_effect (langs : list string) (w w' : World) : Prop :=
  sends_only (fun rq => exists tl, tl ∈ langs /\
                                   data_target_lang rq = PyStr.upper tl) w w'
  /\
  writes_only (fun r => translation_status r = "Completed"%string /\
                        exists tl, tl ∈ langs /\
                                   language r = PyStr.lower tl) w w'.

(** The target languages of a site. *)
Definition configured_languages (E : Env) : list string :=
  match site_settings E with
  | inl st => target_languages_of (str_or (default_target_languages st) EmptyString)
  | inr _ => []
  end.

Definition rows_with_key (dt dn vid lang : string) (s : list Row) : list Row :=
  filter (row_has_key dt dn vid lang) s.

(** The table holds a row with the given identity and status. *)
Definition has_row (dt dn vid lang status : string) (s : list Row) : Prop :=
  exists i r,
    s !! i = Some r /\ row_has_key dt dn vid lang r /\
    translation_status r = status.

(** The table after a writer: the first row with the identity is replaced
    by [upd] of it, and [new] is appended when there is none. *)
Definition upsert (dt dn vid lang : string) (upd : Row -> Row) (new : Row)
    (s : list Row) : list Row :=
  match list_find (row_has_key dt dn vid lang) s with
  | Some (i, r) => <[i := upd r]> s
  | None => s ++ [new]
  end.

(** The configured target-language codes: the pieces of the
    comma-separated setting, stripped, without the blank ones. *)
Definition configured_codes (st : Settings) : list string :=
  PyStr.strip <$>
    filter (fun lang => negb (PyStr.is_empty (PyStr.strip lang)) = true)
      (PyStr.split "," (str_or (default_target_languages st) EmptyString)).

(** [m] run [n] times in a row. *)
Fixpoint repeat_m (n : nat) (m : M unit) : M unit :=
  match n with
  | O => ret tt
  | Datatypes.S k => m ;; repeat_m k m
  end.

(** ** The end-to-end scenario of the specification *)

Module Scenario.

Definition settings : Settings :=
  {| api_key := Some "K"%string;
     enable_auto_translation := true;
     auto_translate_on_update := true;
     default_source_language := Some "de"%string;
     default_target_languages := Some "EN,FR"%string |}.

Definition modified_at : datetime := Datetime 2024 1 1 10 0 0 0.

Definition article : Document :=
  {| doctype := "Article"; name := "A1";
     attrs := [("title", PStr "Hallo"); ("modified", PDatetime modified_at)]%string;
     changed := Some ["title"%string] |}.

(** The same document saved half a second later. *)
Definition article_resaved : Document :=
  {| doctype := "Article"; name := "A1";
     attrs := [("title", PStr "Hallo");
               ("modified", PDatetime (Datetime 2024 1 1 10 0 0 500000))]%string;
     changed := Some ["title"%string] |}.

(** The same document with [modified] at [t]. *)
Definition article_at (t : datetime) : Document :=
  {| doctype := "Article"; name := "A1";
     attrs := [("title", PStr "Hallo"); ("modified", PDatetime t)]%string;
     changed := Some ["title"%string] |}.

Definition next_second : datetime := Datetime 2024 1 1 10 0 1 0.

(** Two saves of the document, five months apart. *)
Definition in_april : datetime := Datetime 2025 4 8 7 45 12 0.
Definition in_september : datetime := Datetime 2025 9 14 10 52 50 0.

(** A document that carries no [modified] attribute. *)
Definition draft : Document :=
  {| doctype := "Article"; name := "A1";
     attrs := [("title"%string, PStr "Hallo")];
     changed := None |}.

(** An article whose subtitle was never filled in. *)
Definition untitled : Document :=
  {| doctype := "Article"; name := "A2";
     attrs := [("title", PStr "Hallo"); ("subtitle", PNone);
               ("internal_id", PStr "X-17")]%string;
     changed := None |}.

Definition title_and_subtitle : list FieldMapping :=
  [ {| field_name := "title"; translate := true |};
    {| field_name := "subtitle"; translate := true |};
    {| field_name := "internal_id"; translate := false |} ].

Definition article_map : TranslationMap :=
  {| doctype_name := "Article"; is_active := true;
     field_mappings := [ {| field_name := "title"; translate := true |} ] |}.

Definition hello : Response :=
  {| status_code := 200;
     response_text := "{...}";
     json_body :=
       Some (JObj [("translations"%string,
                    JArr [JObj [("text"%string, JStr "Hello")]])]) |}.

(** ["Hello"] for EN, a transport failure for anything else. *)
Definition provider (n : nat) (rq : Request) : HttpOutcome :=
  if String.eqb (data_target_lang rq) "EN" then HttpReply hello
  else HttpRaise (Exn RequestException "Connection timed out").

Definition later : datetime := Datetime 2024 1 2 8 30 0 0.

Definition env : Env :=
  {| site_documents := [article];
     site_settings := inl settings;
     site_maps := [article_map];
     http_post := provider;
     clock := fun n => Datetime 2024 1 2 8 30 (Z.of_nat n) 0 |}.

(** A stand-in for [translate_text] that lets the failure for FR through
    to its caller, where [translate_text] turns it into [None]. *)
Definition fr_fails (target_lang : string) : bool := String.eqb target_lang "FR".

Definition client (api_key text source_lang target_lang : string) : M json :=
  if fr_fails target_lang
  then raise (Exn RequestException "Connection timed out")
  else translate_text env api_key text source_lang target_lang.

(** The same site with translate-on-update switched off. *)
Definition quiet_settings : Settings :=
  {| api_key := Some "K"%string;
     enable_auto_translation := true;
     auto_translate_on_update := false;
     default_source_language := Some "de"%string;
     default_target_languages := Some "EN,FR"%string |}.

Definition quiet_env : Env :=
  {| site_documents := [article];
     site_settings := inl quiet_settings;
     site_maps := [article_map];
     http_post := provider;
     clock := fun n => Datetime 2024 1 2 8 30 (Z.of_nat n) 0 |}.

Definition empty_world : World :=
  {| store := []; error_log := []; queue := []; requests := [];
     clock_reads := 0 |}.

Definition version : string := "A1_8f23dc131b69".

Definition title_hello : list (string * json) := [("title"%string, JStr "Hello")].

Definition en_row : Row :=
  completed_row "Article" "A1" version "en" title_hello
    (Datetime 2024 1 2 8 30 0 0).

End Scenario.

(* ===================================================================== *)
(** ** logic.py: the remaining functions *)
(* ===================================================================== *)

(** [doc.f = v] for a data attribute [f] other than [doctype] and [name]. *)
Definition py_setattr (doc : Document) (f : string) (v : pyval) : Document :=
  {| doctype := doctype doc; name := name doc;
     attrs := Dict.set f v (attrs doc);
     changed := changed doc |}.

Section LoadHook.
Variable E : Env.

(** [frappe.local.lang], the language of the current request. *)
Variable local_lang : option string.

(** *** on_doc_load

    The hook mutates the document it is given; the model returns the
    document as it is after the call. *)

Definition on_doc_load_try (doc : Document) : M Document :=
  translation_map_name <- db_get_value_map E (doctype doc) ;;
  match translation_map_name with
  | Some _ =>
      if negb (py_hasattr doc "original_language")
      then ret (py_setattr doc "original_language"
                  (PStr (str_or local_lang "de")))
      else ret doc
  | None => ret doc
  end.

Definition on_doc_load (doc : Document) : M Document :=
  try_except (on_doc_load_try doc)
    (fun e =>
       match exn_cls e with
       | DoesNotExistError => ret doc
       | _ => log_error ("Error in on_doc_load for " +:+ doctype doc +:+ ": "
                         +:+ exn_msg e) ;;
              ret doc
       end).

End LoadHook.

Section Reader.

(** [json.loads]: the decoded value, or the exception it raises. *)
Variable json_loads : string -> json + exn.

(** *** get_translation_for_ui

    [JNull] is the [None] the function returns, explicitly or by reaching
    its end.  A row's [translated_content] is a string here, so of the two
    returns under [isinstance] the decoding one is taken. *)

Definition get_translation_for_ui_try (dt dn vid lang : string) : M json :=
  store_name <- db_get_value_store dt dn vid lang ;;
  match store_name with
  | None => ret JNull
  | Some nm =>
      store_doc <- frappe_get_store_doc nm ;;
      if negb (PyStr.is_empty (translated_content store_doc)) then
        match json_loads (translated_content store_doc) with
        | inl j => ret j
        | inr e => raise e
        end
      else ret JNull
  end.

Definition get_translation_for_ui (dt dn vid lang : string) : M json :=
  try_except (get_translation_for_ui_try dt dn vid lang)
    (fun e =>
       match exn_cls e with
       | DoesNotExistError => ret JNull
       | _ => log_error ("Error in get_translation_for_ui: " +:+ exn_msg e) ;;
              ret JNull
       end).

End Reader.

(** *** get_fields_for_translation *)

(** A field of a DocType's meta, with the attributes the function reads. *)
Record DocField := {
  fieldname : string;
  fieldtype : string;
  label : option string;
  read_only : bool
}.

(** One entry of the returned list. *)
Record FieldInfo := {
  info_field_name : string;
  info_field_label : string;
  info_field_type : string
}.

Definition translatable_types : list string :=
  ["Data"; "Text"; "Small Text"; "Long Text"; "HTML"; "Text Editor"]%string.

Definition system_fields : list string :=
  ["name"; "owner"; "creation"; "modified"; "modified_by"]%string.

Definition field_info (field : DocField) : FieldInfo :=
  {| info_field_name := fieldname field;
     info_field_label := str_or (label field) (fieldname field);
     info_field_type := fieldtype field |}.

(** The loop over [meta.fields], with its two [continue]s. *)
Fixpoint collect_translatable (fields : list DocField) (acc : list FieldInfo)
  : list FieldInfo :=
  match fields with
  | [] => acc
  | field :: rest =>
      if bool_decide (fieldtype field ∈ translatable_types) then
        if bool_decide (fieldname field ∈ system_fields) then
          collect_translatable rest acc
        else if read_only field && String.eqb (fieldtype field) "Data" then
          collect_translatable rest acc
        else collect_translatable rest (acc ++ [field_info field])
      else collect_translatable rest acc
  end.

(** [frappe.throw(msg)]: raises a [ValidationError], an [Exception] whose
    class no handler here tells apart. *)
Definition frappe_throw {A} (msg : string) : M A := raise (Exn OtherError msg).

Section FieldDiscovery.

(** [frappe.get_meta(doctype_name).fields], or the exception of the lookup. *)
Variable get_meta : string -> list DocField + exn.

Definition get_fields_for_translation_try (doctype_name : string)
  : M (list FieldInfo) :=
  (if PyStr.is_empty doctype_name
   then frappe_throw "DocType name is required"
   else ret tt) ;;
  match get_meta doctype_name with
  | inl fields => ret (collect_translatable fields [])
  | inr e => raise e
  end.

Definition get_fields_for_translation (doctype_name : string)
  : M (list FieldInfo) :=
  try_except (get_fields_for_translation_try doctype_name)
    (fun e =>
       log_error ("Error in get_fields_for_translation for " +:+ doctype_name
                  +:+ ": " +:+ exn_msg e) ;;
       frappe_throw ("Error getting fields: " +:+ exn_msg e)).

End FieldDiscovery.

(** ** Vocabulary of the further statements *)

(** The composite identity of a row. *)
Definition key_of (r : Row) : string * string * string * string :=
  (parent_doctype r, parent_name r, version_id r, language r).

(** The data-model invariant: no two rows share an identity. *)
Definition unique_keys (s : list Row) : Prop := NoDup (key_of <$> s).

(** A field that [get_fields_for_translation] lists. *)
Definition listed (field : DocField) : Prop :=
  (fieldtype field ∈ translatable_types) /\
  (fieldname field ∉ system_fields) /\
  ~ (read_only field = true /\ fieldtype field = "Data"%string).

Global Instance listed_dec field : Decision (listed field).
Proof. unfold listed. apply _. Defined.

(** The requests of a whole run, language by language. *)
Definition job_requests (api_key source_language : string)
    (langs : list string) (fields : list (string * string)) : list Request :=
  concat ((fun tl => requests_for api_key source_language tl fields) <$> langs).

(** The worlds [w] and [w'] differ at most in their error logs. *)
Definition only_logs (w w' : World) : Prop :=
  store w' = store w /\ queue w' = queue w /\
  requests w' = requests w /\ clock_reads w' = clock_reads w.

(** What a run of the job for [dt], [dn] under the version id [vid] keeps
    of the table and the queue: nothing is enqueued; the identity and
    [edit_mode] columns only grow, by rows with [edit_mode] off; distinct
    identities stay distinct; and every row that differs from the one that
    was there belongs to [dt], [dn] and [vid]. *)
Definition job_keeps (dt dn vid : string) (w w' : World) : Prop :=
  queue w' = queue w /\
  (exists grown,
     key_of <$> store w' = (key_of <$> store w) ++ grown /\
     edit_mode <$> store w'
     = (edit_mode <$> store w) ++ replicate (length grown) false) /\
  (unique_keys (store w) -> unique_keys (store w')) /\
  (forall i r', store w' !! i = Some r' ->
     store w !! i = Some r' \/
     (parent_doctype r' = dt /\ parent_name r' = dn /\ version_id r' = vid)).

(** The site is set up for translating the document [dt], [dn]: the
    document exists, the settings carry an API key and a target-language
    string, the lookup finds an active map with field mappings, and the
    document has something to translate. *)
Definition job_configured (E : Env) (dt dn : string) (doc : Document)
    (st : Settings) (key : string) (fms : list FieldMapping) : Prop :=
  (exists k, list_find (doc_is dt dn) (site_documents E) = Some (k, doc)) /\
  site_settings E = inl st /\
  api_key st = Some key /\ key <> EmptyString /\
  str_or (default_target_languages st) EmptyString <> EmptyString /\
  (exists m, active_map E dt = Some m /\ field_mappings m = fms) /\
  fms <> [] /\
  fields_to_translate doc fms <> [].

(** A computation that only logs, and logs something. *)
Definition logs_only (w w' : World) : Prop :=
  only_logs w w' /\
  exists msgs, msgs <> [] /\ error_log w' = error_log w ++ msgs.

(** The translations one language collects, read off the provider: the
    field loop makes its [n]-th, [n+1]-th, ... call and keeps the results
    that are truthy. *)
Fixpoint translated_from (E : Env) (api_key source_language target_lang : string)
    (n : nat) (fields : list (string * string)) (acc : list (string * json))
  : list (string * json) :=
  match fields with
  | [] => acc
  | (f, v) :: rest =>
      let t := expected_translation
                 (http_post E n
                    (translate_text_request api_key v source_language
                       target_lang)) in
      translated_from E api_key source_language target_lang (Datatypes.S n) rest
        (if json_truthy t then Dict.set f t acc else acc)
  end.

(** A string that does not begin with white space. *)
Definition no_lead (s : string) : Prop :=
  match s with
  | String c _ => PyStr.is_space c = false
  | EmptyString => True
  end.

(** What the reader makes of the row it finds. *)
Definition read_row (json_loads : string -> json + exn) (r : Row) (w : World)
  : result json * World :=
  if PyStr.is_empty (translated_content r) then (Ok JNull, w)
  else match json_loads (translated_content r) with
       | inl j => (Ok j, w)
       | inr e =>
           match exn_cls e with
           | DoesNotExistError => (Ok JNull, w)
           | _ => (Ok JNull,
                   exec (log_error ("Error in get_translation_for_ui: "
                                    +:+ exn_msg e)) w)
           end
       end.

Module Examples.

(** A decoder that knows the two texts the store holds below. *)
Definition loads (s : string) : json + exn :=
  if String.eqb s (Json.dumps (JObj Scenario.title_hello))
  then inl (JObj Scenario.title_hello)
  else if String.eqb s "{}" then inl (JObj [])
  else inr (Exn JSONDecodeError "Expecting value").

Definition article_fields : list DocField :=
  [ {| fieldname := "name"; fieldtype := "Data"; label := Some "ID"%string;
       read_only := false |};
    {| fieldname := "title"; fieldtype := "Data"; label := Some "Title"%string;
       read_only := false |};
    {| fieldname := "notes"; fieldtype := "Text"; label := None;
       read_only := false |};
    {| fieldname := "internal"; fieldtype := "Data"; label := None;
       read_only := true |};
    {| fieldname := "rating"; fieldtype := "Int"; label := None;
       read_only := false |} ]%string.

Definition meta (dt : string) : list DocField + exn :=
  if String.eqb dt "Article" then inl article_fields
  else inr (Exn DoesNotExistError ("DocType " +:+ dt +:+ " not found")).

End Examples.


(* ===================================================================== *)
(** * Properties *)
(* ===================================================================== *)

(** ** Checks of the library models against Python *)

Example md5_empty :
  MD5.hexdigest (PyStr.encode EmptyString) = "d41d8cd98f00b204e9800998ecf8427e"%string.
Proof. vm_compute. reflexivity. Qed.

Example md5_abc :
  MD5.hexdigest (PyStr.encode "abc") = "900150983cd24fb0d6963f7d28e17f72"%string.
Proof. vm_compute. reflexivity. Qed.

Example md5_two_blocks :
  MD5.hexdigest (PyStr.encode
    "aaaaaaaaaaaaaaaaaaaaaaaaaaaaaaaaaaaaaaaaaaaaaaaaaaaaaaaaaaaaaaaaaaaaaa")
  = "0f5c6c4e740bfcc08c3c26ccb2673d46"%string.
Proof. vm_compute. reflexivity. Qed.

Example split_ex :
  PyStr.split "," "EN, fr ,,"%string = ["EN"; " fr "; EmptyString; EmptyString]%string.
Proof. reflexivity. Qed.

Example strip_ex : PyStr.strip "  fr x  "%string = "fr x"%string.
Proof. reflexivity. Qed.

Example of_int_ex :
  (PyStr.of_int 0, PyStr.of_int (-12), PyStr.of_int 305)
  = ("0", "-12", "305")%string.
Proof. vm_compute. reflexivity. Qed.

Example dumps_ex :
  Json.dumps (JObj [("title", JStr "Hello");
                    ("n", JArr [JNum 1; JNull; JBool true; JObj [("k", JNum (-3))]])])
  = ("{" +:+ Json.quote "title" +:+ ": " +:+ Json.quote "Hello" +:+ ", " +:+
     Json.quote "n" +:+ ": [1, null, true, {" +:+ Json.quote "k" +:+ ": -3}]}")%string.
Proof. vm_compute. reflexivity. Qed.

(** ** The translation client *)

Section Client.
Variable E : Env.

Lemma translate_text_result api_key text source_lang target_lang w :
  eval (translate_text E api_key text source_lang target_lang) w
  = Ok (expected_translation
          (http_post E (length (requests w))
             (translate_text_request api_key text source_lang target_lang))).
Proof.
  unfold eval, translate_text, try_except, translate_text_try, bind,
    requests_post.
  destruct (http_post E _ _) as [e|r]; simpl.
  - unfold translate_text_except, bind. destruct (exn_cls e); reflexivity.
  - destruct (status_code r =? 200); [|reflexivity].
    unfold response_json.
    destruct (json_body r) as [[| | | |l|d]|]; simpl;
      try (unfold translate_text_except; simpl; reflexivity).
    + destruct (PyStr.contains _ _); reflexivity.
    + destruct (existsb _ l); reflexivity.
    + unfold Dict.mem.
      destruct (Dict.get "translations" d) as [[| | |s|[|x l]|[|p d']]|];
        simpl; try reflexivity.
      * destruct s; reflexivity.
      * destruct x; reflexivity.
Qed.
End Client.

(** C8.  [translate_text] never raises: it always returns a value, and
    that value is the first translation's text exactly when the provider
    answered 200 with a [translations] array whose first element is an
    object; after a transport error, a response other than 200, or a 200
    response whose [translations] are missing, empty or malformed, it is
    the sentinel [None]. *)
Theorem C8_translate_text E api_key text source_lang target_lang w :
  let out :=
    http_post E (length (requests w))
      (translate_text_request api_key text source_lang target_lang) in
  let res := eval (translate_text E api_key text source_lang target_lang) w in
  let well_formed (r : Response) (first : list (string * json)) :=
    status_code r = 200 /\
    exists d rest, json_body r = Some (JObj d) /\
                   Dict.get "translations" d = Some (JArr (JObj first :: rest)) in
  res = Ok (expected_translation out)
  /\ (forall e, out = HttpRaise e -> res = Ok JNull)
  /\ (forall r, out = HttpReply r -> status_code r <> 200 -> res = Ok JNull)
  /\ (forall r first, out = HttpReply r -> well_formed r first ->
        res = Ok (default JNull (Dict.get "text" first)))
  /\ (forall r, out = HttpReply r -> (forall first, ~ well_formed r first) ->
        res = Ok JNull)
  /\ (forall v, res = Ok v -> v <> JNull ->
        exists r first, out = HttpReply r /\ well_formed r first /\
                        Dict.get "text" first = Some v).
Proof.
  intros out res well_formed.
  assert (Hres : res = Ok (expected_translation out))
    by apply translate_text_result.
  split; [exact Hres|]. rewrite Hres. clear Hres res. unfold well_formed.
  split; [|split; [|split; [|split]]].
  - intros e ->. reflexivity.
  - intros r -> Hs. simpl. apply Z.eqb_neq in Hs. rewrite Hs. reflexivity.
  - intros r first -> (Hs & d & rest & Hb & Ht). simpl.
    rewrite Hs, Hb, Ht. reflexivity.
  - intros r -> Hbad. simpl.
    destruct (status_code r =? 200) eqn:Hs; [|reflexivity].
    apply Z.eqb_eq in Hs.
    destruct (json_body r) as [[| | | | |d]|]; try reflexivity.
    destruct (Dict.get "translations" d) as [[| | | |[|[| | | | |first] rest]|]|]
      eqn:Ht; try reflexivity.
    exfalso. apply (Hbad first). split; [assumption|]. eauto.
  - intros v [= <-] Hv. destruct out as [e|r]; simpl in *; [congruence|].
    destruct (status_code r =? 200) eqn:Hs; [|congruence].
    apply Z.eqb_eq in Hs.
    destruct (json_body r) as [[| | | | |d]|] eqn:Hb; try congruence.
    destruct (Dict.get "translations" d) as [[| | | |[|[| | | | |first] rest]|]|]
      eqn:Ht; try congruence.
    exists r, first. split; [reflexivity|]. split; [split; eauto|].
    destruct (Dict.get "text" first);
      [reflexivity|exfalso; apply Hv; reflexivity].
Qed.

Lemma C8_witness :
  eval (translate_text Scenario.env "K" "Hallo" "de" "EN") Scenario.empty_world
  = Ok (JStr "Hello")
  /\ eval (translate_text Scenario.env "K" "Hallo" "de" "FR") Scenario.empty_world
     = Ok JNull.
Proof.
  split.
  - apply (proj1 (proj2 (proj2 (proj2
      (C8_translate_text Scenario.env "K" "Hallo" "de" "EN"
         Scenario.empty_world)))) Scenario.hello
      [("text"%string, JStr "Hello")] eq_refl).
    split; [reflexivity|]. eexists _, _. split; reflexivity.
  - apply (proj1 (proj2
      (C8_translate_text Scenario.env "K" "Hallo" "de" "FR"
         Scenario.empty_world))
      (Exn RequestException "Connection timed out") eq_refl).
Defined.

(** ** The store writers, as functions on the world *)

Section Writers.
Variable E : Env.

Lemma save_translation_to_store_run dt dn vid lang content w :
  save_translation_to_store E dt dn vid lang content w =
  (Ok tt,
   {| store :=
        match list_find (row_has_key dt dn vid lang) (store w) with
        | Some (i, r) =>
            <[i := completed r content (clock E (clock_reads w))]> (store w)
        | None =>
            store w ++ [completed_row dt dn vid lang content
                          (clock E (clock_reads w))]
        end;
      error_log := error_log w; queue := queue w;
      requests := requests w;
      clock_reads := Datatypes.S (clock_reads w) |}).
Proof.
  unfold save_translation_to_store, try_except,
    save_translation_to_store_try, bind, db_get_value_store.
  destruct (list_find _ (store w)) as [[i r]|] eqn:Hfind; simpl.
  - apply list_find_Some in Hfind as (Hi & _ & _).
    unfold frappe_get_store_doc. rewrite Hi. reflexivity.
  - reflexivity.
Qed.

Lemma update_translation_status_run dt dn vid lang status w :
  update_translation_status dt dn vid lang status w =
  (Ok tt,
   set_store
     match list_find (row_has_key dt dn vid lang) (store w) with
     | Some (i, r) => <[i := with_status status r]> (store w)
     | None => store w ++ [status_row dt dn vid lang status]
     end w).
Proof.
  unfold update_translation_status, try_except,
    update_translation_status_try, bind, db_get_value_store.
  destruct (list_find _ (store w)) as [[i r]|] eqn:Hfind; simpl.
  - apply list_find_Some in Hfind as (Hi & _ & _).
    unfold frappe_get_store_doc. rewrite Hi. reflexivity.
  - reflexivity.
Qed.
End Writers.

(** ** Facts about tables *)

Section Tables.
Context {A : Type} (P : A -> Prop) `{!forall x, Decision (P x)}.

Lemma find_after_insert (l : list A) i x y :
  list_find P l = Some (i, x) -> P y ->
  list_find P (<[i := y]> l) = Some (i, y).
Proof.
  intros Hfind Hy. apply list_find_Some in Hfind as (Hi & Hx & Hbefore).
  apply list_find_Some. split; [|split]; [|assumption|].
  - apply list_lookup_insert_eq. eapply lookup_lt_Some; eassumption.
  - intros j z Hj Hlt.
    rewrite list_lookup_insert_ne in Hj by lia. eauto.
Qed.

Lemma find_after_append (l : list A) y :
  list_find P l = None -> P y ->
  list_find P (l ++ [y]) = Some (length l, y).
Proof.
  intros Hnone Hy. apply list_find_None in Hnone.
  apply list_find_Some. split; [|split]; [|assumption|].
  - rewrite lookup_app_r by lia. now rewrite Nat.sub_diag.
  - intros j z Hj Hlt. rewrite lookup_app_l in Hj by lia.
    eapply Forall_lookup_1 in Hnone; eassumption.
Qed.

Lemma filter_none (l : list A) :
  list_find P l = None -> filter P l = [].
Proof.
  intros Hnone. apply list_find_None in Hnone.
  induction Hnone as [|x l Hx _ IH]; [reflexivity|].
  rewrite filter_cons_False by assumption. exact IH.
Qed.

Lemma filter_insert_single (l : list A) i x y :
  l !! i = Some x -> P x -> P y ->
  (length (filter P l) <= 1)%nat ->
  filter P (<[i := y]> l) = [y].
Proof.
  revert i. induction l as [|a l IH]; intros i Hi Hx Hy Hlen; [discriminate|].
  destruct i as [|j]; simpl in *.
  - injection Hi as ->.
    rewrite filter_cons_True in Hlen by assumption.
    rewrite filter_cons_True by assumption.
    destruct (filter P l); [reflexivity|simpl in Hlen; lia].
  - destruct (decide (P a)) as [Ha|Ha].
    + rewrite filter_cons_True in Hlen by assumption.
      assert (Hin : x ∈ filter P l).
      { apply list_elem_of_filter. split; [assumption|].
        eapply list_elem_of_lookup_2; eassumption. }
      destruct (filter P l); [inversion Hin|simpl in Hlen; lia].
    + rewrite filter_cons_False in Hlen by assumption.
      rewrite filter_cons_False by assumption. eauto.
Qed.

Lemma filter_insert_length (l : list A) i x y :
  l !! i = Some x -> P x -> P y ->
  length (filter P (<[i := y]> l)) = length (filter P l).
Proof.
  revert i. induction l as [|a l IH]; intros i Hi Hx Hy; [discriminate|].
  destruct i as [|j]; simpl in *.
  - injection Hi as ->.
    rewrite !filter_cons_True by assumption. reflexivity.
  - destruct (decide (P a)) as [Ha|Ha].
    + rewrite !filter_cons_True by assumption. simpl. f_equal. eauto.
    + rewrite !filter_cons_False by assumption. eauto.
Qed.
End Tables.

(** ** update_translation_status *)

(** C5.  [update_translation_status] on a key that no row of the table
    carries appends exactly one row, with that key, content ["{}"], the
    given status and [edit_mode] off; on a key that a row carries it
    replaces the status of one such row and changes nothing else: every
    other row and every other field of that row is as before. *)
Theorem C5_update_translation_status dt dn vid lang status w :
  let s' := store (exec (update_translation_status dt dn vid lang status) w) in
  (Forall (fun r => ~ row_has_key dt dn vid lang r) (store w) ->
   s' = store w ++
        [ {| parent_doctype := dt; parent_name := dn; version_id := vid;
             language := lang; translated_content := "{}";
             translation_status := status; edit_mode := false;
             last_translated := None |} ])
  /\
  (Exists (row_has_key dt dn vid lang) (store w) ->
   exists i r,
     store w !! i = Some r /\ row_has_key dt dn vid lang r /\
     s' = <[i := {| parent_doctype := parent_doctype r;
                    parent_name := parent_name r;
                    version_id := version_id r;
                    language := language r;
                    translated_content := translated_content r;
                    translation_status := status;
                    edit_mode := edit_mode r;
                    last_translated := last_translated r |}]> (store w)).
Proof.
  unfold exec. rewrite update_translation_status_run. simpl. split.
  - intros Hno.
    rewrite (proj2 (list_find_None (row_has_key dt dn vid lang) (store w)) Hno).
    reflexivity.
  - intros Hex.
    destruct (list_find _ (store w)) as [[i r]|] eqn:Hfind.
    + apply list_find_Some in Hfind as (Hi & Hr & _).
      exists i, r. repeat split; assumption || apply Hr.
    + apply list_find_None in Hfind. apply Exists_exists in Hex as (r & Hin & Hr).
      rewrite Forall_forall in Hfind. exfalso. eapply Hfind; eassumption.
Qed.

(** ** edit_mode *)

Lemma edit_mode_insert_same (s : list Row) i r r' :
  s !! i = Some r -> edit_mode r' = edit_mode r ->
  edit_mode <$> <[i := r']> s = edit_mode <$> s.
Proof.
  intros Hi Hem. rewrite list_fmap_insert, Hem.
  apply list_insert_id. rewrite list_lookup_fmap, Hi. reflexivity.
Qed.

(** C9.  Both writers leave the [edit_mode] column of the table as it was,
    followed by [false] for the row they insert when no row carried the
    key: an inserted row has [edit_mode] off, and the flag of an existing
    row is never touched. *)
Theorem C9_edit_mode_preserved E dt dn vid lang content status w :
  let inserted :=
    if decide (Exists (row_has_key dt dn vid lang) (store w))
    then [] else [false] in
  edit_mode <$> store (exec (save_translation_to_store E dt dn vid lang content) w)
    = (edit_mode <$> store w) ++ inserted
  /\
  edit_mode <$> store (exec (update_translation_status dt dn vid lang status) w)
    = (edit_mode <$> store w) ++ inserted.
Proof.
  unfold exec.
  rewrite save_translation_to_store_run, update_translation_status_run. simpl.
  destruct (list_find _ (store w)) as [[i r]|] eqn:Hfind.
  - apply list_find_Some in Hfind as (Hi & Hr & _).
    rewrite decide_True.
    2:{ apply Exists_exists. exists r. split; [|assumption].
        eapply list_elem_of_lookup_2; eassumption. }
    rewrite !app_nil_r.
    split; eapply edit_mode_insert_same; try eassumption; reflexivity.
  - apply list_find_None in Hfind.
    rewrite decide_False.
    2:{ intros Hex. apply Exists_exists in Hex as (r & Hin & Hr).
        rewrite Forall_forall in Hfind. eapply Hfind; eassumption. }
    rewrite !fmap_app. split; reflexivity.
Qed.

(** ** save_translation_to_store *)

Section Upsert.
Variable E : Env.
Variables dt dn vid lang : string.

Let key := row_has_key dt dn vid lang.
Let save := save_translation_to_store E dt dn vid lang.

Lemma save_then {A} content (k : M A) w :
  (save content ;; k) w = k (exec (save content) w).
Proof.
  unfold bind, exec, save. rewrite save_translation_to_store_run. reflexivity.
Qed.

Lemma exec_save_then {A} content (k : M A) w :
  exec (save content ;; k) w = exec k (exec (save content) w).
Proof. unfold exec at 1. rewrite save_then. reflexivity. Qed.

(** Two saves in a row: the second overwrites what the first wrote. *)
Lemma save_save_store c1 c2 w :
  store (exec (save c2) (exec (save c1) w)) =
  match list_find key (store w) with
  | Some (i, r) =>
      <[i := completed r c2 (clock E (Datatypes.S (clock_reads w)))]> (store w)
  | None =>
      store w ++ [completed_row dt dn vid lang c2
                    (clock E (Datatypes.S (clock_reads w)))]
  end.
Proof.
  unfold exec, save. rewrite !save_translation_to_store_run. simpl.
  fold key. destruct (list_find key (store w)) as [[i r]|] eqn:Hfind.
  - erewrite find_after_insert; [|eassumption|].
    + rewrite list_insert_insert_eq. reflexivity.
    + apply list_find_Some in Hfind as (_ & Hk & _). exact Hk.
  - erewrite find_after_append; [|assumption|repeat split].
    rewrite insert_app_r_alt by lia. rewrite Nat.sub_diag. reflexivity.
Qed.

Lemma save_save_forget c w :
  forget_time <$> store (exec (save c) (exec (save c) w))
  = forget_time <$> store (exec (save c) w).
Proof.
  rewrite save_save_store.
  unfold exec, save. rewrite save_translation_to_store_run. simpl.
  fold key. destruct (list_find key (store w)) as [[i r]|].
  - rewrite !list_fmap_insert. reflexivity.
  - rewrite !fmap_app. reflexivity.
Qed.

Lemma repeat_save_forget c n w :
  forget_time <$> store (exec (repeat_m (Datatypes.S n) (save c)) w)
  = forget_time <$> store (exec (save c) w).
Proof.
  revert w. induction n as [|n IH]; intros w.
  - change (repeat_m 1 (save c)) with (save c ;; ret tt).
    rewrite exec_save_then. reflexivity.
  - change (repeat_m (Datatypes.S (Datatypes.S n)) (save c))
      with (save c ;; repeat_m (Datatypes.S n) (save c)).
    rewrite exec_save_then, IH. apply save_save_forget.
Qed.

Lemma save_save_rows c1 c2 w :
  (length (rows_with_key dt dn vid lang (store w)) <= 1)%nat ->
  exists r,
    rows_with_key dt dn vid lang (store (exec (save c2) (exec (save c1) w)))
      = [r] /\
    translated_content r = Json.dumps (JObj c2) /\
    translation_status r = "Completed"%string /\
    last_translated r = Some (clock E (Datatypes.S (clock_reads w))).
Proof.
  intros Hlen. rewrite save_save_store.
  unfold rows_with_key in *. fold key in Hlen |- *.
  destruct (list_find key (store w)) as [[i r]|] eqn:Hfind.
  - apply list_find_Some in Hfind as (Hi & Hk & _).
    exists (completed r c2 (clock E (Datatypes.S (clock_reads w)))).
    split; [|repeat split].
    eapply filter_insert_single; eassumption.
  - exists (completed_row dt dn vid lang c2
              (clock E (Datatypes.S (clock_reads w)))).
    split; [|repeat split].
    rewrite filter_app, filter_none by assumption.
    rewrite filter_cons_True by (repeat split). reflexivity.
Qed.
End Upsert.

(** C2, as amended.  On a table holding at most one row for the key, two
    saves under that key leave exactly one row for it, holding the content
    and the time of the second save and status Completed.  Saving again
    with the same arguments changes nothing but [last_translated], which
    every call sets to the time of that call: whatever the number of
    calls, the table is the one a single call produces up to that
    field. *)
Theorem C2_upsert_overwrites E dt dn vid lang c1 c2 w :
  let save := save_translation_to_store E dt dn vid lang in
  ((length (rows_with_key dt dn vid lang (store w)) <= 1)%nat ->
   exists r,
     rows_with_key dt dn vid lang (store (exec (save c1 ;; save c2) w)) = [r] /\
     translated_content r = Json.dumps (JObj c2) /\
     translation_status r = "Completed"%string /\
     last_translated r = Some (clock E (Datatypes.S (clock_reads w))))
  /\
  (forall n,
     forget_time <$> store (exec (repeat_m (Datatypes.S n) (save c1)) w)
     = forget_time <$> store (exec (save c1) w)).
Proof.
  intros save. split.
  - intros Hlen. unfold save. rewrite exec_save_then.
    apply save_save_rows. exact Hlen.
  - intros n. apply repeat_save_forget.
Qed.

(** C2, as stated, fails: the second of two identical calls moves
    [last_translated], so the table after two calls is not the table after
    one. *)
Lemma C2_counterexample :
  let save :=
    save_translation_to_store Scenario.env "Article" "A1" Scenario.version "en"
      Scenario.title_hello in
  store (exec (save ;; save) Scenario.empty_world)
  <> store (exec save Scenario.empty_world).
Proof. vm_compute. discriminate. Qed.

Lemma C2_witness :
  (exists r,
     rows_with_key "Article" "A1" Scenario.version "en"
       (store (exec (save_translation_to_store Scenario.env "Article" "A1"
                       Scenario.version "en" [("title"%string, JStr "Hi")] ;;
                     save_translation_to_store Scenario.env "Article" "A1"
                       Scenario.version "en" Scenario.title_hello)
                 Scenario.empty_world)) = [r] /\
     translated_content r = Json.dumps (JObj Scenario.title_hello) /\
     translation_status r = "Completed"%string /\
     last_translated r = Some (Datetime 2024 1 2 8 30 1 0)).
Proof.
  apply (proj1 (C2_upsert_overwrites Scenario.env "Article" "A1"
                  Scenario.version "en" [("title"%string, JStr "Hi")]
                  Scenario.title_hello Scenario.empty_world)).
  simpl. lia.
Defined.

(** ** Strings, digits and digests *)

Lemma code_chr n : 0 <= n < 256 -> PyStr.code (PyStr.chr n) = n.
Proof.
  intros Hn. unfold PyStr.code, PyStr.chr.
  rewrite N_ascii_embedding by lia. lia.
Qed.

Lemma hex_digit_is_hex d : PyStr.is_hex_char (PyStr.hex_digit d) = true.
Proof.
  unfold PyStr.hex_digit, PyStr.is_hex_char.
  pose proof (Z.mod_pos_bound d 16 ltac:(lia)) as Hk.
  destruct (d mod 16 <? 10) eqn:Hlt; rewrite code_chr by lia.
  - apply Z.ltb_lt in Hlt. apply orb_true_iff. left.
    apply andb_true_iff. split; apply Z.leb_le; lia.
  - apply Z.ltb_ge in Hlt. apply orb_true_iff. right.
    apply andb_true_iff. split; apply Z.leb_le; lia.
Qed.

Lemma string_length_app (a b : string) :
  String.length (a +:+ b) = (String.length a + String.length b)%nat.
Proof. induction a as [|c a IH]; simpl; [reflexivity|now rewrite IH]. Qed.

Lemma all_chars_app p (a b : string) :
  PyStr.all_chars p (a +:+ b) = PyStr.all_chars p a && PyStr.all_chars p b.
Proof.
  induction a as [|c a IH]; simpl; [reflexivity|].
  rewrite IH. apply andb_assoc.
Qed.

Lemma take_length n (s : string) :
  (n <= String.length s)%nat -> String.length (PyStr.take n s) = n.
Proof.
  unfold PyStr.take. revert s. induction n as [|n IH]; intros [|c s] Hlen;
    simpl in *; try reflexivity; try lia.
  rewrite IH by lia. reflexivity.
Qed.

Lemma take_all_chars p n (s : string) :
  PyStr.all_chars p s = true -> PyStr.all_chars p (PyStr.take n s) = true.
Proof.
  unfold PyStr.take. revert s. induction n as [|n IH]; intros [|c s] Hall;
    simpl in *; try reflexivity.
  apply andb_true_iff in Hall as [Hc Hs]. rewrite Hc. simpl. auto.
Qed.

Lemma hex_word_shape w :
  String.length (MD5.hex_word w) = 8%nat /\
  PyStr.all_chars PyStr.is_hex_char (MD5.hex_word w) = true.
Proof.
  unfold MD5.hex_word. simpl. rewrite !hex_digit_is_hex. split; reflexivity.
Qed.

Lemma hexdigest_shape msg :
  String.length (MD5.hexdigest msg) = 32%nat /\
  PyStr.all_chars PyStr.is_hex_char (MD5.hexdigest msg) = true.
Proof.
  unfold MD5.hexdigest. destruct (MD5.digest msg) as [a b c d].
  destruct (hex_word_shape a) as [La Ha], (hex_word_shape b) as [Lb Hb],
    (hex_word_shape c) as [Lc Hc], (hex_word_shape d) as [Ld Hd].
  rewrite !string_length_app, !all_chars_app, La, Lb, Lc, Ld, Ha, Hb, Hc, Hd.
  split; reflexivity.
Qed.

Lemma version_hash_shape doc v :
  String.length (version_hash doc v) = 12%nat /\
  PyStr.all_chars PyStr.is_hex_char (version_hash doc v) = true.
Proof.
  unfold version_hash.
  destruct (hexdigest_shape (PyStr.encode (version_string doc v))) as [L H].
  split; [apply take_length; lia|apply take_all_chars; exact H].
Qed.

(** Digits and fixed-width fields determine the number they print. *)

Lemma digit_inj a b :
  PyStr.digit a = PyStr.digit b -> a mod 10 = b mod 10.
Proof.
  unfold PyStr.digit. intros Heq.
  pose proof (Z.mod_pos_bound a 10 ltac:(lia)).
  pose proof (Z.mod_pos_bound b 10 ltac:(lia)).
  apply (f_equal PyStr.code) in Heq. rewrite !code_chr in Heq by lia. lia.
Qed.

Lemma pad2_inj a b :
  0 <= a < 100 -> 0 <= b < 100 -> PyStr.pad2 a = PyStr.pad2 b -> a = b.
Proof.
  intros Ha Hb Heq. unfold PyStr.pad2 in Heq.
  injection Heq as H1 H0. apply digit_inj in H1, H0.
  rewrite (Z.div_mod a 10), (Z.div_mod b 10) by lia.
  rewrite (Z.mod_small (a / 10) 10), (Z.mod_small (b / 10) 10) in H1
    by (split; [apply Z.div_pos; lia|apply Z.div_lt_upper_bound; lia]).
  lia.
Qed.

Lemma pad4_inj a b :
  0 <= a < 10000 -> 0 <= b < 10000 -> PyStr.pad4 a = PyStr.pad4 b -> a = b.
Proof.
  intros Ha Hb Heq. unfold PyStr.pad4, PyStr.pad2 in Heq.
  injection Heq as H3 H2 H1 H0. apply digit_inj in H3, H2, H1, H0.
  assert (Hdec : forall n, 0 <= n < 10000 ->
            n = 1000 * ((n / 1000) mod 10) + 100 * ((n / 100) mod 10)
                + 10 * ((n / 10) mod 10) + n mod 10).
  { intros n Hn.
    pose proof (Z.div_mod n 10 ltac:(lia)).
    pose proof (Z.div_mod (n / 10) 10 ltac:(lia)).
    pose proof (Z.div_mod (n / 100) 10 ltac:(lia)).
    assert (n / 10 / 10 = n / 100) by (rewrite Z.div_div by lia; reflexivity).
    assert (n / 100 / 10 = n / 1000) by (rewrite Z.div_div by lia; reflexivity).
    assert (0 <= n / 1000 < 10)
      by (split; [apply Z.div_pos; lia|apply Z.div_lt_upper_bound; lia]).
    rewrite (Z.mod_small (n / 1000) 10) by lia. lia. }
  rewrite (Hdec a Ha), (Hdec b Hb). lia.
Qed.

Lemma strftime_compact_inj t t' :
  datetime_ok t -> datetime_ok t' ->
  strftime_compact t = strftime_compact t' ->
  year t = year t' /\ month t = month t' /\ day t = day t' /\
  hour t = hour t' /\ minute t = minute t' /\ second t = second t'.
Proof.
  intros Ht Ht' Heq. unfold datetime_ok in *.
  unfold strftime_compact in Heq.
  assert (H4 : PyStr.pad4 (year t) = PyStr.pad4 (year t') /\
               PyStr.pad2 (month t) = PyStr.pad2 (month t') /\
               PyStr.pad2 (day t) = PyStr.pad2 (day t') /\
               PyStr.pad2 (hour t) = PyStr.pad2 (hour t') /\
               PyStr.pad2 (minute t) = PyStr.pad2 (minute t') /\
               PyStr.pad2 (second t) = PyStr.pad2 (second t')).
  { unfold PyStr.pad4, PyStr.pad2 in *. simpl in Heq.
    injection Heq as -> -> -> -> -> -> -> -> -> -> -> -> -> ->.
    repeat split; reflexivity. }
  destruct H4 as (Hy & Hmo & Hd & Hh & Hmi & Hs).
  repeat split;
    (apply pad4_inj; [lia|lia|assumption]) || (apply pad2_inj; [lia|lia|assumption]).
Qed.

(** ** get_version_id *)

Section VersionId.
Variable E : Env.

Lemma get_version_id_modified doc v w :
  py_getattr doc "modified" = Some v -> truthy v = true ->
  get_version_id E doc w = (Ok (name doc +:+ "_" +:+ version_hash doc v), w).
Proof. intros Hv Ht. unfold get_version_id. rewrite Hv, Ht. reflexivity. Qed.

Lemma get_version_id_fallback doc w :
  (forall v, py_getattr doc "modified" = Some v -> truthy v = false) ->
  eval (get_version_id E doc) w
  = Ok (name doc +:+ "_" +:+ strftime_compact (clock E (clock_reads w))).
Proof.
  intros Hno. unfold get_version_id.
  destruct (py_getattr doc "modified") as [v|]; [|reflexivity].
  rewrite (Hno v eq_refl). reflexivity.
Qed.
End VersionId.

Lemma version_string_same_second (d d' : Document) t t' :
  doctype d = doctype d' -> name d = name d' -> same_second t t' ->
  version_string d (PDatetime t) = version_string d' (PDatetime t').
Proof.
  intros Hdt Hn (Hy & Hmo & Hd & Hh & Hmi & Hs).
  unfold version_string, modified_str, strftime_compact.
  rewrite Hdt, Hn, Hy, Hmo, Hd, Hh, Hmi, Hs. reflexivity.
Qed.

Lemma version_string_other_second (d d' : Document) t t' :
  doctype d = doctype d' -> name d = name d' ->
  datetime_ok t -> datetime_ok t' -> ~ same_second t t' ->
  version_string d (PDatetime t) <> version_string d' (PDatetime t').
Proof.
  intros Hdt Hn Ht Ht' Hdiff Heq. apply Hdiff.
  unfold version_string, modified_str in Heq. rewrite Hdt, Hn in Heq.
  do 4 apply String.app_inj in Heq.
  apply strftime_compact_inj; assumption.
Qed.

(** C3, as amended.  Two documents with the same doctype and name whose
    [modified] values are present and truthy: with equal [modified] they
    get the same version id, whatever the site and the clock; when both
    values are [datetime]s that agree to the second (they may differ in
    microseconds) the ids are equal; when they are [datetime]s that differ
    at second precision the hashed version strings differ, and the ids
    differ unless the MD5 digests of the two strings begin with the same
    twelve digits.  The last holds of any two values whose version strings
    differ. *)
Theorem C3_version_id_determined E E' (d d' : Document) v v' w w' :
  doctype d = doctype d' -> name d = name d' ->
  py_getattr d "modified" = Some v -> truthy v = true ->
  py_getattr d' "modified" = Some v' -> truthy v' = true ->
  let id := eval (get_version_id E d) w in
  let id' := eval (get_version_id E' d') w' in
  (v = v' -> id = id')
  /\
  (version_string d v <> version_string d' v' ->
   (id <> id' <->
    ~ md5_prefix_collision (version_string d v) (version_string d' v')))
  /\
  (forall t t', v = PDatetime t -> v' = PDatetime t' ->
     (same_second t t' -> id = id')
     /\
     (datetime_ok t -> datetime_ok t' -> ~ same_second t t' ->
      version_string d v <> version_string d' v' /\
      (id <> id' <->
       ~ md5_prefix_collision (version_string d v) (version_string d' v')))).
Proof.
  intros Hdt Hn Hv Htv Hv' Htv' id id'. unfold id, id', eval.
  rewrite (get_version_id_modified E d v w Hv Htv),
    (get_version_id_modified E' d' v' w' Hv' Htv'). simpl.
  assert (Hsame : version_string d v = version_string d' v' ->
                  version_hash d v = version_hash d' v')
    by (unfold version_hash; intros ->; reflexivity).
  assert (Hdiff : version_string d v <> version_string d' v' ->
            (@Ok string (name d +:+ "_" +:+ version_hash d v)
             <> Ok (name d' +:+ "_" +:+ version_hash d' v') <->
             ~ md5_prefix_collision (version_string d v)
                 (version_string d' v'))).
  { intros Hne. rewrite Hn. split.
    - intros Hid [_ Hc]. apply Hid. unfold version_hash. rewrite Hc.
      reflexivity.
    - intros Hnc Heq. apply Hnc. split; [exact Hne|].
      injection Heq as Heq. do 2 apply String.app_inj in Heq. exact Heq. }
  split; [|split].
  - intros <-. rewrite Hn. f_equal. f_equal. f_equal. apply Hsame.
    unfold version_string. rewrite Hdt, Hn. reflexivity.
  - exact Hdiff.
  - intros t t' -> ->. split.
    + intros Hss. rewrite Hn. do 3 f_equal. apply Hsame.
      apply version_string_same_second; assumption.
    + intros Ht Ht' Hns.
      assert (Hne : version_string d (PDatetime t)
                    <> version_string d' (PDatetime t'))
        by (apply version_string_other_second; assumption).
      split; [exact Hne|apply Hdiff; exact Hne].
Qed.

(** C3, as stated, fails twice.  Two documents that differ only in the
    microseconds of [modified] get the same version id; and so do the two
    saves of the document in April and in September 2025, whose [modified]
    differ at second precision: the MD5 digests of their version strings
    both begin with [158121491dde]. *)
Lemma C3_counterexample :
  (doctype Scenario.article = doctype Scenario.article_resaved /\
   name Scenario.article = name Scenario.article_resaved /\
   py_getattr Scenario.article "modified"
     <> py_getattr Scenario.article_resaved "modified" /\
   eval (get_version_id Scenario.env Scenario.article) Scenario.empty_world
   = eval (get_version_id Scenario.env Scenario.article_resaved)
       Scenario.empty_world)
  /\
  (datetime_ok Scenario.in_april /\ datetime_ok Scenario.in_september /\
   ~ same_second Scenario.in_april Scenario.in_september /\
   eval (get_version_id Scenario.env (Scenario.article_at Scenario.in_april))
     Scenario.empty_world = Ok "A1_158121491dde"%string /\
   eval (get_version_id Scenario.env
           (Scenario.article_at Scenario.in_september))
     Scenario.empty_world = Ok "A1_158121491dde"%string).
Proof.
  split.
  - split; [reflexivity|]. split; [reflexivity|]. split.
    + vm_compute. discriminate.
    + vm_compute. reflexivity.
  - split; [unfold datetime_ok; simpl; lia|].
    split; [unfold datetime_ok; simpl; lia|]. split.
    + intros (_ & H & _). discriminate H.
    + split; vm_compute; reflexivity.
Qed.

Lemma C3_witness :
  eval (get_version_id Scenario.env Scenario.article) Scenario.empty_world
  = eval (get_version_id Scenario.env Scenario.article_resaved)
      Scenario.empty_world
  /\
  eval (get_version_id Scenario.env Scenario.article) Scenario.empty_world
  <> eval (get_version_id Scenario.env
             (Scenario.article_at Scenario.next_second)) Scenario.empty_world.
Proof.
  split.
  - refine (proj1 (proj2 (proj2
      (C3_version_id_determined Scenario.env Scenario.env
         Scenario.article Scenario.article_resaved
         (PDatetime Scenario.modified_at)
         (PDatetime (Datetime 2024 1 1 10 0 0 500000))
         Scenario.empty_world Scenario.empty_world
         eq_refl eq_refl eq_refl eq_refl eq_refl eq_refl))
      _ _ eq_refl eq_refl) _).
    repeat split.
  - refine (proj2 (proj2 (proj2 (proj2 (proj2
      (C3_version_id_determined Scenario.env Scenario.env
         Scenario.article (Scenario.article_at Scenario.next_second)
         (PDatetime Scenario.modified_at)
         (PDatetime Scenario.next_second)
         Scenario.empty_world Scenario.empty_world
         eq_refl eq_refl eq_refl eq_refl eq_refl eq_refl))
      _ _ eq_refl eq_refl) _ _ _)) _).
    + unfold datetime_ok. simpl. lia.
    + unfold datetime_ok. simpl. lia.
    + intros (_ & _ & _ & _ & _ & H). discriminate H.
    + intros [_ Hc]. vm_compute in Hc. discriminate Hc.
Defined.

(** C4, as amended.  When [modified] is present and truthy the version id
    is the document name, an underscore and the first twelve hexadecimal
    digits of the MD5 of [<doctype>_<name>_<stamp>], where the stamp is
    the value formatted to the second ([%Y%m%d%H%M%S]) when it is a
    [datetime] and its plain [str] otherwise.  When [modified] is absent or
    falsy the id is the document name, an underscore and the current clock
    reading formatted to the second: fourteen digits, not hashed. *)
Theorem C4_version_id_format E (doc : Document) w :
  (forall v, py_getattr doc "modified" = Some v -> truthy v = true ->
     exists h,
       eval (get_version_id E doc) w = Ok (name doc +:+ "_" +:+ h) /\
       h = PyStr.take 12
             (MD5.hexdigest
                (PyStr.encode (doctype doc +:+ "_" +:+ name doc +:+ "_"
                               +:+ modified_str v))) /\
       String.length h = 12%nat /\
       PyStr.all_chars PyStr.is_hex_char h = true /\
       (forall t, v = PDatetime t -> modified_str v = strftime_compact t) /\
       ((forall t, v <> PDatetime t) -> modified_str v = py_str v))
  /\
  ((forall v, py_getattr doc "modified" = Some v -> truthy v = false) ->
   eval (get_version_id E doc) w
   = Ok (name doc +:+ "_" +:+ strftime_compact (clock E (clock_reads w)))).
Proof.
  split.
  - intros v Hv Ht. exists (version_hash doc v).
    unfold eval. rewrite (get_version_id_modified E doc v w Hv Ht).
    destruct (version_hash_shape doc v) as [Hlen Hhex].
    repeat split; try assumption.
    + intros t ->. reflexivity.
    + intros Hnot. destruct v; try reflexivity. exfalso. eapply Hnot. reflexivity.
  - apply get_version_id_fallback.
Qed.

(** C4, as stated, fails: for a document without [modified] the id is not
    the name followed by a twelve-character hash. *)
Lemma C4_counterexample :
  ~ exists h : string,
      String.length h = 12%nat /\
      eval (get_version_id Scenario.env Scenario.draft) Scenario.empty_world
      = Ok ("A1_" +:+ h).
Proof.
  intros (h & Hlen & Heq). vm_compute in Heq.
  injection Heq as <-. discriminate Hlen.
Qed.

Lemma C4_witness :
  (exists h,
     eval (get_version_id Scenario.env Scenario.article) Scenario.empty_world
     = Ok ("A1_" +:+ h) /\ String.length h = 12%nat) /\
  eval (get_version_id Scenario.env Scenario.draft) Scenario.empty_world
  = Ok "A1_20240102083000"%string.
Proof.
  destruct (C4_version_id_format Scenario.env Scenario.article
              Scenario.empty_world) as [Hhash _].
  destruct (C4_version_id_format Scenario.env Scenario.draft
              Scenario.empty_world) as [_ Hclock].
  split.
  - destruct (Hhash (PDatetime Scenario.modified_at) eq_refl eq_refl)
      as (h & Hid & _ & Hlen & _).
    exists h. split; assumption.
  - apply Hclock. intros v Hv. discriminate Hv.
Defined.

(** ** The field extractor *)

Section DictFacts.
Context {V : Type}.
Implicit Types d : list (string * V).

Lemma dict_keys_set k v d k' :
  k' ∈ Dict.keys (Dict.set k v d) <-> k' = k \/ k' ∈ Dict.keys d.
Proof.
  unfold Dict.keys. induction d as [|[k0 v0] d IH]; simpl.
  - rewrite list_elem_of_singleton. split; [auto|].
    intros [H|H]; [assumption|inversion H].
  - destruct (String.eqb k k0) eqn:Hk; simpl.
    + apply String.eqb_eq in Hk as <-.
      rewrite !elem_of_cons. tauto.
    + rewrite !elem_of_cons, IH. tauto.
Qed.

Lemma dict_get_set k v d k' :
  Dict.get k' (Dict.set k v d)
  = if String.eqb k' k then Some v else Dict.get k' d.
Proof.
  induction d as [|[k0 v0] d IH]; simpl.
  - destruct (String.eqb k' k); reflexivity.
  - destruct (String.eqb k k0) eqn:Hk; simpl.
    + apply String.eqb_eq in Hk as <-.
      destruct (String.eqb k' k); reflexivity.
    + destruct (String.eqb k' k0) eqn:Hk0.
      * apply String.eqb_eq in Hk0 as ->.
        rewrite String.eqb_sym, Hk. reflexivity.
      * exact IH.
Qed.
End DictFacts.

Lemma collect_field_keys doc acc fm f :
  f ∈ Dict.keys (collect_field doc acc fm)
  <-> f ∈ Dict.keys acc \/ (field_name fm = f /\ contributes doc fm).
Proof.
  unfold collect_field, contributes, py_hasattr.
  destruct (translate fm); simpl.
  2:{ split; [auto|]. intros [H|(_ & H & _)]; [assumption|discriminate]. }
  destruct (py_getattr doc (field_name fm)) as [v|]; simpl.
  2:{ split; [auto|]. intros [H|(_ & _ & v & H & _)]; [assumption|discriminate]. }
  destruct (truthy v) eqn:Ht.
  - rewrite dict_keys_set. split.
    + intros [->|H]; [right|left; assumption]. eauto.
    + intros [H|(<- & _)]; auto.
  - split; [auto|]. intros [H|(_ & _ & v' & Hv & Ht')]; [assumption|].
    injection Hv as <-. congruence.
Qed.

Lemma fields_to_translate_keys_from doc fms acc f :
  f ∈ Dict.keys (fold_left (collect_field doc) fms acc)
  <-> f ∈ Dict.keys acc
      \/ exists fm, fm ∈ fms /\ field_name fm = f /\ contributes doc fm.
Proof.
  revert acc. induction fms as [|fm fms IH]; intros acc; simpl.
  - split; [auto|]. intros [H|(fm & Hin & _)]; [assumption|inversion Hin].
  - rewrite IH, collect_field_keys. split.
    + intros [[H|(Hf & Hc)]|(fm' & Hin & Hf & Hc)]; auto.
      * right. exists fm. split; [left|]; auto.
      * right. exists fm'. split; [right|]; auto.
    + intros [H|(fm' & Hin & Hf & Hc)]; auto.
      apply elem_of_cons in Hin as [->|Hin]; eauto 6.
Qed.

Lemma collect_field_values doc acc fm :
  values_from doc acc -> values_from doc (collect_field doc acc fm).
Proof.
  intros Hacc. unfold collect_field, py_hasattr.
  destruct (translate fm); simpl; [|assumption].
  destruct (py_getattr doc (field_name fm)) as [v|] eqn:Hv; simpl; [|assumption].
  destruct (truthy v) eqn:Ht; [|assumption].
  intros f s. rewrite dict_get_set.
  destruct (String.eqb f (field_name fm)) eqn:Hf.
  - apply String.eqb_eq in Hf as ->. intros [= <-]. eauto.
  - apply Hacc.
Qed.

Lemma fields_to_translate_values doc fms :
  values_from doc (fields_to_translate doc fms).
Proof.
  unfold fields_to_translate.
  assert (Hnil : values_from doc []) by (intros f s H; discriminate H).
  revert Hnil. generalize (@nil (string * string)).
  induction fms as [|fm fms IH]; intros acc Hacc; simpl; [assumption|].
  apply IH, collect_field_values, Hacc.
Qed.

(** C6, as amended.  The collected fields are exactly the names of the
    field-mapping entries with [translate] on whose attribute the document
    possesses with a truthy value (not [None], not the empty string, not
    zero or [False]); each is stored with the string form of that value.  A
    name whose entries all have [translate] off is never collected. *)
Theorem C6_fields_to_translate (doc : Document) (fms : list FieldMapping) f :
  (f ∈ Dict.keys (fields_to_translate doc fms)
   <-> exists fm v,
         fm ∈ fms /\ field_name fm = f /\ translate fm = true /\
         py_getattr doc f = Some v /\ truthy v = true)
  /\
  (forall s, Dict.get f (fields_to_translate doc fms) = Some s ->
     exists v, py_getattr doc f = Some v /\ s = py_str v)
  /\
  ((forall fm, fm ∈ fms -> field_name fm = f -> translate fm = false) ->
   f ∉ Dict.keys (fields_to_translate doc fms)).
Proof.
  assert (Hkeys :
    f ∈ Dict.keys (fields_to_translate doc fms)
    <-> exists fm v,
          fm ∈ fms /\ field_name fm = f /\ translate fm = true /\
          py_getattr doc f = Some v /\ truthy v = true).
  { unfold fields_to_translate. rewrite fields_to_translate_keys_from.
    unfold contributes. split.
    - intros [H|(fm & Hin & Hf & Ht & v & Hv & Htv)]; [inversion H|].
      exists fm, v. rewrite <- Hf. auto.
    - intros (fm & v & Hin & Hf & Ht & Hv & Htv). right.
      exists fm. rewrite Hf. eauto 8. }
  split; [exact Hkeys|]. split.
  - intros s Hs.
    destruct (fields_to_translate_values doc fms f s Hs) as (v & Hv & _ & ->).
    eauto.
  - intros Hoff Hin. apply Hkeys in Hin as (fm & v & Hin & Hf & Ht & _).
    rewrite (Hoff fm Hin Hf) in Ht. discriminate.
Qed.

(** C6, as stated, fails: the subtitle is mapped with [translate] on, the
    document has the attribute, and its string form ["None"] is not empty,
    yet the field is not collected. *)
Lemma C6_counterexample :
  extracted_as_specified Scenario.untitled Scenario.title_and_subtitle "subtitle"
  /\ "subtitle"%string
       ∉ Dict.keys (fields_to_translate Scenario.untitled
                      Scenario.title_and_subtitle).
Proof.
  split.
  - exists {| field_name := "subtitle"; translate := true |}, PNone.
    repeat split; try discriminate.
    right. left.
  - vm_compute. intros H. repeat (inversion H as [|? ? ? H']; clear H; rename H' into H).
Qed.

Lemma C6_witness :
  ("internal_id"%string
     ∉ Dict.keys (fields_to_translate Scenario.untitled
                    Scenario.title_and_subtitle))
  /\ ("title"%string
        ∈ Dict.keys (fields_to_translate Scenario.untitled
                       Scenario.title_and_subtitle)).
Proof.
  split.
  - apply (proj2 (proj2 (C6_fields_to_translate Scenario.untitled
                           Scenario.title_and_subtitle "internal_id"))).
    intros fm Hin Hf.
    repeat (apply elem_of_cons in Hin as [->|Hin]; [try discriminate Hf; try reflexivity|]).
    inversion Hin.
  - apply (proj1 (C6_fields_to_translate Scenario.untitled
                    Scenario.title_and_subtitle "title")).
    exists {| field_name := "title"; translate := true |}, (PStr "Hallo").
    repeat split. left.
Defined.

(** ** on_doc_update *)

Lemma relevant_fields_changed_true fms changed_fields :
  relevant_fields_changed fms changed_fields = true
  <-> exists fm, fm ∈ fms /\ translate fm = true /\
                 field_name fm ∈ changed_fields.
Proof.
  induction fms as [|fm fms IH]; simpl.
  - split; [discriminate|]. intros (fm & Hin & _). inversion Hin.
  - destruct (translate fm && bool_decide (field_name fm ∈ changed_fields))
      eqn:Hhit.
    + apply andb_true_iff in Hhit as [Ht Hin]. apply bool_decide_eq_true in Hin.
      split; [|reflexivity]. intros _. exists fm. split; [left|]; auto.
    + rewrite IH. split.
      * intros (fm' & Hin & H). exists fm'. split; [right|]; auto.
      * intros (fm' & Hin & Ht & Hc).
        apply elem_of_cons in Hin as [->|Hin]; [|eauto].
        rewrite Ht in Hhit. simpl in Hhit.
        apply bool_decide_eq_false in Hhit. contradiction.
Qed.

Section OnUpdate.
Variable E : Env.

(** The hook either appends the job or leaves the queue alone. *)
Lemma on_doc_update_queue doc w :
  (update_gate E doc /\
   queue (exec (on_doc_update E doc) w) = queue w ++ [translation_job doc])
  \/
  (~ update_gate E doc /\ queue (exec (on_doc_update E doc) w) = queue w).
Proof.
  unfold exec, on_doc_update, try_except, on_doc_update_try, bind,
    get_translation_settings, update_gate, active_map.
  destruct (site_settings E) as [st|e] eqn:Hst; simpl.
  2:{ right. split; [|reflexivity]. intros (st & m & H & _). discriminate. }
  destruct (enable_auto_translation st) eqn:Hen; simpl.
  2:{ right. split; [|reflexivity].
      intros (st' & m & [= <-] & H & _). congruence. }
  destruct (auto_translate_on_update st) eqn:Hup; simpl.
  2:{ right. split; [|reflexivity].
      intros (st' & m & [= <-] & _ & H & _). congruence. }
  unfold db_get_value_map, ret.
  destruct (list_find (map_is_for (doctype doc)) (site_maps E))
    as [[i m]|] eqn:Hfind; simpl.
  2:{ right. split; [|reflexivity].
      intros (st' & m & _ & _ & _ & H & _). discriminate. }
  unfold frappe_get_map.
  pose proof Hfind as Hlook. apply list_find_Some in Hlook as (Hi & _ & _).
  rewrite Hi. unfold ret.
  destruct (field_mappings m) as [|fm fms] eqn:Hfms.
  { right. split; [|reflexivity].
    intros (st' & m' & _ & _ & _ & [= <-] & (fm & Hin & _) & _).
    rewrite Hfms in Hin. inversion Hin. }
  match goal with
  | |- context [if ?b then frappe_enqueue _ else _] =>
      change b
        with (relevant_fields_changed (fm :: fms) (default [] (changed doc)));
      destruct (relevant_fields_changed (fm :: fms)
                  (default [] (changed doc))) eqn:Hrel
  end.
  - left. split; [|reflexivity].
    apply relevant_fields_changed_true in Hrel as (fm' & Hin & Ht & Hc).
    exists st, m. rewrite Hfms. repeat split; eauto.
  - right. split; [|reflexivity].
    intros (st' & m' & _ & _ & _ & [= <-] & _ & Hch).
    rewrite Hfms in Hch. apply relevant_fields_changed_true in Hch.
    congruence.
Qed.
End OnUpdate.

(** C7.  [on_doc_update] appends the translation job to the queue exactly
    when auto-translation is enabled, translate-on-update is enabled, the
    lookup of an active Translation Map for the document's type returns a
    map with a translatable field, and a field of the document's
    change-tracking list is mapped with [translate] on; otherwise the
    queue is left as it was.  With translate-on-update off nothing is
    enqueued, whatever changed. *)
Theorem C7_on_doc_update_gate E (doc : Document) w :
  (update_gate E doc
   <-> queue (exec (on_doc_update E doc) w) = queue w ++ [translation_job doc])
  /\
  (~ update_gate E doc
   <-> queue (exec (on_doc_update E doc) w) = queue w)
  /\
  (forall st, site_settings E = inl st ->
     auto_translate_on_update st = false ->
     queue (exec (on_doc_update E doc) w) = queue w).
Proof.
  assert (Hne : forall q : list Job, q ++ [translation_job doc] <> q).
  { intros q H. apply (f_equal length) in H.
    rewrite length_app in H. simpl in H. lia. }
  destruct (on_doc_update_queue E doc w) as [[Hg Hq]|[Hg Hq]]; rewrite Hq.
  - split; [tauto|]. split.
    + split; [contradiction|]. intros H. exfalso. eapply Hne. eassumption.
    + intros st Hst Hoff. destruct Hg as (st' & m & Hst' & _ & Hup & _).
      congruence.
  - split; [|split; [tauto|reflexivity]].
    split; [contradiction|]. intros H. symmetry in H. exfalso.
    eapply Hne. eassumption.
Qed.

Lemma C7_witness :
  queue (exec (on_doc_update Scenario.env Scenario.article) Scenario.empty_world)
  = [translation_job Scenario.article]
  /\
  queue (exec (on_doc_update Scenario.quiet_env Scenario.article)
           Scenario.empty_world) = [].
Proof.
  split.
  - apply (proj1 (proj1 (C7_on_doc_update_gate Scenario.env Scenario.article
                           Scenario.empty_world))).
    exists Scenario.settings, Scenario.article_map.
    repeat split.
    + exists {| field_name := "title"; translate := true |}.
      split; [left|reflexivity].
    + exists {| field_name := "title"; translate := true |}.
      split; [left|]. split; [reflexivity|left].
  - apply (proj2 (proj2 (C7_on_doc_update_gate Scenario.quiet_env
                           Scenario.article Scenario.empty_world))
             Scenario.quiet_settings); reflexivity.
Defined.

(** ** One target language *)

Section Language.
Variable E : Env.

Lemma translate_text_only_sends api_key text source_lang target_lang w :
  only_sends [translate_text_request api_key text source_lang target_lang]
    w (exec (translate_text E api_key text source_lang target_lang) w).
Proof.
  unfold only_sends, exec, translate_text, try_except, translate_text_try,
    bind, requests_post.
  destruct (http_post E _ _) as [e|r]; simpl.
  - unfold translate_text_except, bind. destruct (exn_cls e); simpl; auto.
  - destruct (status_code r =? 200); [|simpl; auto].
    unfold response_json.
    destruct (json_body r) as [[| | | |l|d]|]; simpl; auto.
    + destruct (PyStr.contains _ _); simpl; auto.
    + destruct (existsb _ l); simpl; auto.
    + unfold Dict.mem.
      destruct (Dict.get "translations" d) as [[| | |s|[|x l]|[|p d']]|];
        simpl; auto.
      * destruct s; simpl; auto.
      * destruct x; simpl; auto.
Qed.

Lemma translate_text_run api_key text source_lang target_lang w :
  translate_text E api_key text source_lang target_lang w
  = (Ok (expected_translation
           (http_post E (length (requests w))
              (translate_text_request api_key text source_lang target_lang))),
     exec (translate_text E api_key text source_lang target_lang) w).
Proof.
  rewrite <- translate_text_result. unfold eval, exec.
  destruct (translate_text E _ _ _ _ w). reflexivity.
Qed.

Lemma only_sends_trans a b w1 w2 w3 :
  only_sends a w1 w2 -> only_sends b w2 w3 -> only_sends (a ++ b) w1 w3.
Proof.
  intros (Hs & Hq & Hc & Hr) (Hs' & Hq' & Hc' & Hr').
  repeat split; try congruence.
  rewrite Hr', Hr, app_assoc. reflexivity.
Qed.

Lemma translate_fields_run api_key source_language target_lang fields acc w :
  exists acc' w',
    translate_fields E api_key source_language target_lang fields acc w
    = (Ok acc', w') /\
    only_sends (requests_for api_key source_language target_lang fields) w w'.
Proof.
  unfold translate_fields.
  revert acc w. induction fields as [|[f v] fields IH]; intros acc w.
  - exists acc, w. split; [reflexivity|].
    repeat split. simpl. rewrite app_nil_r. reflexivity.
  - cbn [translate_fields_with]. unfold bind at 1. rewrite translate_text_run.
    match goal with
    | |- context [translate_fields_with _ _ _ _ _ ?a ?w1] =>
        destruct (IH a w1) as (acc' & w' & Hrun & Hsend)
    end.
    exists acc', w'. split; [exact Hrun|].
    change (requests_for api_key source_language target_lang ((f, v) :: fields))
      with ([translate_text_request api_key v source_language target_lang]
              ++ requests_for api_key source_language target_lang fields).
    eapply only_sends_trans; [apply translate_text_only_sends|exact Hsend].
Qed.

(** The [try] block of a language ends normally, so its [except] block
    is never entered. *)
Lemma translate_language_try_returns dt dn api_key source_language vid fields
    target_lang w :
  eval (translate_language_try E dt dn api_key source_language vid fields
          target_lang) w = Ok tt.
Proof.
  unfold eval, translate_language_try, translate_language_try_with, bind.
  fold (translate_fields E).
  destruct (translate_fields_run api_key source_language target_lang fields [] w)
    as (acc' & w' & -> & _).
  destruct acc'; [reflexivity|].
  rewrite save_translation_to_store_run. reflexivity.
Qed.

Lemma translate_language_is_try dt dn api_key source_language vid fields
    target_lang w :
  translate_language E dt dn api_key source_language vid fields target_lang w
  = translate_language_try E dt dn api_key source_language vid fields
      target_lang w.
Proof.
  unfold translate_language, translate_language_with, try_except.
  fold (translate_language_try E).
  pose proof (translate_language_try_returns dt dn api_key source_language vid
                fields target_lang w) as Hok.
  unfold eval in Hok.
  destruct (translate_language_try E _ _ _ _ _ _ _ w) as [[[]|e] w'];
    simpl in Hok; [reflexivity|discriminate].
Qed.
End Language.

(** ** Case of the language codes *)

Lemma upper_char_idem c : PyStr.upper_char (PyStr.upper_char c) = PyStr.upper_char c.
Proof. destruct c as [[] [] [] [] [] [] [] []]; reflexivity. Qed.

Lemma lower_upper_char c : PyStr.lower_char (PyStr.upper_char c) = PyStr.lower_char c.
Proof. destruct c as [[] [] [] [] [] [] [] []]; reflexivity. Qed.

Lemma lower_char_idem c : PyStr.lower_char (PyStr.lower_char c) = PyStr.lower_char c.
Proof. destruct c as [[] [] [] [] [] [] [] []]; reflexivity. Qed.

Lemma upper_idem s : PyStr.upper (PyStr.upper s) = PyStr.upper s.
Proof.
  unfold PyStr.upper.
  induction s as [|c s IH]; cbn [PyStr.map_chars]; [reflexivity|].
  rewrite upper_char_idem, IH. reflexivity.
Qed.

Lemma lower_upper s : PyStr.lower (PyStr.upper s) = PyStr.lower s.
Proof.
  unfold PyStr.lower, PyStr.upper.
  induction s as [|c s IH]; cbn [PyStr.map_chars]; [reflexivity|].
  rewrite lower_upper_char, IH. reflexivity.
Qed.

Lemma lower_idem s : PyStr.lower (PyStr.lower s) = PyStr.lower s.
Proof.
  unfold PyStr.lower.
  induction s as [|c s IH]; cbn [PyStr.map_chars]; [reflexivity|].
  rewrite lower_char_idem, IH. reflexivity.
Qed.

Lemma target_languages_of_spec s tl :
  tl ∈ target_languages_of s
  <-> exists piece, piece ∈ PyStr.split "," s /\
                    PyStr.strip piece <> EmptyString /\
                    tl = PyStr.upper (PyStr.strip piece).
Proof.
  unfold target_languages_of.
  change (map ?f ?l) with (f <$> l).
  rewrite list_elem_of_fmap. split.
  - intros (piece & -> & Hin). apply list_elem_of_filter in Hin as [Hne Hin].
    exists piece. repeat split; [assumption|].
    intros Hempty. rewrite Hempty in Hne. discriminate.
  - intros (piece & Hin & Hne & ->). exists piece. split; [reflexivity|].
    apply list_elem_of_filter. split; [|assumption].
    destruct (PyStr.strip piece); [contradiction|reflexivity].
Qed.

(** ** The effect of the job on requests and rows *)

Lemma job_effect_refl langs w w' :
  store w' = store w -> requests w' = requests w -> job_effect langs w w'.
Proof.
  intros Hs Hr. split.
  - exists []. rewrite app_nil_r. auto.
  - intros i r' H. left. congruence.
Qed.

Lemma job_effect_trans langs w1 w2 w3 :
  job_effect langs w1 w2 -> job_effect langs w2 w3 -> job_effect langs w1 w3.
Proof.
  intros [(n1 & Hr1 & Hn1) Hw1] [(n2 & Hr2 & Hn2) Hw2]. split.
  - exists (n1 ++ n2). split; [rewrite Hr2, Hr1, app_assoc; reflexivity|].
    apply Forall_app; auto.
  - intros i r' H. destruct (Hw2 i r' H) as [H'|H']; [apply Hw1, H'|auto].
Qed.

Lemma job_effect_mono langs langs' w w' :
  langs ⊆ langs' -> job_effect langs w w' -> job_effect langs' w w'.
Proof.
  intros Hsub [(n & Hr & Hn) Hw]. split.
  - exists n. split; [assumption|].
    eapply Forall_impl; [exact Hn|]. intros rq (tl & Hin & H). eauto.
  - intros i r' H. destruct (Hw i r' H) as [H'|(Hst & tl & Hin & Hl)]; eauto 7.
Qed.

Section JobEffect.
Variable E : Env.

Lemma save_writes_only dt dn vid lang content w :
  writes_only (fun r => translation_status r = "Completed"%string /\
                        language r = lang)
    w (exec (save_translation_to_store E dt dn vid lang content) w).
Proof.
  unfold writes_only, exec. rewrite save_translation_to_store_run. simpl.
  intros i r' Hlook.
  destruct (list_find _ (store w)) as [[j r0]|] eqn:Hfind.
  - apply list_find_Some in Hfind as (Hj & Hk & _).
    destruct (decide (i = j)) as [->|Hne].
    + rewrite list_lookup_insert_eq in Hlook
        by (eapply lookup_lt_Some; eassumption).
      injection Hlook as <-. right. split; [reflexivity|apply Hk].
    + rewrite list_lookup_insert_ne in Hlook by congruence. auto.
  - apply lookup_app_Some in Hlook as [Hl|[_ Hl]]; [auto|].
    destruct (i - length (store w))%nat; [|discriminate].
    injection Hl as <-. right. split; reflexivity.
Qed.

Lemma translate_language_effect dt dn api_key source_language vid fields tl w :
  job_effect [tl] w
    (exec (translate_language E dt dn api_key source_language vid fields tl) w).
Proof.
  unfold exec. rewrite translate_language_is_try.
  unfold translate_language_try, translate_language_try_with, bind.
  fold (translate_fields E).
  destruct (translate_fields_run E api_key source_language tl fields [] w)
    as (acc' & w1 & -> & (Hs & Hq & Hc & Hr)).
  assert (Hsent : sends_only
            (fun rq => exists tl', tl' ∈ [tl] /\
                                   data_target_lang rq = PyStr.upper tl') w w1).
  { exists (requests_for api_key source_language tl fields).
    split; [assumption|]. unfold requests_for.
    apply Forall_fmap, Forall_forall. intros fv _. exists tl.
    split; [left|reflexivity]. }
  destruct acc' as [|p acc'].
  - split; [exact Hsent|]. intros i r' H. left. simpl in H. congruence.
  - split.
    + destruct Hsent as (new & Hnew & Hall). exists new.
      split; [|assumption].
      rewrite save_translation_to_store_run. simpl. exact Hnew.
    + intros i r' H.
      destruct (save_writes_only dt dn vid (PyStr.lower tl) (p :: acc') w1 i r' H)
        as [H'|[Hst Hl]].
      * left. congruence.
      * right. split; [assumption|]. exists tl. split; [left|assumption].
Qed.

Lemma translate_language_run dt dn api_key source_language vid fields tl w :
  translate_language E dt dn api_key source_language vid fields tl w
  = (Ok tt,
     exec (translate_language E dt dn api_key source_language vid fields tl) w).
Proof.
  pose proof (translate_language_try_returns E dt dn api_key source_language
                vid fields tl w) as Hok.
  unfold exec. rewrite translate_language_is_try. unfold eval in Hok.
  destruct (translate_language_try E _ _ _ _ _ _ _ w) as [res w'].
  simpl in *. rewrite Hok. reflexivity.
Qed.

Lemma for_each_language_effect dt dn api_key source_language vid fields
    langs all w :
  langs ⊆ all ->
  job_effect all w
    (exec (for_each langs
             (translate_language E dt dn api_key source_language vid fields)) w).
Proof.
  revert w. induction langs as [|tl langs IH]; intros w Hsub.
  - apply job_effect_refl; reflexivity.
  - unfold exec. cbn [for_each]. unfold bind at 1.
    rewrite translate_language_run.
    eapply job_effect_trans.
    + eapply job_effect_mono; [|apply translate_language_effect].
      intros x Hx. apply list_elem_of_singleton in Hx as ->.
      apply Hsub. left.
    + apply IH. intros x Hx. apply Hsub. right. exact Hx.
Qed.

Lemma get_version_id_frame doc w :
  exists vid w', get_version_id E doc w = (Ok vid, w') /\
                 store w' = store w /\ requests w' = requests w.
Proof.
  unfold get_version_id, bind, datetime_now, ret.
  destruct (py_getattr doc "modified") as [v|]; [destruct (truthy v)|];
    eexists _, _; (split; [reflexivity|split; reflexivity]).
Qed.

Lemma translate_to_all_languages_effect dt dn w :
  job_effect (configured_languages E) w
    (exec (translate_to_all_languages E dt dn) w).
Proof.
  unfold exec, translate_to_all_languages, translate_to_all_languages_with,
    try_except, translate_to_all_languages_try,
    translate_to_all_languages_try_with, bind at 1, frappe_get_doc.
  fold (translate_language E).
  destruct (list_find (doc_is dt dn) (site_documents E)) as [[k doc]|];
    [|apply job_effect_refl; reflexivity].
  unfold ret at 1. unfold bind at 1, get_translation_settings,
    configured_languages.
  destruct (site_settings E) as [st|e]; simpl;
    [|apply job_effect_refl; reflexivity].
  destruct (api_key st) as [[|c key]|];
    try (apply job_effect_refl; reflexivity).
  destruct (PyStr.is_empty (str_or (default_target_languages st) EmptyString));
    [apply job_effect_refl; reflexivity|].
  unfold bind at 1, db_get_value_map, ret at 1.
  destruct (list_find (map_is_for dt) (site_maps E)) as [[i m]|] eqn:Hfind;
    simpl; [|apply job_effect_refl; reflexivity].
  apply list_find_Some in Hfind as (Hi & _ & _).
  unfold bind at 1, frappe_get_map. rewrite Hi. unfold ret at 1.
  destruct (field_mappings m) as [|fm fms];
    [apply job_effect_refl; reflexivity|].
  destruct (fields_to_translate doc (fm :: fms)) as [|p fields];
    [apply job_effect_refl; reflexivity|].
  unfold bind at 1.
  destruct (get_version_id_frame doc w) as (vid & w1 & -> & Hs & Hr).
  match goal with
  | |- context [for_each ?l ?body w1] =>
      pose proof (for_each_language_effect dt dn (String c key)
                    (str_or (default_source_language st) "de") vid
                    (p :: fields) l l w1 (fun x H => H)) as Heff;
      unfold exec in Heff;
      destruct (for_each l body w1) as [[[]|e] w2]; simpl in *
  end.
  - eapply job_effect_trans; [apply job_effect_refl; eassumption|exact Heff].
  - eapply job_effect_trans; [apply job_effect_refl; eassumption|].
    eapply job_effect_trans; [exact Heff|].
    apply job_effect_refl; reflexivity.
Qed.
End JobEffect.

(** ** The end-to-end scenario *)

(** C1.  In the scenario of the specification the job sends one request
    for EN and one for FR; the FR request fails in transport, which
    [translate_text] logs and turns into [None]; the store ends with the
    single Completed row for [en], and no row at all for [fr]. *)
Theorem C1_scenario_store :
  let w' := exec (translate_to_all_languages Scenario.env "Article" "A1")
              Scenario.empty_world in
  eval (get_version_id Scenario.env Scenario.article) Scenario.empty_world
    = Ok Scenario.version
  /\ store w' = [Scenario.en_row]
  /\ data_target_lang <$> requests w' = ["EN"; "FR"]%string
  /\ error_log w' = ["DeepL API Request Error: Connection timed out"%string]
  /\ rows_with_key "Article" "A1" Scenario.version "fr" (store w') = []
  /\ rows_with_key "Article" "A1" Scenario.version "FR" (store w') = [].
Proof. vm_compute. repeat split. Qed.

Lemma C5_witness :
  store (exec (update_translation_status "Article" "A1" Scenario.version "fr"
                 "Failed") Scenario.empty_world)
  = [status_row "Article" "A1" Scenario.version "fr" "Failed"]
  /\
  exists i r,
    [Scenario.en_row] !! i = Some r /\
    store (exec (update_translation_status "Article" "A1" Scenario.version "en"
                   "Failed")
             (set_store [Scenario.en_row] Scenario.empty_world))
    = <[i := with_status "Failed" r]> [Scenario.en_row].
Proof.
  split.
  - apply (proj1 (C5_update_translation_status "Article" "A1" Scenario.version
                    "fr" "Failed" Scenario.empty_world)).
    constructor.
  - destruct (proj2 (C5_update_translation_status "Article" "A1"
                       Scenario.version "en" "Failed"
                       (set_store [Scenario.en_row] Scenario.empty_world)))
      as (i & r & Hi & _ & Hs).
    + constructor. repeat split.
    + exists i, r. split; [exact Hi|exact Hs].
Defined.

(* ===================================================================== *)
(** * Further properties *)
(* ===================================================================== *)

(** ** Lookups that a write under another key cannot disturb *)

Section FindOther.
Context {A : Type} (P : A -> Prop) `{!forall x, Decision (P x)}.

Lemma find_insert_other (l : list A) i x y :
  l !! i = Some x -> ~ P x -> ~ P y ->
  list_find P (<[i := y]> l) = list_find P l.
Proof.
  revert i. induction l as [|a l IH]; intros i Hi Hx Hy; [discriminate|].
  destruct i as [|j]; simpl in *.
  - injection Hi as ->. rewrite !decide_False by assumption. reflexivity.
  - destruct (decide (P a)); [reflexivity|]. erewrite IH; eauto.
Qed.

Lemma find_app_other (l : list A) y :
  ~ P y -> list_find P (l ++ [y]) = list_find P l.
Proof.
  intros Hy. induction l as [|a l IH]; simpl.
  - rewrite decide_False by assumption. reflexivity.
  - destruct (decide (P a)); [reflexivity|]. rewrite IH. reflexivity.
Qed.
End FindOther.

Lemma other_key_no_match dt dn vid lang dt' dn' vid' lang' r :
  (dt, dn, vid, lang) <> (dt', dn', vid', lang') ->
  row_has_key dt dn vid lang r -> ~ row_has_key dt' dn' vid' lang' r.
Proof.
  intros Hne (H1 & H2 & H3 & H4) (H1' & H2' & H3' & H4').
  apply Hne. congruence.
Qed.

(** ** get_translation_for_ui *)

Section ReaderFacts.
Variable json_loads : string -> json + exn.

Lemma get_translation_for_ui_run dt dn vid lang w :
  get_translation_for_ui json_loads dt dn vid lang w =
  match list_find (row_has_key dt dn vid lang) (store w) with
  | Some (_, r) => read_row json_loads r w
  | None => (Ok JNull, w)
  end.
Proof.
  unfold get_translation_for_ui, try_except, get_translation_for_ui_try, bind,
    db_get_value_store, read_row.
  destruct (list_find _ (store w)) as [[i r]|] eqn:Hfind; simpl; [|reflexivity].
  apply list_find_Some in Hfind as (Hi & _ & _).
  unfold frappe_get_store_doc. rewrite Hi.
  destruct (PyStr.is_empty (translated_content r)); simpl; [reflexivity|].
  destruct (json_loads (translated_content r)) as [j|e]; simpl; [reflexivity|].
  destruct (exn_cls e); reflexivity.
Qed.

Lemma read_row_same_store r w1 w2 :
  fst (read_row json_loads r w1) = fst (read_row json_loads r w2).
Proof.
  unfold read_row. destruct (PyStr.is_empty _); [reflexivity|].
  destruct (json_loads _) as [j|e]; [reflexivity|].
  destruct (exn_cls e); reflexivity.
Qed.
End ReaderFacts.

Section ReaderTheorems.
Variable E : Env.
Variable json_loads : string -> json + exn.
Variables dt dn vid lang : string.

Let key := row_has_key dt dn vid lang.
Let read := get_translation_for_ui json_loads dt dn vid lang.

(** X1.  The reader never raises and never writes: whatever the table
    holds, it returns a value and leaves the store, the queue, the
    request trace and the clock as they were.  It returns [None] without
    logging when no row carries the key, and when the first row that
    carries it has empty content; it returns the decoded content when
    decoding succeeds, and [None] when decoding raises. *)
Theorem get_translation_for_ui_only_reads w :
  (exists v, eval read w = Ok v)
  /\ only_logs w (exec read w)
  /\ (Forall (fun r => ~ key r) (store w) -> read w = (Ok JNull, w))
  /\ (forall i r, list_find key (store w) = Some (i, r) ->
        (translated_content r = EmptyString -> read w = (Ok JNull, w)) /\
        (forall j, translated_content r <> EmptyString ->
                   json_loads (translated_content r) = inl j ->
                   read w = (Ok j, w)) /\
        (forall e, json_loads (translated_content r) = inr e ->
                   eval read w = Ok JNull)).
Proof.
  unfold read, eval, exec. rewrite get_translation_for_ui_run. fold key.
  split; [|split; [|split]].
  - destruct (list_find key (store w)) as [[i r]|]; [|eauto].
    unfold read_row. destruct (PyStr.is_empty _); [eauto|].
    destruct (json_loads _) as [j|e]; [eauto|]. destruct (exn_cls e); eauto.
  - destruct (list_find key (store w)) as [[i r]|]; [|repeat split].
    unfold read_row. destruct (PyStr.is_empty _); [repeat split|].
    destruct (json_loads _) as [j|e]; [repeat split|].
    destruct (exn_cls e); repeat split.
  - intros Hno. rewrite (proj2 (list_find_None key (store w)) Hno). reflexivity.
  - intros i r ->. unfold read_row. split; [|split].
    + intros ->. reflexivity.
    + intros j Hne Hj. destruct (translated_content r); [contradiction|].
      simpl. rewrite Hj. reflexivity.
    + intros e He. destruct (PyStr.is_empty _); [reflexivity|].
      rewrite He. destruct (exn_cls e); reflexivity.
Qed.

(** X2.  What [save_translation_to_store] writes under a key is what the
    reader returns for that key, whatever the table held before, provided
    the decoder inverts the encoder on that content. *)
Theorem saved_translation_is_read_back content w :
  json_loads (Json.dumps (JObj content)) = inl (JObj content) ->
  let w' := exec (save_translation_to_store E dt dn vid lang content) w in
  read w' = (Ok (JObj content), w').
Proof.
  intros Hloads w'. unfold read. rewrite get_translation_for_ui_run.
  assert (Hfind : exists i r,
            list_find key (store w') = Some (i, r) /\
            translated_content r = Json.dumps (JObj content)).
  { unfold w', exec. rewrite save_translation_to_store_run. simpl. fold key.
    destruct (list_find key (store w)) as [[i r]|] eqn:Hf.
    - exists i, (completed r content (clock E (clock_reads w))). split; [|reflexivity].
      eapply find_after_insert; [eassumption|].
      apply list_find_Some in Hf as (_ & Hk & _). exact Hk.
    - exists (length (store w)),
        (completed_row dt dn vid lang content (clock E (clock_reads w))).
      split; [|reflexivity].
      apply find_after_append; [assumption|repeat split]. }
  destruct Hfind as (i & r & Hf & Hc). fold key. rewrite Hf.
  unfold read_row. rewrite Hc, Hloads. reflexivity.
Qed.

(** X3.  A write under one key never changes what the reader returns for
    another key: neither writer can disturb the translation stored for a
    different document, version or language. *)
Theorem writes_leave_other_keys_alone dt' dn' vid' lang' content status w :
  (dt', dn', vid', lang') <> (dt, dn, vid, lang) ->
  eval read (exec (save_translation_to_store E dt' dn' vid' lang' content) w)
    = eval read w
  /\
  eval read (exec (update_translation_status dt' dn' vid' lang' status) w)
    = eval read w.
Proof.
  intros Hne.
  assert (Hother : forall r, row_has_key dt' dn' vid' lang' r -> ~ key r)
    by (intros r; apply other_key_no_match; exact Hne).
  unfold read, eval, exec.
  rewrite !get_translation_for_ui_run, save_translation_to_store_run,
    update_translation_status_run. simpl. fold key.
  destruct (list_find (row_has_key dt' dn' vid' lang') (store w))
    as [[i r]|] eqn:Hf.
  - apply list_find_Some in Hf as (Hi & Hk & _).
    rewrite !(find_insert_other key (store w) i r) by (auto; apply Hother, Hk).
    destruct (list_find key (store w)) as [[j r0]|]; [|split; reflexivity].
    split; apply read_row_same_store.
  - rewrite !find_app_other by (apply Hother; repeat split).
    destruct (list_find key (store w)) as [[j r0]|]; [|split; reflexivity].
    split; apply read_row_same_store.
Qed.

(** X4.  Marking a status never changes what the reader returns for a key
    that a row already carries; for a key that no row carried, the reader
    afterwards returns what the decoder makes of ["{}"]. *)
Theorem status_mark_keeps_content status w :
  let w' := exec (update_translation_status dt dn vid lang status) w in
  (Exists key (store w) -> eval read w' = eval read w)
  /\
  (Forall (fun r => ~ key r) (store w) ->
   forall j, json_loads "{}" = inl j -> eval read w' = Ok j).
Proof.
  intros w'. unfold w', read, eval, exec.
  rewrite !get_translation_for_ui_run, update_translation_status_run. simpl.
  fold key. split.
  - intros Hex.
    destruct (list_find key (store w)) as [[i r]|] eqn:Hf.
    + erewrite find_after_insert; [|eassumption|].
      * unfold read_row. simpl.
        destruct (PyStr.is_empty _); [reflexivity|].
        destruct (json_loads _) as [j|e]; [reflexivity|].
        destruct (exn_cls e); reflexivity.
      * apply list_find_Some in Hf as (_ & Hk & _). exact Hk.
    + apply list_find_None in Hf. apply Exists_exists in Hex as (r & Hin & Hr).
      rewrite Forall_forall in Hf. exfalso. eapply Hf; eassumption.
  - intros Hno j Hj.
    rewrite (proj2 (list_find_None key (store w)) Hno).
    erewrite find_after_append;
      [|apply list_find_None; exact Hno|repeat split].
    unfold read_row. simpl. rewrite Hj. reflexivity.
Qed.

End ReaderTheorems.

(** ** The identity column of the table *)

Lemma row_has_key_key_of dt dn vid lang r :
  row_has_key dt dn vid lang r <-> key_of r = (dt, dn, vid, lang).
Proof.
  unfold row_has_key, key_of. split.
  - intros (-> & -> & -> & ->). reflexivity.
  - intros [= -> -> -> ->]. repeat split.
Qed.

Lemma key_column_insert_same (s : list Row) i r r' :
  s !! i = Some r -> key_of r' = key_of r ->
  key_of <$> <[i := r']> s = key_of <$> s.
Proof.
  intros Hi Hk. rewrite list_fmap_insert, Hk.
  apply list_insert_id. rewrite list_lookup_fmap, Hi. reflexivity.
Qed.

Lemma key_absent dt dn vid lang (s : list Row) :
  list_find (row_has_key dt dn vid lang) s = None ->
  (dt, dn, vid, lang) ∉ key_of <$> s.
Proof.
  intros Hf Hin. apply list_find_None in Hf.
  apply list_elem_of_fmap in Hin as (r & Hk & Hr).
  rewrite Forall_forall in Hf. apply (Hf r Hr).
  apply row_has_key_key_of. symmetry. exact Hk.
Qed.

(** The step both writers make on the identity column. *)
Lemma key_column_step dt dn vid lang (s : list Row) (upd : Row -> Row) new :
  (forall r, key_of (upd r) = key_of r) ->
  key_of new = (dt, dn, vid, lang) ->
  let s' := match list_find (row_has_key dt dn vid lang) s with
            | Some (i, r) => <[i := upd r]> s
            | None => s ++ [new]
            end in
  key_of <$> s'
  = (key_of <$> s) ++
    (if decide (Exists (row_has_key dt dn vid lang) s) then []
     else [(dt, dn, vid, lang)])
  /\ (unique_keys s -> unique_keys s').
Proof.
  intros Hupd Hnew. simpl.
  destruct (list_find _ s) as [[i r]|] eqn:Hf.
  - pose proof Hf as Hf'. apply list_find_Some in Hf' as (Hi & Hk & _).
    rewrite decide_True.
    2:{ apply Exists_exists. exists r. split; [|assumption].
        eapply list_elem_of_lookup_2; eassumption. }
    rewrite app_nil_r.
    assert (Hcol : key_of <$> <[i := upd r]> s = key_of <$> s)
      by (eapply key_column_insert_same; eauto).
    split; [exact Hcol|]. unfold unique_keys. rewrite Hcol. auto.
  - rewrite decide_False.
    2:{ intros Hex. apply Exists_exists in Hex as (r & Hin & Hr).
        apply list_find_None in Hf. rewrite Forall_forall in Hf.
        eapply Hf; eassumption. }
    unfold unique_keys.
    rewrite fmap_app. simpl. rewrite Hnew. split; [reflexivity|].
    intros Hnd.
    apply NoDup_app. split; [assumption|]. split.
    + intros k Hk Hk'. apply list_elem_of_singleton in Hk' as ->.
      eapply key_absent; eassumption.
    + apply NoDup_singleton.
Qed.

(** X6.  Neither writer deletes a row, changes the identity of a row or
    duplicates one: the identity column of the table afterwards is the old
    column, followed by the key written when no row carried it; and a
    table in which no two rows share an identity stays such a table. *)
Theorem writers_keep_unique_keys E dt dn vid lang content status w :
  let grown :=
    if decide (Exists (row_has_key dt dn vid lang) (store w))
    then [] else [(dt, dn, vid, lang)] in
  let saved := store (exec (save_translation_to_store E dt dn vid lang content) w) in
  let marked := store (exec (update_translation_status dt dn vid lang status) w) in
  key_of <$> saved = (key_of <$> store w) ++ grown
  /\ key_of <$> marked = (key_of <$> store w) ++ grown
  /\ (unique_keys (store w) -> unique_keys saved /\ unique_keys marked).
Proof.
  unfold exec.
  rewrite save_translation_to_store_run, update_translation_status_run. simpl.
  destruct (key_column_step dt dn vid lang (store w)
              (fun r => completed r content (clock E (clock_reads w)))
              (completed_row dt dn vid lang content (clock E (clock_reads w)))
              (fun r => eq_refl) eq_refl) as [Hs Hsu].
  destruct (key_column_step dt dn vid lang (store w) (with_status status)
              (status_row dt dn vid lang status)
              (fun r => eq_refl) eq_refl) as [Hm Hmu].
  split; [exact Hs|]. split; [exact Hm|]. auto.
Qed.

(** ** What a run of the job keeps *)

Lemma job_keeps_refl dt dn vid w w' :
  store w' = store w -> queue w' = queue w -> job_keeps dt dn vid w w'.
Proof.
  intros Hs Hq. unfold job_keeps. rewrite Hs. split; [assumption|].
  split; [exists []; rewrite !app_nil_r; auto|]. split; [auto|].
  intros i r' H. left. exact H.
Qed.

Lemma job_keeps_trans dt dn vid w1 w2 w3 :
  job_keeps dt dn vid w1 w2 -> job_keeps dt dn vid w2 w3 ->
  job_keeps dt dn vid w1 w3.
Proof.
  intros (Hq1 & (g1 & Hk1 & He1) & Hu1 & Hr1) (Hq2 & (g2 & Hk2 & He2) & Hu2 & Hr2).
  split; [congruence|]. split; [|split].
  - exists (g1 ++ g2). rewrite Hk2, Hk1, He2, He1, length_app, replicate_add.
    rewrite <- !app_assoc. auto.
  - auto.
  - intros i r' H. destruct (Hr2 i r' H) as [H'|H']; [apply Hr1, H'|auto].
Qed.

Section JobKeeps.
Variable E : Env.

Lemma save_keeps dt dn vid lang content w :
  job_keeps dt dn vid w
    (exec (save_translation_to_store E dt dn vid lang content) w).
Proof.
  unfold job_keeps, exec. rewrite save_translation_to_store_run. simpl.
  destruct (key_column_step dt dn vid lang (store w)
              (fun r => completed r content (clock E (clock_reads w)))
              (completed_row dt dn vid lang content (clock E (clock_reads w)))
              (fun r => eq_refl) eq_refl) as [Hcol Huniq].
  split; [reflexivity|]. split; [|split; [exact Huniq|]].
  - eexists. split; [exact Hcol|].
    destruct (list_find _ (store w)) as [[i r]|] eqn:Hf.
    + apply list_find_Some in Hf as (Hi & Hk & _).
      rewrite decide_True.
      2:{ apply Exists_exists. exists r. split; [|assumption].
          eapply list_elem_of_lookup_2; eassumption. }
      simpl. rewrite app_nil_r.
      eapply edit_mode_insert_same; [eassumption|reflexivity].
    + rewrite decide_False.
      2:{ intros Hex. apply Exists_exists in Hex as (r & Hin & Hr).
          apply list_find_None in Hf. rewrite Forall_forall in Hf.
          eapply Hf; eassumption. }
      rewrite fmap_app. reflexivity.
  - intros i r' Hlook.
    destruct (list_find _ (store w)) as [[j r0]|] eqn:Hf.
    + apply list_find_Some in Hf as (Hj & (H1 & H2 & H3 & _) & _).
      destruct (decide (i = j)) as [->|Hne].
      * rewrite list_lookup_insert_eq in Hlook
          by (eapply lookup_lt_Some; eassumption).
        injection Hlook as <-. right. auto.
      * rewrite list_lookup_insert_ne in Hlook by congruence. auto.
    + apply lookup_app_Some in Hlook as [Hl|[_ Hl]]; [auto|].
      destruct (i - length (store w))%nat; [|discriminate].
      injection Hl as <-. right. repeat split.
Qed.

Lemma translate_language_keeps dt dn api_key source_language vid fields tl w :
  job_keeps dt dn vid w
    (exec (translate_language E dt dn api_key source_language vid fields tl) w).
Proof.
  unfold exec. rewrite translate_language_is_try.
  unfold translate_language_try, translate_language_try_with, bind.
  fold (translate_fields E).
  destruct (translate_fields_run E api_key source_language tl fields [] w)
    as (acc' & w1 & -> & (Hs & Hq & _ & _)).
  destruct acc' as [|p acc'].
  - apply job_keeps_refl; assumption.
  - eapply job_keeps_trans; [apply job_keeps_refl; eassumption|].
    apply save_keeps.
Qed.

Lemma for_each_language_keeps dt dn api_key source_language vid fields langs w :
  job_keeps dt dn vid w
    (exec (for_each langs
             (translate_language E dt dn api_key source_language vid fields)) w).
Proof.
  revert w. induction langs as [|tl langs IH]; intros w.
  - apply job_keeps_refl; reflexivity.
  - unfold exec. cbn [for_each]. unfold bind at 1.
    rewrite translate_language_run.
    eapply job_keeps_trans; [apply translate_language_keeps|apply IH].
Qed.

Lemma get_version_id_quiet doc w :
  exists vid w', get_version_id E doc w = (Ok vid, w') /\
                 store w' = store w /\ queue w' = queue w /\
                 requests w' = requests w /\ error_log w' = error_log w.
Proof.
  unfold get_version_id, bind, datetime_now, ret.
  destruct (py_getattr doc "modified") as [v|]; [destruct (truthy v)|];
    eexists _, _; (split; [reflexivity|repeat split]).
Qed.

Lemma translate_to_all_languages_keeps dt dn w :
  exists vid,
    (forall k doc,
       list_find (doc_is dt dn) (site_documents E) = Some (k, doc) ->
       eval (get_version_id E doc) w = Ok vid)
    /\ job_keeps dt dn vid w (exec (translate_to_all_languages E dt dn) w).
Proof.
  unfold exec, translate_to_all_languages, translate_to_all_languages_with,
    try_except, translate_to_all_languages_try,
    translate_to_all_languages_try_with, bind at 1, frappe_get_doc.
  fold (translate_language E).
  destruct (list_find (doc_is dt dn) (site_documents E)) as [[k doc]|].
  2:{ exists EmptyString. split; [discriminate|].
      apply job_keeps_refl; reflexivity. }
  destruct (get_version_id_quiet doc w) as (vid & w1 & Hrun & Hs & Hq & _ & _).
  exists vid. split.
  { intros k' doc' [= <- <-]. unfold eval. rewrite Hrun. reflexivity. }
  unfold ret at 1. unfold bind at 1, get_translation_settings.
  destruct (site_settings E) as [st|e]; simpl;
    [|apply job_keeps_refl; reflexivity].
  destruct (api_key st) as [[|c key]|];
    try (apply job_keeps_refl; reflexivity).
  destruct (PyStr.is_empty (str_or (default_target_languages st) EmptyString));
    [apply job_keeps_refl; reflexivity|].
  unfold bind at 1, db_get_value_map, ret at 1.
  destruct (list_find (map_is_for dt) (site_maps E)) as [[i m]|] eqn:Hfind;
    simpl; [|apply job_keeps_refl; reflexivity].
  apply list_find_Some in Hfind as (Hi & _ & _).
  unfold bind at 1, frappe_get_map. rewrite Hi. unfold ret at 1.
  destruct (field_mappings m) as [|fm fms];
    [apply job_keeps_refl; reflexivity|].
  destruct (fields_to_translate doc (fm :: fms)) as [|p fields];
    [apply job_keeps_refl; reflexivity|].
  unfold bind at 1. rewrite Hrun.
  match goal with
  | |- context [for_each ?l ?body w1] =>
      pose proof (for_each_language_keeps dt dn (String c key)
                    (str_or (default_source_language st) "de") vid
                    (p :: fields) l w1) as Hkeep;
      unfold exec in Hkeep;
      destruct (for_each l body w1) as [[[]|e] w2]; simpl in *
  end.
  - eapply job_keeps_trans; [apply job_keeps_refl; eassumption|exact Hkeep].
  - eapply job_keeps_trans; [apply job_keeps_refl; eassumption|].
    eapply job_keeps_trans; [exact Hkeep|].
    apply job_keeps_refl; reflexivity.
Qed.
End JobKeeps.

(** X7.  A run of the job never enqueues anything, never deletes a row or
    changes the identity or the [edit_mode] flag of one, and inserts rows
    only with [edit_mode] off; a table in which no two rows share an
    identity stays such a table. *)
Theorem job_keeps_table_invariants E dt dn w :
  let w' := exec (translate_to_all_languages E dt dn) w in
  queue w' = queue w
  /\ (exists grown,
        key_of <$> store w' = (key_of <$> store w) ++ grown /\
        edit_mode <$> store w'
        = (edit_mode <$> store w) ++ replicate (length grown) false)
  /\ (unique_keys (store w) -> unique_keys (store w')).
Proof.
  destruct (translate_to_all_languages_keeps E dt dn w)
    as (vid & _ & Hq & Hcols & Hu & _).
  auto.
Qed.

(** X8.  The version id is computed once per run: every row that a run
    writes or rewrites carries the doctype and the name the job was
    called with and one and the same version id, the one
    [get_version_id] gives for the document when the run starts. *)
Theorem job_rows_carry_one_version E dt dn w k doc :
  list_find (doc_is dt dn) (site_documents E) = Some (k, doc) ->
  exists vid,
    eval (get_version_id E doc) w = Ok vid /\
    forall i r',
      store (exec (translate_to_all_languages E dt dn) w) !! i = Some r' ->
      store w !! i = Some r' \/
      (parent_doctype r' = dt /\ parent_name r' = dn /\ version_id r' = vid).
Proof.
  intros Hdoc.
  destruct (translate_to_all_languages_keeps E dt dn w)
    as (vid & Hvid & _ & _ & _ & Hrows).
  exists vid. split; [eapply Hvid; exact Hdoc|exact Hrows].
Qed.

(** ** The requests of a run *)

Section JobRequests.
Variable E : Env.

Lemma translate_language_requests dt dn api_key source_language vid fields tl w :
  requests (exec (translate_language E dt dn api_key source_language vid
                    fields tl) w)
  = requests w ++ requests_for api_key source_language tl fields.
Proof.
  unfold exec. rewrite translate_language_is_try.
  unfold translate_language_try, translate_language_try_with, bind.
  fold (translate_fields E).
  destruct (translate_fields_run E api_key source_language tl fields [] w)
    as (acc' & w1 & -> & (_ & _ & _ & Hr)).
  destruct acc' as [|p acc']; [exact Hr|].
  rewrite save_translation_to_store_run. exact Hr.
Qed.

Lemma for_each_language_requests dt dn api_key source_language vid fields
    langs w :
  requests (exec (for_each langs
                    (translate_language E dt dn api_key source_language vid
                       fields)) w)
  = requests w ++ job_requests api_key source_language langs fields.
Proof.
  revert w. induction langs as [|tl langs IH]; intros w.
  - unfold job_requests. simpl. rewrite app_nil_r. reflexivity.
  - unfold exec. cbn [for_each]. unfold bind at 1.
    rewrite translate_language_run.
    fold (exec (for_each langs
                  (translate_language E dt dn api_key source_language vid fields))
            (exec (translate_language E dt dn api_key source_language vid
                     fields tl) w)).
    rewrite IH, translate_language_requests, <- app_assoc. reflexivity.
Qed.

Lemma job_requests_length api_key source_language langs fields :
  length (job_requests api_key source_language langs fields)
  = (length langs * length fields)%nat.
Proof.
  unfold job_requests.
  induction langs as [|tl langs IH]; [reflexivity|].
  rewrite fmap_cons, concat_cons, length_app, IH.
  unfold requests_for. rewrite length_fmap. reflexivity.
Qed.

Lemma for_each_language_run dt dn api_key source_language vid fields langs w :
  for_each langs (translate_language E dt dn api_key source_language vid fields) w
  = (Ok tt,
     exec (for_each langs
             (translate_language E dt dn api_key source_language vid fields)) w).
Proof.
  revert w. induction langs as [|tl langs IH]; intros w; [reflexivity|].
  unfold exec. cbn [for_each]. unfold bind.
  rewrite translate_language_run, IH. reflexivity.
Qed.

(** The job on a configured site, up to the loop over the languages. *)
Lemma configured_job_run dt dn doc st key fms w :
  job_configured E dt dn doc st key fms ->
  exists vid w1,
    get_version_id E doc w = (Ok vid, w1) /\
    exec (translate_to_all_languages E dt dn) w
    = exec (for_each
              (target_languages_of
                 (str_or (default_target_languages st) EmptyString))
              (translate_language E dt dn key
                 (str_or (default_source_language st) "de") vid
                 (fields_to_translate doc fms))) w1.
Proof.
  intros ((k & Hdoc) & Hst & Hkey & Hkne & Hlangs & (m & Hmap & Hfms) & Hne & Hf).
  destruct (get_version_id_quiet E doc w) as (vid & w1 & Hrun & _).
  exists vid, w1. split; [exact Hrun|].
  unfold exec, translate_to_all_languages, translate_to_all_languages_with,
    try_except, translate_to_all_languages_try,
    translate_to_all_languages_try_with, bind at 1, frappe_get_doc.
  fold (translate_language E).
  rewrite Hdoc. unfold ret at 1. unfold bind at 1, get_translation_settings.
  rewrite Hst. simpl. rewrite Hkey.
  destruct key as [|c key]; [contradiction|].
  destruct (str_or (default_target_languages st) EmptyString) as [|c' s] eqn:Hs;
    [contradiction|]. simpl.
  unfold bind at 1, db_get_value_map, ret at 1.
  unfold active_map in Hmap.
  destruct (list_find (map_is_for dt) (site_maps E)) as [[i m']|] eqn:Hfind;
    [|discriminate]. simpl in Hmap. injection Hmap as ->. simpl.
  apply list_find_Some in Hfind as (Hi & _ & _).
  unfold bind at 1, frappe_get_map. rewrite Hi. unfold ret at 1.
  rewrite Hfms. destruct fms as [|fm fms]; [contradiction|].
  destruct (fields_to_translate doc (fm :: fms)) as [|p fields] eqn:Hfields;
    [contradiction|].
  unfold bind at 1. rewrite Hrun, for_each_language_run. reflexivity.
Qed.
End JobRequests.

(** X9.  On a configured site the job calls the provider once for every
    pair of a target language and a field to translate, language by
    language and, within a language, field by field in the order of the
    field mappings: nothing is batched, retried or skipped.  When the
    target-language string holds only separators and blanks the run is
    silent: no request, no row and no log entry. *)
Theorem configured_job_requests E dt dn doc st key fms w :
  job_configured E dt dn doc st key fms ->
  let w' := exec (translate_to_all_languages E dt dn) w in
  let langs :=
    target_languages_of (str_or (default_target_languages st) EmptyString) in
  let fields := fields_to_translate doc fms in
  requests w'
  = requests w ++
    job_requests key (str_or (default_source_language st) "de") langs fields
  /\ length (requests w')
     = (length (requests w) + length langs * length fields)%nat
  /\ (langs = [] ->
      store w' = store w /\ requests w' = requests w /\
      error_log w' = error_log w).
Proof.
  intros Hconf w' langs fields.
  destruct (configured_job_run E dt dn doc st key fms w Hconf)
    as (vid & w1 & Hrun & Hexec).
  destruct (get_version_id_quiet E doc w)
    as (vid' & w1' & Hrun' & Hs & _ & Hr & Hl).
  rewrite Hrun in Hrun'. injection Hrun' as <- <-.
  assert (Hreq : requests w'
                 = requests w ++
                   job_requests key (str_or (default_source_language st) "de")
                     langs fields).
  { unfold w'. rewrite Hexec, for_each_language_requests, Hr. reflexivity. }
  split; [exact Hreq|]. split.
  - rewrite Hreq, length_app, job_requests_length. reflexivity.
  - intros Hnone. unfold w'. rewrite Hexec. fold langs. rewrite Hnone.
    unfold exec. simpl. auto.
Qed.

Lemma configured_job_requests_witness :
  data_target_lang <$>
    requests (exec (translate_to_all_languages Scenario.env "Article" "A1")
                Scenario.empty_world)
  = ["EN"; "FR"]%string.
Proof.
  destruct (configured_job_requests Scenario.env "Article" "A1"
              Scenario.article Scenario.settings "K"
              (field_mappings Scenario.article_map) Scenario.empty_world)
    as (Hreq & _ & _).
  - split; [exists 0%nat; reflexivity|].
    repeat split; try discriminate.
    exists Scenario.article_map. split; reflexivity.
  - rewrite Hreq. reflexivity.
Defined.

Section Unconfigured.
Variable E : Env.

Lemma log_error_logs_only msg w : logs_only w (exec (log_error msg) w).
Proof.
  split; [repeat split|]. exists [msg]. split; [discriminate|reflexivity].
Qed.

(** X10.  Unless the site is configured for the document, the job is an
    error report and nothing else: it sends no request, writes no row,
    enqueues nothing, does not read the clock, and appends at least one
    entry to the error log. *)
Theorem unconfigured_job_only_logs dt dn w :
  (forall doc st key fms, ~ job_configured E dt dn doc st key fms) ->
  let w' := exec (translate_to_all_languages E dt dn) w in
  only_logs w w' /\
  exists msgs, msgs <> [] /\ error_log w' = error_log w ++ msgs.
Proof.
  intros Hnot. simpl. fold (logs_only w (exec (translate_to_all_languages E dt dn) w)).
  unfold exec, translate_to_all_languages, translate_to_all_languages_with,
    try_except, translate_to_all_languages_try,
    translate_to_all_languages_try_with, bind at 1, frappe_get_doc.
  fold (translate_language E).
  destruct (list_find (doc_is dt dn) (site_documents E)) as [[k doc]|] eqn:Hdoc;
    [|apply log_error_logs_only].
  unfold ret at 1. unfold bind at 1, get_translation_settings.
  destruct (site_settings E) as [st|e] eqn:Hst; simpl.
  2:{ split; [repeat split|]. eexists [_; _]. split; [discriminate|].
      rewrite <- app_assoc. reflexivity. }
  destruct (api_key st) as [[|c key]|] eqn:Hkey;
    try apply log_error_logs_only.
  destruct (str_or (default_target_languages st) EmptyString) as [|c' s] eqn:Hs;
    [apply log_error_logs_only|]. simpl.
  unfold bind at 1, db_get_value_map, ret at 1.
  destruct (list_find (map_is_for dt) (site_maps E)) as [[i m]|] eqn:Hfind;
    simpl; [|apply log_error_logs_only].
  pose proof Hfind as Hlook. apply list_find_Some in Hlook as (Hi & _ & _).
  unfold bind at 1, frappe_get_map. rewrite Hi. unfold ret at 1.
  destruct (field_mappings m) as [|fm fms] eqn:Hfms;
    [apply log_error_logs_only|].
  destruct (fields_to_translate doc (fm :: fms)) as [|p fields] eqn:Hfields;
    [apply log_error_logs_only|].
  exfalso. apply (Hnot doc st (String c key) (fm :: fms)).
  split; [eauto|]. repeat split; try assumption; try discriminate.
  - rewrite Hs. discriminate.
  - exists m. unfold active_map. rewrite Hfind. auto.
  - rewrite Hfields. discriminate.
Qed.
End Unconfigured.

Lemma unconfigured_job_only_logs_witness :
  store (exec (translate_to_all_languages Scenario.env "Article" "A9")
           Scenario.empty_world) = []
  /\ requests (exec (translate_to_all_languages Scenario.env "Article" "A9")
                 Scenario.empty_world) = [].
Proof.
  destruct (unconfigured_job_only_logs Scenario.env "Article" "A9"
              Scenario.empty_world) as ((Hs & _ & Hr & _) & _).
  - intros doc st key fms ((k & Hdoc) & _). vm_compute in Hdoc. discriminate.
  - split; assumption.
Defined.

(** X11.  A run of the job leaves every row of another document, of
    another version of the document, or of a language that is not
    configured exactly as it was: translations of earlier revisions are
    never rewritten by a run for a later one. *)
Theorem job_leaves_other_rows_alone E dt dn w k doc vid i r :
  list_find (doc_is dt dn) (site_documents E) = Some (k, doc) ->
  eval (get_version_id E doc) w = Ok vid ->
  store w !! i = Some r ->
  (parent_doctype r, parent_name r, version_id r) <> (dt, dn, vid)
  \/ language r ∉ PyStr.lower <$> configured_languages E ->
  store (exec (translate_to_all_languages E dt dn) w) !! i = Some r.
Proof.
  intros Hdoc Hvid Hi Hother.
  destruct (translate_to_all_languages_keeps E dt dn w)
    as (vid0 & Hvid0 & _ & (grown & Hcol & _) & _ & Hrows).
  rewrite (Hvid0 k doc Hdoc) in Hvid. injection Hvid as ->.
  destruct (translate_to_all_languages_effect E dt dn w) as [_ Hwrites].
  assert (Hkey : (key_of <$> store (exec (translate_to_all_languages E dt dn) w))
                   !! i = Some (key_of r)).
  { rewrite Hcol. apply lookup_app_l_Some.
    rewrite list_lookup_fmap, Hi. reflexivity. }
  rewrite list_lookup_fmap in Hkey.
  destruct (store (exec (translate_to_all_languages E dt dn) w) !! i)
    as [r'|] eqn:Hi'; [|discriminate].
  simpl in Hkey. assert (Hk : key_of r' = key_of r) by congruence. clear Hkey.
  destruct (Hrows i r' Hi') as [Hsame|(Hdt & Hdn & Hv)]; [congruence|].
  destruct (Hwrites i r' Hi') as [Hsame|(_ & tl & Hin & Hl)]; [congruence|].
  exfalso. unfold key_of in Hk. injection Hk as K1 K2 K3 K4.
  destruct Hother as [Hne|Hlang].
  - apply Hne. congruence.
  - apply Hlang. apply list_elem_of_fmap. exists tl. split; [congruence|assumption].
Qed.

Lemma job_leaves_other_rows_alone_witness :
  store (exec (translate_to_all_languages Scenario.env "Article" "A1")
           (set_store [status_row "Article" "A1" "A1_0123456789ab" "en" "Failed"]
              Scenario.empty_world)) !! 0%nat
  = Some (status_row "Article" "A1" "A1_0123456789ab" "en" "Failed").
Proof.
  apply (job_leaves_other_rows_alone Scenario.env "Article" "A1"
           (set_store [status_row "Article" "A1" "A1_0123456789ab" "en" "Failed"]
              Scenario.empty_world)
           0%nat Scenario.article Scenario.version).
  - reflexivity.
  - vm_compute. reflexivity.
  - reflexivity.
  - left. discriminate.
Defined.

(** ** Effects of one provider call *)

(** X12.  Every call of [translate_text] sends exactly one request, the
    one built from its arguments with both language codes upper-cased and
    a timeout of 30, and does nothing to the store, the queue or the
    clock.  It logs at most one entry: the transport or other error when
    [requests.post] raises, the status and body when the response is not
    200, and nothing at all when a 200 response decodes to an object
    whose [translations] are missing or an empty list. *)
Theorem translate_text_sends_once E api_key text source_lang target_lang w :
  let rq := translate_text_request api_key text source_lang target_lang in
  let out := http_post E (length (requests w)) rq in
  let w' := exec (translate_text E api_key text source_lang target_lang) w in
  (store w' = store w /\ queue w' = queue w /\
   clock_reads w' = clock_reads w /\ requests w' = requests w ++ [rq])
  /\ (data_source_lang rq = PyStr.upper source_lang /\
      data_target_lang rq = PyStr.upper target_lang /\ timeout rq = 30)
  /\ (exists logs, error_log w' = error_log w ++ logs /\ (length logs <= 1)%nat)
  /\ (forall e, out = HttpRaise e ->
        error_log w'
        = error_log w ++
          [match exn_cls e with
           | RequestException => "DeepL API Request Error: " +:+ exn_msg e
           | _ => "Error in translate_text: " +:+ exn_msg e
           end])
  /\ (forall r, out = HttpReply r -> status_code r <> 200 ->
        error_log w'
        = error_log w ++
          ["DeepL API Error: " +:+ PyStr.of_int (status_code r) +:+ " - "
           +:+ response_text r])
  /\ (forall r d, out = HttpReply r -> status_code r = 200 ->
        json_body r = Some (JObj d) ->
        Dict.get "translations" d = None \/
        Dict.get "translations" d = Some (JArr []) ->
        error_log w' = error_log w).
Proof.
  intros rq out w'.
  split; [apply translate_text_only_sends|]. split; [repeat split|].
  unfold w', out, rq, exec, translate_text, try_except, translate_text_try,
    bind, requests_post.
  destruct (http_post E _ _) as [e|r]; simpl.
  - split; [|split; [|split; [|intros; discriminate]]].
    + unfold translate_text_except, bind.
      destruct (exn_cls e); simpl; eexists [_]; split; reflexivity || auto.
    + intros e' [= <-]. unfold translate_text_except, bind.
      destruct (exn_cls e); reflexivity.
    + intros; discriminate.
  - destruct (status_code r =? 200) eqn:Hs.
    + apply Z.eqb_eq in Hs. split; [|split; [discriminate|split]].
      * unfold response_json.
        destruct (json_body r) as [[| | | |l|d]|]; simpl;
          try (eexists [_]; split; [reflexivity|auto]).
        -- destruct (PyStr.contains _ _); simpl;
             [eexists [_]|exists []; rewrite app_nil_r]; split; reflexivity || auto.
        -- destruct (existsb _ l); simpl;
             [eexists [_]|exists []; rewrite app_nil_r]; split; reflexivity || auto.
        -- unfold Dict.mem.
           destruct (Dict.get "translations" d) as [[| | |s|[|x l]|[|p d']]|];
             simpl;
             try (eexists [_]; split; [reflexivity|auto]);
             try (exists []; rewrite app_nil_r; split; [reflexivity|auto]).
           ++ destruct s; simpl;
                [exists []; rewrite app_nil_r|eexists [_]]; split; reflexivity || auto.
           ++ destruct x; simpl;
                try (eexists [_]; split; [reflexivity|auto]);
                exists []; rewrite app_nil_r; split; reflexivity || auto.
      * intros r' [= <-] Hne. contradiction.
      * intros r' d [= <-] _ Hb Ht. unfold response_json. rewrite Hb. simpl.
        unfold Dict.mem. destruct Ht as [-> | ->]; reflexivity.
    + split; [|split; [discriminate|split]].
      * simpl. eexists [_]. split; [reflexivity|auto].
      * intros r' [= <-] _. reflexivity.
      * intros r' d [= <-] H200. apply Z.eqb_neq in Hs. contradiction.
Qed.

Lemma translate_text_sends_once_witness :
  error_log (exec (translate_text Scenario.env "K" "Hallo" "de" "FR")
               Scenario.empty_world)
  = ["DeepL API Request Error: Connection timed out"%string].
Proof.
  apply (proj1 (proj2 (proj2 (proj2
           (translate_text_sends_once Scenario.env "K" "Hallo" "de" "FR"
              Scenario.empty_world))))
           (Exn RequestException "Connection timed out") eq_refl).
Defined.

(** ** The hooks *)

Lemma py_getattr_setattr doc f v g :
  f <> "doctype"%string -> f <> "name"%string ->
  py_getattr (py_setattr doc f v) g
  = if String.eqb g f then Some v else py_getattr doc g.
Proof.
  intros Hdt Hn. unfold py_getattr, py_setattr. simpl.
  destruct (String.eqb g "doctype") eqn:Hg1.
  { apply String.eqb_eq in Hg1 as ->.
    destruct (String.eqb "doctype" f) eqn:Hf; [|reflexivity].
    apply String.eqb_eq in Hf. congruence. }
  destruct (String.eqb g "name") eqn:Hg2.
  { apply String.eqb_eq in Hg2 as ->.
    destruct (String.eqb "name" f) eqn:Hf; [|reflexivity].
    apply String.eqb_eq in Hf. congruence. }
  apply dict_get_set.
Qed.

(** X13.  [on_doc_load] never raises and changes nothing in the world.  It
    touches the document only when the lookup finds an active Translation
    Map for its type and the document has no [original_language] yet;
    then it sets that attribute to the request language, or to ["de"]
    when there is none, and leaves every other attribute as it was.  A
    document that already carries the attribute keeps its value, so
    loading twice is the same as loading once. *)
Theorem on_doc_load_marks_language E local_lang (doc : Document) w :
  exists doc',
    on_doc_load E local_lang doc w = (Ok doc', w)
    /\ doctype doc' = doctype doc /\ name doc' = name doc
    /\ changed doc' = changed doc
    /\ (forall f, f <> "original_language"%string ->
                  py_getattr doc' f = py_getattr doc f)
    /\ (py_hasattr doc "original_language" = true
        \/ active_map E (doctype doc) = None -> doc' = doc)
    /\ (py_hasattr doc "original_language" = false ->
        is_Some (active_map E (doctype doc)) ->
        py_getattr doc' "original_language"
        = Some (PStr (str_or local_lang "de")))
    /\ on_doc_load E local_lang doc' w = (Ok doc', w).
Proof.
  unfold on_doc_load, try_except, on_doc_load_try, bind, db_get_value_map, ret,
    active_map.
  destruct (list_find (map_is_for (doctype doc)) (site_maps E))
    as [[i m]|] eqn:Hfind; simpl.
  - destruct (py_hasattr doc "original_language") eqn:Hhas; simpl.
    + exists doc. rewrite Hfind. simpl. rewrite Hhas. simpl.
      repeat split; auto. intros; discriminate.
    + exists (py_setattr doc "original_language" (PStr (str_or local_lang "de"))).
      assert (Hget : forall g,
                py_getattr (py_setattr doc "original_language"
                              (PStr (str_or local_lang "de"))) g
                = if String.eqb g "original_language"
                  then Some (PStr (str_or local_lang "de"))
                  else py_getattr doc g)
        by (intros g; apply py_getattr_setattr; discriminate).
      simpl. rewrite Hfind. simpl.
      unfold py_hasattr at 1. rewrite Hget. simpl.
      repeat split; auto.
      * intros f Hf. rewrite Hget.
        destruct (String.eqb f "original_language") eqn:Heq; [|reflexivity].
        apply String.eqb_eq in Heq. contradiction.
      * intros [H|H]; discriminate.
  - exists doc. rewrite Hfind. simpl. repeat split; auto.
    intros _ [x Hx]. discriminate.
Qed.

Lemma on_doc_load_marks_language_witness :
  exists doc',
    eval (on_doc_load Scenario.env None Scenario.article) Scenario.empty_world
    = Ok doc' /\
    py_getattr doc' "original_language" = Some (PStr "de") /\
    py_getattr doc' "title" = Some (PStr "Hallo").
Proof.
  destruct (on_doc_load_marks_language Scenario.env None Scenario.article
              Scenario.empty_world)
    as (doc' & Hrun & _ & _ & _ & Hother & _ & Hset & _).
  exists doc'. split; [unfold eval; rewrite Hrun; reflexivity|]. split.
  - apply Hset; [reflexivity|]. exists Scenario.article_map. reflexivity.
  - rewrite Hother by discriminate. reflexivity.
Defined.

(** X14.  [on_doc_update] never raises, whatever the site holds, and never
    writes a row, calls the provider or reads the clock; it logs only when
    the settings cannot be read.  The job it enqueues never raises
    either. *)
Theorem hooks_never_raise E (doc : Document) dt dn w :
  let w' := exec (on_doc_update E doc) w in
  eval (on_doc_update E doc) w = Ok tt
  /\ store w' = store w /\ requests w' = requests w
  /\ clock_reads w' = clock_reads w
  /\ (forall st, site_settings E = inl st -> error_log w' = error_log w)
  /\ eval (translate_to_all_languages E dt dn) w = Ok tt.
Proof.
  split; [|split; [|split; [|split; [|split]]]].
  6:{ unfold eval, translate_to_all_languages, translate_to_all_languages_with,
        try_except.
      fold (translate_to_all_languages_try E).
      destruct (translate_to_all_languages_try E dt dn w) as [[[]|e] w1];
        reflexivity. }
  all: unfold eval, exec, on_doc_update, try_except, on_doc_update_try, bind,
         get_translation_settings.
  all: destruct (site_settings E) as [st|e]; simpl;
         [|try reflexivity; intros; discriminate].
  all: destruct (negb (enable_auto_translation st)
                 || negb (auto_translate_on_update st)); simpl;
         [try reflexivity; intros; reflexivity|].
  all: unfold db_get_value_map, ret.
  all: destruct (list_find (map_is_for (doctype doc)) (site_maps E))
         as [[i m]|] eqn:Hfind; simpl;
         [|try reflexivity; intros; reflexivity].
  all: apply list_find_Some in Hfind as (Hi & _ & _).
  all: unfold frappe_get_map; rewrite Hi; unfold ret.
  all: destruct (field_mappings m) as [|fm fms];
         [try reflexivity; intros; reflexivity|].
  all: match goal with
       | |- context [if ?b then frappe_enqueue _ else _] => destruct b
       end; try reflexivity; intros; reflexivity.
Qed.

Lemma hooks_never_raise_witness :
  error_log (exec (on_doc_update Scenario.env Scenario.article)
               Scenario.empty_world) = [].
Proof.
  apply (proj1 (proj2 (proj2 (proj2 (proj2
           (hooks_never_raise Scenario.env Scenario.article "Article" "A1"
              Scenario.empty_world)))))
           Scenario.settings eq_refl).
Defined.

(** ** get_fields_for_translation *)

Lemma listed_test field :
  listed field <->
  bool_decide (fieldtype field ∈ translatable_types) = true /\
  bool_decide (fieldname field ∈ system_fields) = false /\
  read_only field && String.eqb (fieldtype field) "Data" = false.
Proof.
  unfold listed.
  rewrite bool_decide_eq_true, bool_decide_eq_false, andb_false_iff.
  split; intros (H1 & H2 & H3); (split; [assumption|split; [assumption|]]).
  - destruct (read_only field); [|auto]. right.
    apply String.eqb_neq. intros Heq. apply H3. auto.
  - intros [Hro Hdata]. destruct H3 as [H|H]; [congruence|].
    apply String.eqb_neq in H. contradiction.
Qed.

Lemma collect_translatable_filter fields acc :
  collect_translatable fields acc = acc ++ (field_info <$> filter listed fields).
Proof.
  revert acc. induction fields as [|field fields IH]; intros acc; simpl.
  - rewrite app_nil_r. reflexivity.
  - destruct (decide (listed field)) as [Hl|Hl].
    + rewrite filter_cons_True by assumption.
      apply listed_test in Hl as (-> & -> & ->).
      rewrite IH, fmap_cons, <- app_assoc. reflexivity.
    + rewrite filter_cons_False by assumption.
      destruct (bool_decide (fieldtype field ∈ translatable_types)) eqn:H1;
        [|apply IH].
      destruct (bool_decide (fieldname field ∈ system_fields)) eqn:H2;
        [apply IH|].
      destruct (read_only field && String.eqb (fieldtype field) "Data") eqn:H3;
        [apply IH|].
      exfalso. apply Hl, listed_test. auto.
Qed.

Section FieldDiscoveryFacts.
Variable get_meta : string -> list DocField + exn.

(** X15.  For a non-empty DocType name whose meta can be read,
    [get_fields_for_translation] returns, in schema order and without
    logging or touching the world, one entry for exactly the fields whose
    type is Data, Text, Small Text, Long Text, HTML or Text Editor, whose
    name is none of name, owner, creation, modified and modified_by, and
    that are not read-only Data fields; an entry is labelled by the
    field's label, or by its name when the label is missing or empty. *)
Theorem get_fields_for_translation_lists doctype_name fields w :
  doctype_name <> EmptyString ->
  get_meta doctype_name = inl fields ->
  get_fields_for_translation get_meta doctype_name w
  = (Ok (field_info <$> filter listed fields), w)
  /\ (forall info,
        info ∈ field_info <$> filter listed fields <->
        exists field,
          field ∈ fields /\
          (fieldtype field ∈ translatable_types) /\
          (fieldname field ∉ system_fields) /\
          ~ (read_only field = true /\ fieldtype field = "Data"%string) /\
          info = {| info_field_name := fieldname field;
                    info_field_label :=
                      match label field with
                      | Some (String c l) => String c l
                      | _ => fieldname field
                      end;
                    info_field_type := fieldtype field |}).
Proof.
  intros Hne Hmeta. split.
  - unfold get_fields_for_translation, try_except,
      get_fields_for_translation_try, bind.
    destruct doctype_name; [contradiction|]. simpl.
    rewrite Hmeta. simpl. rewrite collect_translatable_filter. reflexivity.
  - intros info. rewrite list_elem_of_fmap. split.
    + intros (field & -> & Hin). apply list_elem_of_filter in Hin as [Hl Hin].
      exists field. destruct Hl as (H1 & H2 & H3).
      repeat split; try assumption.
      unfold field_info, str_or. destruct (label field) as [[|c l]|]; reflexivity.
    + intros (field & Hin & H1 & H2 & H3 & ->). exists field. split.
      * unfold field_info, str_or. destruct (label field) as [[|c l]|]; reflexivity.
      * apply list_elem_of_filter. split; [|assumption]. repeat split; assumption.
Qed.

(** X16.  [get_fields_for_translation] raises in exactly two cases, an
    empty DocType name and a failing meta lookup.  Either way the error
    reaches the caller wrapped as ["Error getting fields: ..."], one
    entry is logged, and nothing else changes; for an empty name the meta
    is not consulted and the message is that the name is required. *)
Theorem get_fields_for_translation_errors doctype_name w :
  let res := get_fields_for_translation get_meta doctype_name w in
  let failure msg :=
    res = (Raise (Exn OtherError ("Error getting fields: " +:+ msg)),
           exec (log_error ("Error in get_fields_for_translation for "
                            +:+ doctype_name +:+ ": " +:+ msg)) w) in
  (doctype_name = EmptyString -> failure "DocType name is required"%string)
  /\ (forall e, doctype_name <> EmptyString ->
                get_meta doctype_name = inr e -> failure (exn_msg e))
  /\ ((exists e, fst res = Raise e)
      <-> doctype_name = EmptyString
          \/ exists e, get_meta doctype_name = inr e).
Proof.
  unfold get_fields_for_translation, try_except,
    get_fields_for_translation_try, bind.
  split; [|split].
  - intros ->. reflexivity.
  - intros e Hne He. destruct doctype_name; [contradiction|]. simpl.
    rewrite He. reflexivity.
  - destruct doctype_name as [|c s]; simpl.
    + split; [auto|]. intros _. eexists. reflexivity.
    + destruct (get_meta (String c s)) as [fields|e]; simpl.
      * split; [intros (e & He); discriminate|].
        intros [H|(e & He)]; discriminate.
      * split; [eauto|]. intros _. eexists. reflexivity.
Qed.
End FieldDiscoveryFacts.

Lemma get_fields_for_translation_lists_witness :
  info_field_name <$>
    default [] (match eval (get_fields_for_translation Examples.meta "Article")
                        Scenario.empty_world with
                | Ok l => Some l
                | Raise _ => None
                end)
  = ["title"; "notes"]%string.
Proof.
  destruct (get_fields_for_translation_lists Examples.meta "Article"
              Examples.article_fields Scenario.empty_world)
    as [Hrun _]; [discriminate|reflexivity|].
  unfold eval. rewrite Hrun. reflexivity.
Defined.

Lemma get_fields_for_translation_errors_witness :
  fst (get_fields_for_translation Examples.meta EmptyString Scenario.empty_world)
  = Raise (Exn OtherError "Error getting fields: DocType name is required").
Proof.
  rewrite (proj1 (get_fields_for_translation_errors Examples.meta EmptyString
                    Scenario.empty_world) eq_refl).
  reflexivity.
Defined.

(** ** The outcome of one language *)

Section LanguageOutcome.
Variable E : Env.

Lemma translate_fields_result api_key source_language target_lang fields acc w :
  eval (translate_fields E api_key source_language target_lang fields acc) w
  = Ok (translated_from E api_key source_language target_lang
          (length (requests w)) fields acc).
Proof.
  unfold translate_fields.
  revert acc w. induction fields as [|[f v] fields IH]; intros acc w;
    [reflexivity|].
  unfold eval. cbn [translate_fields_with translated_from]. unfold bind at 1.
  rewrite translate_text_run.
  destruct (translate_text_only_sends E api_key v source_language target_lang w)
    as (_ & _ & _ & Hr).
  match goal with
  | |- fst (translate_fields_with _ _ _ _ _ ?a ?w1) = _ =>
      change (eval (translate_fields_with (translate_text E) api_key
                      source_language target_lang fields a) w1 = Ok
                (translated_from E api_key source_language target_lang
                   (Datatypes.S (length (requests w))) fields a));
      rewrite (IH a w1)
  end.
  rewrite Hr, length_app. simpl. rewrite Nat.add_1_r. reflexivity.
Qed.

(** X17.  What one target language leaves in the table is decided by the
    translations the provider returned for it.  When no field came back
    with a truthy translation the table is untouched: no row is written,
    and in particular no Failed row.  Otherwise one Completed row is
    upserted under the lower-cased language code, holding exactly the
    truthy translations, stamped with the clock reading of that save. *)
Theorem language_outcome dt dn api_key source_language vid fields target_lang w :
  let got := translated_from E api_key source_language target_lang
               (length (requests w)) fields [] in
  let w' := exec (translate_language E dt dn api_key source_language vid fields
                    target_lang) w in
  (got = [] -> store w' = store w)
  /\ (got <> [] ->
      store w'
      = match list_find (row_has_key dt dn vid (PyStr.lower target_lang))
                (store w) with
        | Some (i, r) => <[i := completed r got (clock E (clock_reads w))]> (store w)
        | None =>
            store w ++ [completed_row dt dn vid (PyStr.lower target_lang) got
                          (clock E (clock_reads w))]
        end).
Proof.
  intros got w'. unfold w', exec. rewrite translate_language_is_try.
  unfold translate_language_try, translate_language_try_with, bind.
  fold (translate_fields E).
  pose proof (translate_fields_result api_key source_language target_lang
                fields [] w) as Hres.
  destruct (translate_fields_run E api_key source_language target_lang fields [] w)
    as (acc' & w1 & Hrun & (Hs & _ & Hc & _)).
  unfold eval in Hres. rewrite Hrun in Hres. simpl in Hres.
  injection Hres as Hacc. fold got in Hacc. rewrite Hrun.
  split.
  - intros Hnone. rewrite Hacc, Hnone. exact Hs.
  - intros Hsome. rewrite Hacc.
    destruct got as [|p got'] eqn:Hgot; [contradiction|].
    rewrite save_translation_to_store_run. simpl. rewrite Hs, Hc. reflexivity.
Qed.
End LanguageOutcome.

Lemma language_outcome_witness :
  store (exec (translate_language Scenario.env "Article" "A1" "K" "de"
                 Scenario.version [("title", "Hallo")]%string "FR")
           Scenario.empty_world) = [].
Proof.
  apply (proj1 (language_outcome Scenario.env "Article" "A1" "K" "de"
                  Scenario.version [("title", "Hallo")]%string "FR"
                  Scenario.empty_world)).
  reflexivity.
Defined.

(** ** Witnesses of the reader and table properties *)

Lemma get_translation_for_ui_only_reads_witness :
  get_translation_for_ui Examples.loads "Article" "A1" Scenario.version "fr"
    Scenario.empty_world = (Ok JNull, Scenario.empty_world).
Proof.
  apply (proj1 (proj2 (proj2
           (get_translation_for_ui_only_reads Examples.loads "Article" "A1"
              Scenario.version "fr" Scenario.empty_world)))).
  constructor.
Defined.

Lemma saved_translation_is_read_back_witness :
  eval (get_translation_for_ui Examples.loads "Article" "A1" Scenario.version "en")
    (exec (save_translation_to_store Scenario.env "Article" "A1"
             Scenario.version "en" Scenario.title_hello)
       Scenario.empty_world)
  = Ok (JObj Scenario.title_hello).
Proof.
  unfold eval.
  rewrite (saved_translation_is_read_back Scenario.env Examples.loads
             "Article" "A1" Scenario.version "en" Scenario.title_hello
             Scenario.empty_world eq_refl).
  reflexivity.
Defined.

Lemma writes_leave_other_keys_alone_witness :
  eval (get_translation_for_ui Examples.loads "Article" "A1" Scenario.version "en")
    (exec (update_translation_status "Article" "A1" Scenario.version "FR"
             "Failed")
       (set_store [Scenario.en_row] Scenario.empty_world))
  = Ok (JObj Scenario.title_hello).
Proof.
  rewrite (proj2 (writes_leave_other_keys_alone Scenario.env Examples.loads
                    "Article" "A1" Scenario.version "en"
                    "Article" "A1" Scenario.version "FR"
                    Scenario.title_hello "Failed"
                    (set_store [Scenario.en_row] Scenario.empty_world)
                    ltac:(discriminate))).
  reflexivity.
Defined.

Lemma status_mark_keeps_content_witness :
  eval (get_translation_for_ui Examples.loads "Article" "A1" Scenario.version "en")
    (exec (update_translation_status "Article" "A1" Scenario.version "en"
             "Failed")
       (set_store [Scenario.en_row] Scenario.empty_world))
  = Ok (JObj Scenario.title_hello)
  /\
  eval (get_translation_for_ui Examples.loads "Article" "A1" Scenario.version "fr")
    (exec (update_translation_status "Article" "A1" Scenario.version "fr"
             "Failed") Scenario.empty_world)
  = Ok (JObj []).
Proof.
  split.
  - rewrite (proj1 (status_mark_keeps_content Examples.loads
                      "Article" "A1" Scenario.version "en" "Failed"
                      (set_store [Scenario.en_row] Scenario.empty_world))).
    + reflexivity.
    + constructor. repeat split.
  - apply (proj2 (status_mark_keeps_content Examples.loads
                    "Article" "A1" Scenario.version "fr" "Failed"
                    Scenario.empty_world)).
    + constructor.
    + reflexivity.
Defined.

Lemma writers_keep_unique_keys_witness :
  unique_keys
    (store (exec (save_translation_to_store Scenario.env "Article" "A1"
                    Scenario.version "en" Scenario.title_hello)
              (set_store [Scenario.en_row] Scenario.empty_world))).
Proof.
  apply (proj2 (proj2 (writers_keep_unique_keys Scenario.env "Article" "A1"
                         Scenario.version "en" Scenario.title_hello "Failed"
                         (set_store [Scenario.en_row] Scenario.empty_world)))).
  apply NoDup_singleton.
Defined.

Lemma job_keeps_table_invariants_witness :
  unique_keys
    (store (exec (translate_to_all_languages Scenario.env "Article" "A1")
              Scenario.empty_world)).
Proof.
  apply (proj2 (proj2 (job_keeps_table_invariants Scenario.env "Article" "A1"
                         Scenario.empty_world))).
  apply NoDup_nil. exact I.
Defined.

Lemma job_rows_carry_one_version_witness :
  exists vid,
    eval (get_version_id Scenario.env Scenario.article) Scenario.empty_world
    = Ok vid /\
    forall i r',
      store (exec (translate_to_all_languages Scenario.env "Article" "A1")
               Scenario.empty_world) !! i = Some r' ->
      store Scenario.empty_world !! i = Some r' \/
      (parent_doctype r' = "Article"%string /\ parent_name r' = "A1"%string /\
       version_id r' = vid).
Proof.
  apply (job_rows_carry_one_version Scenario.env "Article" "A1"
           Scenario.empty_world 0%nat Scenario.article).
  reflexivity.
Defined.

(** ** The target-language list *)

Lemma is_space_upper_char c :
  PyStr.is_space (PyStr.upper_char c) = PyStr.is_space c.
Proof. destruct c as [[] [] [] [] [] [] [] []]; reflexivity. Qed.

Lemma upper_char_comma c :
  Ascii.eqb (PyStr.upper_char c) "," = Ascii.eqb c ",".
Proof. destruct c as [[] [] [] [] [] [] [] []]; reflexivity. Qed.

Lemma split_pieces_no_sep sep s piece :
  piece ∈ PyStr.split sep s ->
  PyStr.all_chars (fun c => negb (Ascii.eqb c sep)) piece = true.
Proof.
  revert piece. induction s as [|c s IH]; intros piece Hin; simpl in Hin.
  - apply list_elem_of_singleton in Hin as ->. reflexivity.
  - destruct (Ascii.eqb c sep) eqn:Hc.
    + apply elem_of_cons in Hin as [->|Hin]; [reflexivity|auto].
    + destruct (PyStr.split sep s) as [|h t] eqn:Hsplit.
      * apply list_elem_of_singleton in Hin as ->. simpl. rewrite Hc. reflexivity.
      * apply elem_of_cons in Hin as [->|Hin].
        -- simpl. rewrite Hc. simpl. apply IH. left.
        -- apply IH. right. exact Hin.
Qed.

Lemma lstrip_all_chars p s :
  PyStr.all_chars p s = true -> PyStr.all_chars p (PyStr.lstrip s) = true.
Proof.
  induction s as [|c s IH]; simpl; [auto|]. intros H.
  destruct (PyStr.is_space c); [|exact H].
  apply andb_true_iff in H as [_ H]. auto.
Qed.

Lemma rstrip_all_chars p s :
  PyStr.all_chars p s = true -> PyStr.all_chars p (PyStr.rstrip s) = true.
Proof.
  induction s as [|c s IH]; simpl; [auto|]. intros H.
  apply andb_true_iff in H as [Hc H].
  destruct (PyStr.is_empty (PyStr.rstrip s) && PyStr.is_space c); [reflexivity|].
  simpl. rewrite Hc. auto.
Qed.

Lemma rstrip_idem s : PyStr.rstrip (PyStr.rstrip s) = PyStr.rstrip s.
Proof.
  induction s as [|c s IH]; [reflexivity|]. cbn [PyStr.rstrip].
  destruct (PyStr.is_empty (PyStr.rstrip s) && PyStr.is_space c) eqn:Hd;
    [reflexivity|].
  cbn [PyStr.rstrip]. rewrite IH, Hd. reflexivity.
Qed.

Lemma lstrip_no_lead s : no_lead (PyStr.lstrip s).
Proof.
  induction s as [|c s IH]; simpl; [exact I|].
  destruct (PyStr.is_space c) eqn:Hc; [exact IH|exact Hc].
Qed.

Lemma rstrip_no_lead s : no_lead s -> no_lead (PyStr.rstrip s).
Proof.
  destruct s as [|c s]; simpl; [auto|]. intros Hc.
  destruct (PyStr.is_empty (PyStr.rstrip s) && PyStr.is_space c);
    [exact I|exact Hc].
Qed.

Lemma lstrip_of_no_lead s : no_lead s -> PyStr.lstrip s = s.
Proof. destruct s as [|c s]; simpl; [auto|]. intros ->. reflexivity. Qed.

Lemma strip_idem s : PyStr.strip (PyStr.strip s) = PyStr.strip s.
Proof.
  unfold PyStr.strip.
  rewrite (lstrip_of_no_lead (PyStr.rstrip (PyStr.lstrip s)))
    by apply rstrip_no_lead, lstrip_no_lead.
  apply rstrip_idem.
Qed.

Lemma lstrip_upper s : PyStr.lstrip (PyStr.upper s) = PyStr.upper (PyStr.lstrip s).
Proof.
  unfold PyStr.upper. induction s as [|c s IH]; [reflexivity|].
  cbn [PyStr.map_chars PyStr.lstrip]. rewrite is_space_upper_char.
  destruct (PyStr.is_space c); [exact IH|reflexivity].
Qed.

Lemma is_empty_upper s : PyStr.is_empty (PyStr.upper s) = PyStr.is_empty s.
Proof. destruct s; reflexivity. Qed.

Lemma rstrip_upper s : PyStr.rstrip (PyStr.upper s) = PyStr.upper (PyStr.rstrip s).
Proof.
  induction s as [|c s IH]; [reflexivity|].
  change (PyStr.upper (String c s))
    with (String (PyStr.upper_char c) (PyStr.upper s)).
  cbn [PyStr.rstrip]. rewrite IH, is_empty_upper, is_space_upper_char.
  destruct (PyStr.is_empty (PyStr.rstrip s) && PyStr.is_space c); reflexivity.
Qed.

Lemma strip_upper s : PyStr.strip (PyStr.upper s) = PyStr.upper (PyStr.strip s).
Proof. unfold PyStr.strip. rewrite lstrip_upper, rstrip_upper. reflexivity. Qed.

Lemma upper_all_no_comma s :
  PyStr.all_chars (fun c => negb (Ascii.eqb c ",")) s = true ->
  PyStr.all_chars (fun c => negb (Ascii.eqb c ",")) (PyStr.upper s) = true.
Proof.
  unfold PyStr.upper. induction s as [|c s IH]; [auto|].
  cbn [PyStr.map_chars PyStr.all_chars]. rewrite upper_char_comma.
  intros H. apply andb_true_iff in H as [-> H]. simpl. auto.
Qed.

(** X18.  The list of target languages is clean whatever the settings
    string looks like: every code in it is non-empty, upper-case, free of
    surrounding white space and of commas, and is the stripped,
    upper-cased form of a piece between two commas; pieces that are blank
    contribute nothing, so a string of commas and blanks gives no language
    at all. *)
Theorem target_languages_are_clean s :
  (forall tl, tl ∈ target_languages_of s ->
     tl <> EmptyString /\ PyStr.upper tl = tl /\ PyStr.strip tl = tl /\
     PyStr.all_chars (fun c => negb (Ascii.eqb c ",")) tl = true /\
     exists piece, piece ∈ PyStr.split "," s /\
                   tl = PyStr.upper (PyStr.strip piece))
  /\ (target_languages_of s = [] <->
      forall piece, piece ∈ PyStr.split "," s ->
                    PyStr.strip piece = EmptyString).
Proof.
  split.
  - intros tl Hin.
    apply target_languages_of_spec in Hin as (piece & Hp & Hne & ->).
    split; [|split; [|split; [|split]]].
    + intros Hempty. apply Hne.
      destruct (PyStr.strip piece); [reflexivity|discriminate].
    + apply upper_idem.
    + rewrite strip_upper, strip_idem. reflexivity.
    + apply upper_all_no_comma. unfold PyStr.strip.
      apply rstrip_all_chars, lstrip_all_chars.
      apply (split_pieces_no_sep "," s piece Hp).
    + eauto.
  - split.
    + intros Hnil piece Hp.
      destruct (PyStr.strip piece) as [|c r] eqn:Hs; [reflexivity|].
      assert (Hin : PyStr.upper (PyStr.strip piece) ∈ target_languages_of s).
      { apply target_languages_of_spec. exists piece.
        repeat split; [assumption|]. rewrite Hs. discriminate. }
      rewrite Hnil in Hin. inversion Hin.
    + intros Hblank.
      destruct (target_languages_of s) as [|tl l] eqn:Hl; [reflexivity|].
      assert (Hin : tl ∈ target_languages_of s) by (rewrite Hl; left).
      apply target_languages_of_spec in Hin as (piece & Hp & Hne & _).
      exfalso. apply Hne, Hblank, Hp.
Qed.

Lemma target_languages_are_clean_witness :
  target_languages_of " , ,, " = [].
Proof.
  apply (proj2 (target_languages_are_clean " , ,, ")).
  intros piece Hp.
  repeat (apply elem_of_cons in Hp as [->|Hp]; [reflexivity|]).
  inversion Hp.
Defined.

(* ===================================================================== *)
(** * The language codes along a run *)
(* ===================================================================== *)

(** ** Rows that a writer keeps and writes *)

Lemma upsert_keeps_row dt dn vid lang upd new (s : list Row) i r :
  s !! i = Some r ->
  upsert dt dn vid lang upd new s !! i = Some r
  \/ (row_has_key dt dn vid lang r /\
      upsert dt dn vid lang upd new s !! i = Some (upd r)).
Proof.
  intros Hi. unfold upsert.
  destruct (list_find _ s) as [[j r0]|] eqn:Hf.
  - apply list_find_Some in Hf as (Hj & Hk & _).
    destruct (decide (i = j)) as [->|Hne].
    + right. assert (r0 = r) by congruence. subst r0.
      split; [exact Hk|].
      apply list_lookup_insert_eq. eapply lookup_lt_Some; eassumption.
    + left. rewrite list_lookup_insert_ne by congruence. exact Hi.
  - left. apply lookup_app_l_Some. exact Hi.
Qed.

Lemma upsert_has_row dt dn vid lang upd new status (s : list Row) :
  (forall r, key_of (upd r) = key_of r) ->
  (forall r, translation_status (upd r) = status) ->
  row_has_key dt dn vid lang new -> translation_status new = status ->
  has_row dt dn vid lang status (upsert dt dn vid lang upd new s).
Proof.
  intros Hkey Hst Hnew Hnews. unfold has_row, upsert.
  destruct (list_find _ s) as [[j r0]|] eqn:Hf.
  - apply list_find_Some in Hf as (Hj & Hk & _).
    exists j, (upd r0). split; [|split].
    + apply list_lookup_insert_eq. eapply lookup_lt_Some; eassumption.
    + apply row_has_key_key_of. rewrite Hkey.
      apply row_has_key_key_of. exact Hk.
    + apply Hst.
  - exists (length s), new. split; [|split; assumption].
    rewrite lookup_app_r by lia. rewrite Nat.sub_diag. reflexivity.
Qed.

Lemma upsert_keeps_has_row dt dn vid lang upd new (s : list Row)
    dt0 dn0 vid0 lang0 status :
  (forall r, key_of (upd r) = key_of r) ->
  (forall r, row_has_key dt0 dn0 vid0 lang0 r -> row_has_key dt dn vid lang r ->
             translation_status r = status ->
             translation_status (upd r) = status) ->
  has_row dt0 dn0 vid0 lang0 status s ->
  has_row dt0 dn0 vid0 lang0 status (upsert dt dn vid lang upd new s).
Proof.
  intros Hkey Hst (i & r & Hi & Hk & Hs).
  destruct (upsert_keeps_row dt dn vid lang upd new s i r Hi) as [H|[Hk' H]].
  - exists i, r. auto.
  - exists i, (upd r). split; [exact H|]. split.
    + apply row_has_key_key_of. rewrite Hkey.
      apply row_has_key_key_of. exact Hk.
    + apply Hst; assumption.
Qed.

Lemma upper_lower_char c :
  PyStr.upper_char (PyStr.lower_char c) = PyStr.upper_char c.
Proof. destruct c as [[] [] [] [] [] [] [] []]; reflexivity. Qed.

Lemma upper_lower s : PyStr.upper (PyStr.lower s) = PyStr.upper s.
Proof.
  unfold PyStr.lower, PyStr.upper.
  induction s as [|c s IH]; cbn [PyStr.map_chars]; [reflexivity|].
  rewrite upper_lower_char, IH. reflexivity.
Qed.

Lemma target_languages_of_codes st :
  target_languages_of (str_or (default_target_languages st) EmptyString)
  = PyStr.upper <$> configured_codes st.
Proof.
  unfold target_languages_of, configured_codes.
  change (map ?f ?l) with (f <$> l).
  rewrite <- list_fmap_compose. reflexivity.
Qed.

Lemma requests_for_targets api_key source_language tl fields :
  data_target_lang <$> requests_for api_key source_language tl fields
  = replicate (length fields) (PyStr.upper tl).
Proof.
  unfold requests_for.
  induction fields as [|fv fields IH]; [reflexivity|].
  rewrite !fmap_cons, IH. reflexivity.
Qed.

Lemma job_requests_targets api_key source_language codes fields :
  data_target_lang <$>
    job_requests api_key source_language (PyStr.upper <$> codes) fields
  = concat ((fun code => replicate (length fields) (PyStr.upper code))
              <$> codes).
Proof.
  unfold job_requests.
  induction codes as [|code codes IH]; [reflexivity|].
  rewrite !fmap_cons, !concat_cons, fmap_app, IH, requests_for_targets,
    upper_idem.
  reflexivity.
Qed.

(** ** The loop over the languages, whatever the client *)

Section AnyClient.
Variable E : Env.
Variable client : string -> string -> string -> string -> M json.

(** One turn of the loop never raises: what the [try] block raises, the
    [except] block handles. *)
Lemma translate_language_with_run dt dn api_key source_language vid fields
    tl w :
  translate_language_with E client dt dn api_key source_language vid fields
    tl w
  = (Ok tt,
     exec (translate_language_with E client dt dn api_key source_language vid
             fields tl) w).
Proof.
  unfold exec, translate_language_with, try_except.
  destruct (translate_language_try_with E client dt dn api_key source_language
              vid fields tl w) as [[[]|e] w1]; [reflexivity|].
  unfold translate_language_except, bind, log_error.
  rewrite update_translation_status_run. reflexivity.
Qed.

Lemma for_each_with_cons dt dn api_key source_language vid fields tl langs w :
  exec (for_each (tl :: langs)
          (translate_language_with E client dt dn api_key source_language vid
             fields)) w
  = exec (for_each langs
            (translate_language_with E client dt dn api_key source_language
               vid fields))
      (exec (translate_language_with E client dt dn api_key source_language
               vid fields tl) w).
Proof.
  unfold exec at 1. cbn [for_each]. unfold bind.
  rewrite translate_language_with_run. reflexivity.
Qed.

(** The table a run with [client] leaves on a configured site is the one
    its loop over the languages leaves. *)
Lemma configured_job_store_with dt dn doc st key fms w vid w1 :
  job_configured E dt dn doc st key fms ->
  get_version_id E doc w = (Ok vid, w1) ->
  store (exec (translate_to_all_languages_with E client dt dn) w)
  = store (exec (for_each
                   (target_languages_of
                      (str_or (default_target_languages st) EmptyString))
                   (translate_language_with E client dt dn key
                      (str_or (default_source_language st) "de") vid
                      (fields_to_translate doc fms))) w1).
Proof.
  intros ((k & Hdoc) & Hst & Hkey & Hkne & Hlangs & (m & Hmap & Hfms) & Hne & Hf)
    Hrun.
  unfold exec, translate_to_all_languages_with, try_except,
    translate_to_all_languages_try_with, bind at 1, frappe_get_doc.
  rewrite Hdoc. unfold ret at 1. unfold bind at 1, get_translation_settings.
  rewrite Hst. simpl. rewrite Hkey.
  destruct key as [|c key]; [contradiction|].
  destruct (str_or (default_target_languages st) EmptyString) as [|c' s] eqn:Hs;
    [contradiction|]. simpl.
  unfold bind at 1, db_get_value_map, ret at 1.
  unfold active_map in Hmap.
  destruct (list_find (map_is_for dt) (site_maps E)) as [[i m']|] eqn:Hfind;
    [|discriminate]. simpl in Hmap. injection Hmap as ->. simpl.
  apply list_find_Some in Hfind as (Hi & _ & _).
  unfold bind at 1, frappe_get_map. rewrite Hi. unfold ret at 1.
  rewrite Hfms. destruct fms as [|fm fms]; [contradiction|].
  destruct (fields_to_translate doc (fm :: fms)) as [|p fields] eqn:Hfields;
    [contradiction|].
  unfold bind at 1. rewrite Hrun.
  match goal with
  | |- context [for_each ?l ?body w1] =>
      destruct (for_each l body w1) as [[[]|e] w2]; reflexivity
  end.
Qed.
End AnyClient.

(** ** Completed rows *)

Section CompletedRows.
Variable E : Env.

Lemma for_each_language_cons dt dn api_key source_language vid fields tl
    langs w :
  exec (for_each (tl :: langs)
          (translate_language E dt dn api_key source_language vid fields)) w
  = exec (for_each langs
            (translate_language E dt dn api_key source_language vid fields))
      (exec (translate_language E dt dn api_key source_language vid fields tl)
         w).
Proof.
  exact (for_each_with_cons E (translate_text E) dt dn api_key source_language
           vid fields tl langs w).
Qed.

(** What one language does to the table. *)
Lemma translate_language_store dt dn api_key source_language vid fields tl w :
  store (exec (translate_language E dt dn api_key source_language vid fields
                 tl) w)
  = match translated_from E api_key source_language tl (length (requests w))
            fields [] with
    | [] => store w
    | p :: got =>
        upsert dt dn vid (PyStr.lower tl)
          (fun r => completed r (p :: got) (clock E (clock_reads w)))
          (completed_row dt dn vid (PyStr.lower tl) (p :: got)
             (clock E (clock_reads w)))
          (store w)
    end.
Proof.
  unfold exec. rewrite translate_language_is_try.
  unfold translate_language_try, translate_language_try_with, bind.
  fold (translate_fields E).
  pose proof (translate_fields_result E api_key source_language tl fields [] w)
    as Hres.
  destruct (translate_fields_run E api_key source_language tl fields [] w)
    as (acc' & w1 & Hrun & (Hs & _ & Hc & _)).
  unfold eval in Hres. rewrite Hrun in Hres. simpl in Hres.
  injection Hres as Hacc. rewrite Hrun, Hacc.
  destruct (translated_from E api_key source_language tl (length (requests w))
              fields []) as [|p got]; [exact Hs|].
  rewrite save_translation_to_store_run. simpl. unfold upsert.
  rewrite Hs, Hc. reflexivity.
Qed.

Lemma translate_language_keeps_completed dt dn api_key source_language vid
    fields tl w dt0 dn0 vid0 lang0 :
  has_row dt0 dn0 vid0 lang0 "Completed" (store w) ->
  has_row dt0 dn0 vid0 lang0 "Completed"
    (store (exec (translate_language E dt dn api_key source_language vid
                    fields tl) w)).
Proof.
  intros H. rewrite translate_language_store.
  destruct (translated_from E _ _ _ _ _ _) as [|p got]; [exact H|].
  apply upsert_keeps_has_row; [reflexivity| |exact H].
  intros; reflexivity.
Qed.

Lemma for_each_language_keeps_completed dt dn api_key source_language vid
    fields langs w dt0 dn0 vid0 lang0 :
  has_row dt0 dn0 vid0 lang0 "Completed" (store w) ->
  has_row dt0 dn0 vid0 lang0 "Completed"
    (store (exec (for_each langs
                    (translate_language E dt dn api_key source_language vid
                       fields)) w)).
Proof.
  revert w. induction langs as [|tl langs IH]; intros w H; [exact H|].
  rewrite for_each_language_cons.
  apply IH, translate_language_keeps_completed, H.
Qed.

(** The language at position [p] of the loop makes the requests numbered
    from [p * length fields] of the run; when one of them brings back a
    truthy translation, its Completed row is in the table at the end. *)
Lemma for_each_language_completed dt dn api_key source_language vid fields
    langs w (p : nat) tl :
  langs !! p = Some tl ->
  translated_from E api_key source_language tl
    (length (requests w) + p * length fields) fields [] <> [] ->
  has_row dt dn vid (PyStr.lower tl) "Completed"
    (store (exec (for_each langs
                    (translate_language E dt dn api_key source_language vid
                       fields)) w)).
Proof.
  revert w p. induction langs as [|tl0 langs IH]; intros w p Hp Hgot;
    [destruct p; discriminate|].
  rewrite for_each_language_cons.
  destruct p as [|p]; simpl in Hp.
  - injection Hp as ->.
    apply for_each_language_keeps_completed.
    rewrite translate_language_store.
    rewrite Nat.mul_0_l, Nat.add_0_r in Hgot.
    destruct (translated_from E _ _ _ _ _ _) as [|q got]; [contradiction|].
    apply upsert_has_row; try reflexivity. repeat split.
  - apply (IH _ p Hp).
    rewrite translate_language_requests, length_app.
    unfold requests_for. rewrite length_fmap.
    replace (length (requests w) + length fields + p * length fields)%nat
      with (length (requests w) + Datatypes.S p * length fields)%nat by lia.
    exact Hgot.
Qed.
End CompletedRows.

(** ** Failed rows *)

(** A run against a stand-in for [translate_text] that raises for the
    target languages in [fails] and is [translate_text] for the others. *)
Section StandIn.
Variable E : Env.
Variable client : string -> string -> string -> string -> M json.
Variable fails : string -> bool.
Hypothesis client_passes :
  forall k t s tl, fails tl = false -> client k t s tl = translate_text E k t s tl.
Hypothesis client_raises :
  forall k t s tl w, fails tl = true ->
    exists e w1, client k t s tl w = (Raise e, w1) /\ store w1 = store w.

Lemma translate_fields_passes api_key source_language tl fields acc w :
  fails tl = false ->
  translate_fields_with client api_key source_language tl fields acc w
  = translate_fields E api_key source_language tl fields acc w.
Proof.
  intros Hf. unfold translate_fields. revert acc w.
  induction fields as [|[f v] fields IH]; intros acc w; [reflexivity|].
  cbn [translate_fields_with]. unfold bind.
  rewrite (client_passes api_key v source_language tl Hf).
  destruct (translate_text E api_key v source_language tl w) as [[a|e] w1];
    [apply IH|reflexivity].
Qed.

Lemma translate_language_passes dt dn api_key source_language vid fields tl w :
  fails tl = false ->
  translate_language_with E client dt dn api_key source_language vid fields
    tl w
  = translate_language E dt dn api_key source_language vid fields tl w.
Proof.
  intros Hf.
  unfold translate_language, translate_language_with, try_except,
    translate_language_try_with, bind.
  rewrite (translate_fields_passes api_key source_language tl fields [] w Hf).
  reflexivity.
Qed.

(** When the client raises, the [except] block marks the language as
    Failed, under the code the loop runs with. *)
Lemma translate_language_fails dt dn api_key source_language vid fields tl w :
  fails tl = true -> fields <> [] ->
  store (exec (translate_language_with E client dt dn api_key source_language
                 vid fields tl) w)
  = upsert dt dn vid tl (with_status "Failed")
      (status_row dt dn vid tl "Failed") (store w).
Proof.
  intros Hf Hne. destruct fields as [|[f v] rest]; [contradiction|].
  destruct (client_raises api_key v source_language tl w Hf)
    as (e & w1 & Hrun & Hs).
  unfold exec, translate_language_with, try_except,
    translate_language_try_with.
  cbn [translate_fields_with]. unfold bind at 1 2. rewrite Hrun.
  unfold translate_language_except, bind, log_error.
  rewrite update_translation_status_run. simpl. unfold upsert.
  rewrite Hs. reflexivity.
Qed.

Lemma stand_in_keeps_failed dt dn api_key source_language vid fields tl tl0 w :
  fields <> [] -> PyStr.upper tl = tl -> PyStr.upper tl0 = tl0 ->
  fails tl0 = true ->
  has_row dt dn vid tl0 "Failed" (store w) ->
  has_row dt dn vid tl0 "Failed"
    (store (exec (translate_language_with E client dt dn api_key
                    source_language vid fields tl) w)).
Proof.
  intros Hne Hup Hup0 Hf0 H.
  destruct (fails tl) eqn:Hf.
  - rewrite translate_language_fails by assumption.
    apply upsert_keeps_has_row; [reflexivity| |exact H].
    intros; reflexivity.
  - unfold exec. rewrite translate_language_passes by assumption.
    fold (exec (translate_language E dt dn api_key source_language vid fields
                  tl) w).
    rewrite translate_language_store.
    destruct (translated_from E _ _ _ _ _ _) as [|p got]; [exact H|].
    apply upsert_keeps_has_row; [reflexivity| |exact H].
    intros r (_ & _ & _ & Hl0) (_ & _ & _ & Hl) _. exfalso.
    assert (Heq : tl0 = tl).
    { rewrite <- Hup0, <- Hup, <- Hl0, Hl. apply upper_lower. }
    rewrite Heq, Hf in Hf0. discriminate.
Qed.

Lemma for_each_stand_in_failed dt dn api_key source_language vid fields
    langs tl0 w :
  fields <> [] -> Forall (fun tl => PyStr.upper tl = tl) langs ->
  PyStr.upper tl0 = tl0 -> fails tl0 = true ->
  has_row dt dn vid tl0 "Failed" (store w) \/ tl0 ∈ langs ->
  has_row dt dn vid tl0 "Failed"
    (store (exec (for_each langs
                    (translate_language_with E client dt dn api_key
                       source_language vid fields)) w)).
Proof.
  intros Hne Hall Hup0 Hf0. revert w.
  induction Hall as [|tl langs Hup Hall IH]; intros w [H|Hin].
  - exact H.
  - inversion Hin.
  - rewrite for_each_with_cons. apply IH. left.
    apply stand_in_keeps_failed; assumption.
  - rewrite for_each_with_cons. apply IH.
    apply elem_of_cons in Hin as [->|Hin]; [left|right; exact Hin].
    rewrite translate_language_fails by assumption.
    apply upsert_has_row; try reflexivity. repeat split.
Qed.
End StandIn.

(** C10.  On a site configured for the document, with [codes] the
    configured target-language codes in the case they are written in:
    the requests of a run carry, code by code and once per field, the
    upper-cased code as target language; for every code for which the
    provider returns a truthy translation of some field, the table holds
    at the end a Completed row keyed by the lower-cased code, and every
    row the run writes or rewrites is a Completed row whose language key
    is lower-case; and in a run in which the call of [translate_text]
    raises for a code, the table holds at the end a Failed row keyed by
    the upper-cased code.  [translate_text] itself never raises, so the
    last is stated for a run against a stand-in that raises for the
    languages in [fails] and is [translate_text] for the others. *)
Theorem C10_language_codes E dt dn doc st key fms w
    (client : string -> string -> string -> string -> M json)
    (fails : string -> bool) :
  job_configured E dt dn doc st key fms ->
  (forall k t s tl,
     fails tl = false -> client k t s tl = translate_text E k t s tl) ->
  (forall k t s tl w0,
     fails tl = true ->
     exists e w1, client k t s tl w0 = (Raise e, w1) /\ store w1 = store w0) ->
  let codes := configured_codes st in
  let fields := fields_to_translate doc fms in
  let source_language := str_or (default_source_language st) "de" in
  let w' := exec (translate_to_all_languages E dt dn) w in
  let w'' := exec (translate_to_all_languages_with E client dt dn) w in
  exists vid,
    eval (get_version_id E doc) w = Ok vid
    /\ (exists new,
          requests w' = requests w ++ new /\
          data_target_lang <$> new
          = concat ((fun code => replicate (length fields) (PyStr.upper code))
                      <$> codes))
    /\ (forall (p : nat) code,
          codes !! p = Some code ->
          translated_from E key source_language (PyStr.upper code)
            (length (requests w) + p * length fields) fields [] <> [] ->
          has_row dt dn vid (PyStr.lower code) "Completed" (store w'))
    /\ (forall i r',
          store w' !! i = Some r' ->
          store w !! i = Some r' \/
          (translation_status r' = "Completed"%string /\
           PyStr.lower (language r') = language r' /\
           exists code, code ∈ codes /\ language r' = PyStr.lower code))
    /\ (forall code,
          code ∈ codes -> fails (PyStr.upper code) = true ->
          has_row dt dn vid (PyStr.upper code) "Failed" (store w'')).
Proof.
  intros Hconf Hpass Hraise codes fields source_language w' w''.
  destruct (configured_job_run E dt dn doc st key fms w Hconf)
    as (vid & w1 & Hrun & Hexec).
  destruct (get_version_id_quiet E doc w)
    as (vid' & w1' & Hrun' & Hs & _ & Hr & _).
  rewrite Hrun in Hrun'. injection Hrun' as <- <-.
  rewrite target_languages_of_codes in Hexec. fold codes in Hexec.
  exists vid. split; [unfold eval; rewrite Hrun; reflexivity|].
  split; [|split; [|split]].
  - exists (job_requests key source_language (PyStr.upper <$> codes) fields).
    split; [|apply job_requests_targets].
    unfold w'. rewrite Hexec, for_each_language_requests, Hr. reflexivity.
  - intros p code Hp Hgot. unfold w'. rewrite Hexec.
    rewrite <- (lower_upper code).
    apply for_each_language_completed with (p := p).
    + rewrite list_lookup_fmap, Hp. reflexivity.
    + rewrite Hr. exact Hgot.
  - intros i r' Hlook.
    destruct (translate_to_all_languages_effect E dt dn w) as [_ Hrows].
    destruct (Hrows i r' Hlook) as [H|(Hst & tl & Hin & Hl)]; [auto|].
    right. unfold configured_languages in Hin.
    destruct Hconf as (_ & Hsite & _). rewrite Hsite in Hin.
    rewrite target_languages_of_codes in Hin.
    apply list_elem_of_fmap in Hin as (code & -> & Hin).
    split; [assumption|]. split.
    + rewrite Hl. apply lower_idem.
    + exists code. split; [assumption|]. rewrite Hl. apply lower_upper.
  - intros code Hin Hf. unfold w''.
    rewrite (configured_job_store_with E client dt dn doc st key fms w vid w1
               Hconf Hrun).
    rewrite target_languages_of_codes.
    apply for_each_stand_in_failed with (fails := fails); try assumption.
    + destruct Hconf as (_ & _ & _ & _ & _ & _ & _ & Hne). exact Hne.
    + apply Forall_fmap, Forall_forall. intros c _. apply upper_idem.
    + apply upper_idem.
    + right. apply list_elem_of_fmap. exists code. auto.
Qed.

Lemma C10_witness :
  has_row "Article" "A1" Scenario.version "en" "Completed"
    (store (exec (translate_to_all_languages Scenario.env "Article" "A1")
              Scenario.empty_world))
  /\
  has_row "Article" "A1" Scenario.version "FR" "Failed"
    (store (exec (translate_to_all_languages_with Scenario.env Scenario.client
                    "Article" "A1") Scenario.empty_world)).
Proof.
  destruct (C10_language_codes Scenario.env "Article" "A1" Scenario.article
              Scenario.settings "K" (field_mappings Scenario.article_map)
              Scenario.empty_world Scenario.client Scenario.fr_fails)
    as (vid & Hvid & _ & Hdone & _ & Hfailed).
  - split; [exists 0%nat; reflexivity|].
    repeat split; try discriminate.
    exists Scenario.article_map. split; reflexivity.
  - intros k t s tl H. unfold Scenario.client. rewrite H. reflexivity.
  - intros k t s tl w0 H. unfold Scenario.client. rewrite H.
    eexists _, w0. split; reflexivity.
  - vm_compute in Hvid. injection Hvid as <-. split.
    + apply (Hdone 0%nat "EN"%string); [reflexivity|].
      vm_compute. discriminate.
    + apply (Hfailed "FR"%string); [|reflexivity].
      apply (list_elem_of_lookup_2 _ 1%nat). reflexivity.
Defined.
